(** * Trend Phone: the ledger and inventory engine of [server.ts]

    A shallow embedding of the SQLite-backed request handlers of
    [server.ts] and of the sale and purchase forms of the client, and the
    properties of the customer and supplier ledgers, of the stock levels
    and of the backup codec.

    Conventions of the embedding.
    - A table is a finite map from its primary key to the remaining
      columns of the row, so the PRIMARY KEY constraint holds by
      construction; [sqlite_sequence] is the engine's own table behind
      AUTOINCREMENT.  Row ids are integers ([Z]); they are taken below
      2^53, where a JavaScript number holds them exactly.
    - Every other column is nullable, as the schema has it: a column is an
      [option], [None] being NULL.  A field of a request body is an
      [option] too, [None] being a field that is missing or null, which
      the driver binds as NULL.
    - A number is an IEEE 754 double, as JavaScript has it and as SQLite
      has it in a REAL column; JavaScript and SQLite round alike.  An
      INTEGER column (a quantity, a stock level) holds the doubles that
      are bound to it: SQLite keeps those that are whole as 64-bit
      integers, which differ from doubles above 2^53 only, and that
      difference is left out.  SQLite stores no NaN: it stores NULL.
      A number of a request body is never NaN, as JSON has none; it can
      be infinite (1e999) and it can be the negative zero.
    - How SUM rounds a sum of REAL values (from left to right, or with a
      compensation term) depends on the version of SQLite, which the
      source does not fix: it is a component of the world, [summation].
      The integer 0 that a CASE gives for the rows it leaves out counts
      as the double 0 in such a sum.
    - A statement is executed by the engine, which may refuse it.  CHECK,
      UNIQUE, PRIMARY KEY and FOREIGN KEY refusals are computed from the
      schema; the driver enforces foreign keys unless told otherwise, and
      the source does not tell it.  Every other failure (an I/O error, a
      full disk) is drawn from the [pending] list of the world: one entry
      per executed statement, [true] meaning that the engine raises.
    - An exception leaves the writes made so far in place; only
      [transaction] undoes them, as [db.transaction] does.
    - The text of the message of an exception is the engine's; an answer
      that carries [e.message] is modelled as carrying [e].
    - The rows of a snapshot carry the columns of their table, as the rows
      of an export do, so the column list that the import takes from the
      first row of an entry is the column list of the table; a row of the
      settings carries its key, which is the primary key and never NULL
      in an export.
    - The client is embedded as the functions of its sale and purchase
      forms on the state of the form; the numbers of the form reach the
      server through [JSON.stringify], which writes NaN and the
      infinities as null. *)

From Corelib Require Import PrimFloat FloatAxioms.
From stdpp Require Import gmap strings list fin_maps sorting pretty.

Open Scope string_scope.
Open Scope Z_scope.

(** ** Values *)

(** A TEXT column or field, a numeric one, and one that holds a row id. *)
Abbreviation text := (option string).
Abbreviation real := (option float).
Abbreviation ref := (option Z).

(** A number as a literal of the development. *)
Definition num (f : float) : real := Some f.
Arguments num f%_float.

(** What SQLite keeps of a double that is bound to a parameter or that a
    computation gives: NaN is NULL. *)
Definition sql_real (f : float) : real :=
  if PrimFloat.is_nan f then None else Some f.

(** [a - b] and [a + b] in SQL: NULL when an operand is NULL. *)
Definition sql_sub (a b : real) : real :=
  match a, b with
  | Some x, Some y => sql_real (PrimFloat.sub x y)
  | _, _ => None
  end.

Definition sql_add (a b : real) : real :=
  match a, b with
  | Some x, Some y => sql_real (PrimFloat.add x y)
  | _, _ => None
  end.

(** [SUM(expr)] over the values of [expr] on the selected rows, in the
    order of the scan: NULL values are skipped, the sum of no value is
    NULL; [summation] is the engine's sum of doubles. *)
Definition sql_sum (summation : list float → float) (values : list real)
    : real :=
  match omap id values with
  | [] => None
  | l => sql_real (summation l)
  end.

(** JavaScript: a number or null in a condition ([if (x)], [x || y]); 0,
    NaN and null are falsy. *)
Definition js_truthy (x : real) : bool :=
  match x with
  | Some f => negb (PrimFloat.is_zero f || PrimFloat.is_nan f)
  | None => false
  end.

(** [x || y] *)
Definition js_or (x y : real) : real := if js_truthy x then x else y.

(** A number or null as an operand of [+], [-] or [*]: null counts 0. *)
Definition js_number (x : real) : float := default 0%float x.

(** [x || 0] *)
Definition js_or0 (x : real) : float :=
  if js_truthy x then js_number x else 0%float.

(** [if (id)] on a row id of the request body: null and 0 are falsy. *)
Definition truthy (x : ref) : bool :=
  match x with
  | Some v => negb (v =? 0)
  | None => false
  end.

(** A number in a JSON text ([JSON.stringify], [res.json]): NaN and the
    infinities are written null, and the negative zero is written 0. *)
Definition json_number (f : float) : real :=
  if PrimFloat.is_finite f
  then Some (if PrimFloat.is_zero f then 0%float else f)
  else None.

(** A numeric column of a row in a JSON text. *)
Definition json_real (x : real) : real := x ≫= json_number.

(** A numeric column that its JSON text gives back as it is: NULL, or a
    number that is finite and not the negative zero. *)
Definition writable (x : real) : bool :=
  match x with
  | Some f =>
      match json_number f with
      | Some g => PrimFloat.Leibniz.eqb f g
      | None => false
      end
  | None => true
  end.

(** ** Rows, one record per table of the schema (the key column apart) *)

Module User.
Record t := Make {
  username : text;
  password : text;
  role : text
}.
End User.

Module Product.
Record t := Make {
  name : text;
  category : text;
  brand : text;
  model : text;
  sku : text;
  price : real;
  cost : real;
  stock_quantity : real;
  opening_stock : real;
  min_stock_level : real;
  unit : text;
  notes : text;
  warehouse_id : ref;
  location : text
}.

(** [SET stock_quantity = q] *)
Definition set_stock_quantity (q : real) (p : t) : t :=
  Make (name p) (category p) (brand p) (model p) (sku p) (price p) (cost p)
       q (opening_stock p) (min_stock_level p) (unit p) (notes p)
       (warehouse_id p) (location p).

(** [SET cost = c] *)
Definition set_cost (c : real) (p : t) : t :=
  Make (name p) (category p) (brand p) (model p) (sku p) (price p) c
       (stock_quantity p) (opening_stock p) (min_stock_level p) (unit p)
       (notes p) (warehouse_id p) (location p).

(** The row in a JSON text. *)
Definition json (p : t) : t :=
  Make (name p) (category p) (brand p) (model p) (sku p)
       (json_real (price p)) (json_real (cost p))
       (json_real (stock_quantity p)) (json_real (opening_stock p))
       (json_real (min_stock_level p)) (unit p) (notes p) (warehouse_id p)
       (location p).

(** Every number of the row is written in JSON as it is. *)
Definition finite (p : t) : bool :=
  writable (price p) && writable (cost p) && writable (stock_quantity p) &&
  writable (opening_stock p) && writable (min_stock_level p).
End Product.

Module Warehouse.
Record t := Make {
  name : text;
  location : text;
  notes : text
}.
End Warehouse.

Module Customer.
Record t := Make {
  name : text;
  phone : text;
  email : text;
  address : text;
  opening_balance : real;
  balance : real;
  notes : text
}.

(** [SET balance = b] *)
Definition set_balance (b : real) (c : t) : t :=
  Make (name c) (phone c) (email c) (address c) (opening_balance c) b
       (notes c).

Definition json (c : t) : t :=
  Make (name c) (phone c) (email c) (address c)
       (json_real (opening_balance c)) (json_real (balance c)) (notes c).

(** Every number of the row is written in JSON as it is. *)
Definition finite (c : t) : bool :=
  writable (opening_balance c) && writable (balance c).
End Customer.

Module Supplier.
Record t := Make {
  name : text;
  contact_person : text;
  phone : text;
  email : text;
  balance : real;
  notes : text
}.

(** [SET balance = b] *)
Definition set_balance (b : real) (c : t) : t :=
  Make (name c) (contact_person c) (phone c) (email c) b (notes c).

Definition json (c : t) : t :=
  Make (name c) (contact_person c) (phone c) (email c)
       (json_real (balance c)) (notes c).

(** Every number of the row is written in JSON as it is. *)
Definition finite (c : t) : bool :=
  writable (balance c).
End Supplier.

Module Purchase.
Record t := Make {
  supplier_id : ref;
  user_id : ref;
  total_amount : real;
  payment_status : text;
  created_at : text
}.

Definition json (p : t) : t :=
  Make (supplier_id p) (user_id p) (json_real (total_amount p))
       (payment_status p) (created_at p).

(** Every number of the row is written in JSON as it is. *)
Definition finite (p : t) : bool :=
  writable (total_amount p).
End Purchase.

Module PurchaseItem.
Record t := Make {
  purchase_id : ref;
  product_id : ref;
  quantity : real;
  unit_cost : real;
  subtotal : real
}.

Definition json (i : t) : t :=
  Make (purchase_id i) (product_id i) (json_real (quantity i))
       (json_real (unit_cost i)) (json_real (subtotal i)).

(** Every number of the row is written in JSON as it is. *)
Definition finite (i : t) : bool :=
  writable (quantity i) && writable (unit_cost i) && writable (subtotal i).
End PurchaseItem.

Module SupplierTransaction.
Record t := Make {
  supplier_id : ref;
  type : text;
  amount : real;
  description : text;
  created_at : text
}.

Definition json (r : t) : t :=
  Make (supplier_id r) (type r) (json_real (amount r)) (description r)
       (created_at r).

(** Every number of the row is written in JSON as it is. *)
Definition finite (r : t) : bool :=
  writable (amount r).
End SupplierTransaction.

Module Sale.
Record t := Make {
  customer_id : ref;
  user_id : ref;
  total_amount : real;
  discount : real;
  payment_status : text;
  payment_method : text;
  created_at : text
}.

Definition json (r : t) : t :=
  Make (customer_id r) (user_id r) (json_real (total_amount r))
       (json_real (discount r)) (payment_status r) (payment_method r)
       (created_at r).

(** Every number of the row is written in JSON as it is. *)
Definition finite (r : t) : bool :=
  writable (total_amount r) && writable (discount r).
End Sale.

Module SaleItem.
Record t := Make {
  sale_id : ref;
  product_id : ref;
  quantity : real;
  unit_price : real;
  subtotal : real
}.

Definition json (i : t) : t :=
  Make (sale_id i) (product_id i) (json_real (quantity i))
       (json_real (unit_price i)) (json_real (subtotal i)).

(** Every number of the row is written in JSON as it is. *)
Definition finite (i : t) : bool :=
  writable (quantity i) && writable (unit_price i) && writable (subtotal i).
End SaleItem.

Module Transaction.
Record t := Make {
  customer_id : ref;
  type : text;
  amount : real;
  description : text;
  created_at : text
}.

Definition json (r : t) : t :=
  Make (customer_id r) (type r) (json_real (amount r)) (description r)
       (created_at r).

(** Every number of the row is written in JSON as it is. *)
Definition finite (r : t) : bool :=
  writable (amount r).
End Transaction.

Module Maintenance.
Record t := Make {
  customer_name : text;
  customer_phone : text;
  device_model : text;
  imei : text;
  device_condition : text;
  fault_description : text;
  symptoms : text;
  maintenance_type : text;
  cost : real;
  status : text;
  notes : text;
  next_maintenance_date : text;
  received_at : text;
  completed_at : text;
  user_id : ref
}.

Definition json (r : t) : t :=
  Make (customer_name r) (customer_phone r) (device_model r) (imei r)
       (device_condition r) (fault_description r) (symptoms r)
       (maintenance_type r) (json_real (cost r)) (status r) (notes r)
       (next_maintenance_date r) (received_at r) (completed_at r)
       (user_id r).

(** Every number of the row is written in JSON as it is. *)
Definition finite (r : t) : bool :=
  writable (cost r).
End Maintenance.

Module GeneralLedger.
Record t := Make {
  type : text;
  category : text;
  amount : real;
  description : text;
  created_at : text
}.

Definition json (r : t) : t :=
  Make (type r) (category r) (json_real (amount r)) (description r)
       (created_at r).

(** Every number of the row is written in JSON as it is. *)
Definition finite (r : t) : bool :=
  writable (amount r).
End GeneralLedger.

Module StockAdjustment.
Record t := Make {
  product_id : ref;
  type : text;
  quantity : real;
  reason : text;
  created_at : text
}.

Definition json (r : t) : t :=
  Make (product_id r) (type r) (json_real (quantity r)) (reason r)
       (created_at r).

(** Every number of the row is written in JSON as it is. *)
Definition finite (r : t) : bool :=
  writable (quantity r).
End StockAdjustment.

(** ** The database: the fifteen tables of the schema and the engine's
    AUTOINCREMENT bookkeeping *)

Record store := Store {
  users : gmap Z User.t;
  settings : gmap string text;
  products : gmap Z Product.t;
  warehouses : gmap Z Warehouse.t;
  suppliers : gmap Z Supplier.t;
  supplier_transactions : gmap Z SupplierTransaction.t;
  customers : gmap Z Customer.t;
  sales : gmap Z Sale.t;
  sale_items : gmap Z SaleItem.t;
  transactions : gmap Z Transaction.t;
  maintenance : gmap Z Maintenance.t;
  purchases : gmap Z Purchase.t;
  purchase_items : gmap Z PurchaseItem.t;
  general_ledger : gmap Z GeneralLedger.t;
  stock_adjustments : gmap Z StockAdjustment.t;
  sqlite_sequence : gmap string Z
}.

Definition set_users (v : gmap Z User.t) (s : store) : store :=
  {| users := v; settings := settings s; products := products s;
     warehouses := warehouses s; suppliers := suppliers s;
     supplier_transactions := supplier_transactions s;
     customers := customers s; sales := sales s; sale_items := sale_items s;
     transactions := transactions s; maintenance := maintenance s;
     purchases := purchases s; purchase_items := purchase_items s;
     general_ledger := general_ledger s;
     stock_adjustments := stock_adjustments s;
     sqlite_sequence := sqlite_sequence s |}.

Definition set_settings (v : gmap string text) (s : store) : store :=
  {| users := users s; settings := v; products := products s;
     warehouses := warehouses s; suppliers := suppliers s;
     supplier_transactions := supplier_transactions s;
     customers := customers s; sales := sales s; sale_items := sale_items s;
     transactions := transactions s; maintenance := maintenance s;
     purchases := purchases s; purchase_items := purchase_items s;
     general_ledger := general_ledger s;
     stock_adjustments := stock_adjustments s;
     sqlite_sequence := sqlite_sequence s |}.

Definition set_products (v : gmap Z Product.t) (s : store) : store :=
  {| users := users s; settings := settings s; products := v;
     warehouses := warehouses s; suppliers := suppliers s;
     supplier_transactions := supplier_transactions s;
     customers := customers s; sales := sales s; sale_items := sale_items s;
     transactions := transactions s; maintenance := maintenance s;
     purchases := purchases s; purchase_items := purchase_items s;
     general_ledger := general_ledger s;
     stock_adjustments := stock_adjustments s;
     sqlite_sequence := sqlite_sequence s |}.

Definition set_warehouses (v : gmap Z Warehouse.t) (s : store) : store :=
  {| users := users s; settings := settings s; products := products s;
     warehouses := v; suppliers := suppliers s;
     supplier_transactions := supplier_transactions s;
     customers := customers s; sales := sales s; sale_items := sale_items s;
     transactions := transactions s; maintenance := maintenance s;
     purchases := purchases s; purchase_items := purchase_items s;
     general_ledger := general_ledger s;
     stock_adjustments := stock_adjustments s;
     sqlite_sequence := sqlite_sequence s |}.

Definition set_suppliers (v : gmap Z Supplier.t) (s : store) : store :=
  {| users := users s; settings := settings s; products := products s;
     warehouses := warehouses s; suppliers := v;
     supplier_transactions := supplier_transactions s;
     customers := customers s; sales := sales s; sale_items := sale_items s;
     transactions := transactions s; maintenance := maintenance s;
     purchases := purchases s; purchase_items := purchase_items s;
     general_ledger := general_ledger s;
     stock_adjustments := stock_adjustments s;
     sqlite_sequence := sqlite_sequence s |}.

Definition set_supplier_transactions (v : gmap Z SupplierTransaction.t) (s : store) : store :=
  {| users := users s; settings := settings s; products := products s;
     warehouses := warehouses s; suppliers := suppliers s;
     supplier_transactions := v; customers := customers s; sales := sales s;
     sale_items := sale_items s; transactions := transactions s;
     maintenance := maintenance s; purchases := purchases s;
     purchase_items := purchase_items s; general_ledger := general_ledger s;
     stock_adjustments := stock_adjustments s;
     sqlite_sequence := sqlite_sequence s |}.

Definition set_customers (v : gmap Z Customer.t) (s : store) : store :=
  {| users := users s; settings := settings s; products := products s;
     warehouses := warehouses s; suppliers := suppliers s;
     supplier_transactions := supplier_transactions s; customers := v;
     sales := sales s; sale_items := sale_items s;
     transactions := transactions s; maintenance := maintenance s;
     purchases := purchases s; purchase_items := purchase_items s;
     general_ledger := general_ledger s;
     stock_adjustments := stock_adjustments s;
     sqlite_sequence := sqlite_sequence s |}.

Definition set_sales (v : gmap Z Sale.t) (s : store) : store :=
  {| users := users s; settings := settings s; products := products s;
     warehouses := warehouses s; suppliers := suppliers s;
     supplier_transactions := supplier_transactions s;
     customers := customers s; sales := v; sale_items := sale_items s;
     transactions := transactions s; maintenance := maintenance s;
     purchases := purchases s; purchase_items := purchase_items s;
     general_ledger := general_ledger s;
     stock_adjustments := stock_adjustments s;
     sqlite_sequence := sqlite_sequence s |}.

Definition set_sale_items (v : gmap Z SaleItem.t) (s : store) : store :=
  {| users := users s; settings := settings s; products := products s;
     warehouses := warehouses s; suppliers := suppliers s;
     supplier_transactions := supplier_transactions s;
     customers := customers s; sales := sales s; sale_items := v;
     transactions := transactions s; maintenance := maintenance s;
     purchases := purchases s; purchase_items := purchase_items s;
     general_ledger := general_ledger s;
     stock_adjustments := stock_adjustments s;
     sqlite_sequence := sqlite_sequence s |}.

Definition set_transactions (v : gmap Z Transaction.t) (s : store) : store :=
  {| users := users s; settings := settings s; products := products s;
     warehouses := warehouses s; suppliers := suppliers s;
     supplier_transactions := supplier_transactions s;
     customers := customers s; sales := sales s; sale_items := sale_items s;
     transactions := v; maintenance := maintenance s;
     purchases := purchases s; purchase_items := purchase_items s;
     general_ledger := general_ledger s;
     stock_adjustments := stock_adjustments s;
     sqlite_sequence := sqlite_sequence s |}.

Definition set_maintenance (v : gmap Z Maintenance.t) (s : store) : store :=
  {| users := users s; settings := settings s; products := products s;
     warehouses := warehouses s; suppliers := suppliers s;
     supplier_transactions := supplier_transactions s;
     customers := customers s; sales := sales s; sale_items := sale_items s;
     transactions := transactions s; maintenance := v;
     purchases := purchases s; purchase_items := purchase_items s;
     general_ledger := general_ledger s;
     stock_adjustments := stock_adjustments s;
     sqlite_sequence := sqlite_sequence s |}.

Definition set_purchases (v : gmap Z Purchase.t) (s : store) : store :=
  {| users := users s; settings := settings s; products := products s;
     warehouses := warehouses s; suppliers := suppliers s;
     supplier_transactions := supplier_transactions s;
     customers := customers s; sales := sales s; sale_items := sale_items s;
     transactions := transactions s; maintenance := maintenance s;
     purchases := v; purchase_items := purchase_items s;
     general_ledger := general_ledger s;
     stock_adjustments := stock_adjustments s;
     sqlite_sequence := sqlite_sequence s |}.

Definition set_purchase_items (v : gmap Z PurchaseItem.t) (s : store) : store :=
  {| users := users s; settings := settings s; products := products s;
     warehouses := warehouses s; suppliers := suppliers s;
     supplier_transactions := supplier_transactions s;
     customers := customers s; sales := sales s; sale_items := sale_items s;
     transactions := transactions s; maintenance := maintenance s;
     purchases := purchases s; purchase_items := v;
     general_ledger := general_ledger s;
     stock_adjustments := stock_adjustments s;
     sqlite_sequence := sqlite_sequence s |}.

Definition set_general_ledger (v : gmap Z GeneralLedger.t) (s : store) : store :=
  {| users := users s; settings := settings s; products := products s;
     warehouses := warehouses s; suppliers := suppliers s;
     supplier_transactions := supplier_transactions s;
     customers := customers s; sales := sales s; sale_items := sale_items s;
     transactions := transactions s; maintenance := maintenance s;
     purchases := purchases s; purchase_items := purchase_items s;
     general_ledger := v; stock_adjustments := stock_adjustments s;
     sqlite_sequence := sqlite_sequence s |}.

Definition set_stock_adjustments (v : gmap Z StockAdjustment.t) (s : store) : store :=
  {| users := users s; settings := settings s; products := products s;
     warehouses := warehouses s; suppliers := suppliers s;
     supplier_transactions := supplier_transactions s;
     customers := customers s; sales := sales s; sale_items := sale_items s;
     transactions := transactions s; maintenance := maintenance s;
     purchases := purchases s; purchase_items := purchase_items s;
     general_ledger := general_ledger s; stock_adjustments := v;
     sqlite_sequence := sqlite_sequence s |}.

Definition set_sqlite_sequence (v : gmap string Z) (s : store) : store :=
  {| users := users s; settings := settings s; products := products s;
     warehouses := warehouses s; suppliers := suppliers s;
     supplier_transactions := supplier_transactions s;
     customers := customers s; sales := sales s; sale_items := sale_items s;
     transactions := transactions s; maintenance := maintenance s;
     purchases := purchases s; purchase_items := purchase_items s;
     general_ledger := general_ledger s;
     stock_adjustments := stock_adjustments s; sqlite_sequence := v |}.

Definition empty_store : store :=
  Store ∅ ∅ ∅ ∅ ∅ ∅ ∅ ∅ ∅ ∅ ∅ ∅ ∅ ∅ ∅ ∅.

(** ** The world a handler runs in, and the monad of handler code *)

(** The constraint that a refused statement names
    (SQLITE_CONSTRAINT_CHECK and the like). *)
Inductive constraint := CHECK | UNIQUE | PRIMARY_KEY | FOREIGN_KEY.

Inductive error :=
  | SqliteConstraint (c : constraint)
  | SqliteFault        (* any other failure of the engine *)
  | NotIterable.       (* TypeError: items is not iterable *)

Inductive outcome (A : Type) :=
  | Ok (a : A)
  | Throw (e : error).
Arguments Ok {A} a.
Arguments Throw {A} e.

(** [pending] lists, statement by statement, whether the engine is going to
    raise on the next statements it executes; [now] is what
    CURRENT_TIMESTAMP evaluates to; [summation] is how the engine sums the
    doubles of a SUM, given in the order of the scan. *)
Record world := World {
  db : store;
  pending : list bool;
  now : string;
  summation : list float → float
}.

Definition M (A : Type) : Type := world → world * outcome A.

Definition ret {A} (a : A) : M A := λ w, (w, Ok a).

Definition throw {A} (e : error) : M A := λ w, (w, Throw e).

Definition bind {A B} (m : M A) (k : A → M B) : M B := λ w,
  match m w with
  | (w', Ok a) => k a w'
  | (w', Throw e) => (w', Throw e)
  end.

Notation "'let*' x ':=' m 'in' k" := (bind m (λ x, k))
  (at level 10, x name, m at level 100, k at level 200).

(** [try { m } catch (e) { handler e }] *)
Definition try_catch {A} (m : M A) (handler : error → M A) : M A := λ w,
  match m w with
  | (w', Ok a) => (w', Ok a)
  | (w', Throw e) => handler e w'
  end.

(** [db.transaction(fn)()]: commit when [fn] returns, roll every table back
    (the engine's own [sqlite_sequence] too) and rethrow when it throws.
    BEGIN, COMMIT and ROLLBACK themselves are taken to succeed. *)
Definition transaction {A} (fn : M A) : M A := λ w,
  match fn w with
  | (w', Ok a) => (w', Ok a)
  | (w', Throw e) =>
      (World (db w) (pending w') (now w') (summation w'), Throw e)
  end.

(** [for (const x of xs) body(x)] and [xs.forEach(body)] *)
Fixpoint for_each {A} (xs : list A) (body : A → M unit) : M unit :=
  match xs with
  | [] => ret tt
  | x :: rest => let* _ := body x in for_each rest body
  end.

(** [for (const x of xs)] where [xs] comes from the request body and may be
    missing: iterating [undefined] throws a TypeError. *)
Definition for_of {A} (xs : option (list A)) (body : A → M unit) : M unit :=
  match xs with
  | Some l => for_each l body
  | None => throw NotIterable
  end.

(** ** The engine: one executed statement *)

Definition engine {A} (stmt : world → store * outcome A) : M A :=
  λ w,
  match pending w with
  | true :: rest =>
      (World (db w) rest (now w) (summation w), Throw SqliteFault)
  | _ =>
      let '(s, r) := stmt w in
      (World s (tail (pending w)) (now w) (summation w), r)
  end.

(** A table as the statements see it: where its rows live in the store, the
    CHECK constraint of its rows, which pairs of rows a UNIQUE column
    forbids, what an explicit key does to [sqlite_sequence], and its part
    in the FOREIGN KEY constraints: [parents r s] holds when every
    reference of the row [r] is NULL or names a stored row, [free s k]
    when no stored row of another table refers to the key [k]. *)
Record tbl (K R : Type) `{Countable K} := Tbl {
  tname : string;
  rows : store → gmap K R;
  set_rows : gmap K R → store → store;
  check : R → bool;
  conflict : R → R → bool;
  note_key : K → store → store;
  parents : R → store → bool;
  free : store → K → bool
}.
Arguments Tbl {K R _ _} _ _ _ _ _ _ _ _.
Arguments tname {K R _ _} _.
Arguments rows {K R _ _} _ _.
Arguments set_rows {K R _ _} _ _ _.
Arguments check {K R _ _} _ _.
Arguments conflict {K R _ _} _ _ _.
Arguments note_key {K R _ _} _ _ _.
Arguments parents {K R _ _} _ _ _.
Arguments free {K R _ _} _ _ _.

Definition seq_of (name : string) (s : store) : Z :=
  default 0 (sqlite_sequence s !! name).

Definition set_seq (name : string) (v : Z) (s : store) : store :=
  set_sqlite_sequence (<[name := v]> (sqlite_sequence s)) s.

(** AUTOINCREMENT remembers the largest key the table ever held. *)
Definition autoincrement (name : string) (k : Z) (s : store) : store :=
  set_seq name (Z.max (seq_of name s) k) s.

Definition max_key {R} (m : gmap Z R) : Z :=
  map_fold (λ k _ acc, Z.max k acc) 0 m.

(** The key AUTOINCREMENT gives to the next row. *)
Definition next_key {R} (T : tbl Z R) (s : store) : Z :=
  Z.max (seq_of (tname T) s) (max_key (rows T s)) + 1.

(** The row passes its CHECK and clashes with no stored row. *)
Definition admits {K R} `{Countable K} (T : tbl K R) (r : R)
    (m : gmap K R) : bool :=
  check T r && bool_decide (map_Forall (λ _ r', conflict T r r' = false) m).

(** The constraint that refuses the row [r] of [T] beside the rows [m],
    if one does: the CHECK, then the key when the row brings one that is
    taken, then UNIQUE, then the foreign keys. *)
Definition refusal {K R} `{Countable K} (T : tbl K R) (taken : bool)
    (r : R) (m : gmap K R) (s : store) : option constraint :=
  if negb (check T r) then Some CHECK
  else if taken then Some PRIMARY_KEY
  else if negb (admits T r m) then Some UNIQUE
  else if negb (parents T r s) then Some FOREIGN_KEY
  else None.

Definition refuse {A} (c : constraint) : outcome A :=
  Throw (SqliteConstraint c).

(** [INSERT INTO T (...) VALUES (...)] without a key; [row] receives the
    value of CURRENT_TIMESTAMP; the result is [lastInsertRowid]. *)
Definition sql_insert {R} (T : tbl Z R) (row : string → R) : M Z :=
  engine (λ w,
    let s := db w in
    let r := row (now w) in
    let k := next_key T s in
    match refusal T false r (rows T s) s with
    | Some c => (s, refuse c)
    | None =>
        (set_seq (tname T) k (set_rows T (<[k := r]> (rows T s)) s), Ok k)
    end).

(** [INSERT INTO T (...) VALUES (...)] of a row that brings its key. *)
Definition sql_insert_row {K R} `{Countable K} (T : tbl K R) (k : K)
    (r : R) : M unit :=
  engine (λ w,
    let s := db w in
    match refusal T (bool_decide (is_Some (rows T s !! k))) r (rows T s) s
    with
    | Some c => (s, refuse c)
    | None => (note_key T k (set_rows T (<[k := r]> (rows T s)) s), Ok tt)
    end).

(** [UPDATE T SET ... WHERE ...] on columns no constraint mentions. *)
Definition sql_update {K R} `{Countable K} (T : tbl K R)
    (f : gmap K R → gmap K R) : M unit :=
  engine (λ w, (set_rows T (f (rows T (db w))) (db w), Ok tt)).

(** [DELETE FROM T]: refused while a row of another table refers to one of
    the rows. *)
Definition sql_delete_all {K R} `{Countable K} (T : tbl K R) : M unit :=
  engine (λ w,
    let s := db w in
    if bool_decide (map_Forall (λ k _, free T s k = true) (rows T s))
    then (set_rows T ∅ s, Ok tt)
    else (s, refuse FOREIGN_KEY)).

(** [SELECT ...] *)
Definition sql_select {A} (q : store → A) : M A :=
  engine (λ w, (db w, Ok (q (db w)))).

(** The rows of a table in the order of a scan: by ascending key. *)
Definition key_le {K R} (le : K → K → Prop) (x y : K * R) : Prop :=
  le x.1 y.1.

#[local] Instance key_le_dec {K R} (le : K → K → Prop)
    `{!RelDecision le} : RelDecision (@key_le K R le).
Proof. intros x y. unfold key_le. apply _. Defined.

Definition scan {R} (m : gmap Z R) : list (Z * R) :=
  merge_sort (key_le Z.le) (map_to_list m).

(** ** The schema *)

Definition one_of (allowed : list string) (x : text) : bool :=
  match x with
  | Some v => existsb (String.eqb v) allowed
  | None => true     (* a CHECK passes on NULL *)
  end.

(** Two values of a UNIQUE column clash; NULL clashes with nothing. *)
Definition same_text (x y : text) : bool :=
  match x, y with
  | Some a, Some b => String.eqb a b
  | _, _ => false
  end.

Definition no_check {R} (_ : R) : bool := true.
Definition no_unique {R} (_ _ : R) : bool := false.
Definition no_parent {R} (_ : R) (_ : store) : bool := true.
Definition no_child {K} (_ : store) (_ : K) : bool := true.

(** [FOREIGN KEY(col) REFERENCES parent(id)] on a row whose [col] is [x]. *)
Definition has {R} (parent : gmap Z R) (x : ref) : bool :=
  match x with
  | Some k => bool_decide (is_Some (parent !! k))
  | None => true
  end.

(** No row of [child] holds [k] in its column [col]. *)
Definition unnamed {R} (col : R → ref) (child : gmap Z R) (k : Z) : bool :=
  bool_decide (map_Forall (λ _ r, col r ≠ Some k) child).

Definition t_users : tbl Z User.t :=
  Tbl "users" users set_users
    (λ r, one_of ["admin"; "accountant"; "engineer"] (User.role r))
    (λ r r', same_text (User.username r) (User.username r'))
    (autoincrement "users")
    no_parent
    (λ s k, unnamed Purchase.user_id (purchases s) k
            && unnamed Sale.user_id (sales s) k
            && unnamed Maintenance.user_id (maintenance s) k).

Definition t_settings : tbl string text :=
  Tbl "settings" settings set_settings no_check no_unique (λ _ s, s)
    no_parent no_child.

Definition t_products : tbl Z Product.t :=
  Tbl "products" products set_products no_check
    (λ r r', same_text (Product.sku r) (Product.sku r'))
    (autoincrement "products")
    no_parent
    (λ s k, unnamed PurchaseItem.product_id (purchase_items s) k
            && unnamed SaleItem.product_id (sale_items s) k
            && unnamed StockAdjustment.product_id (stock_adjustments s) k).

Definition t_warehouses : tbl Z Warehouse.t :=
  Tbl "warehouses" warehouses set_warehouses no_check no_unique
    (autoincrement "warehouses") no_parent no_child.

Definition t_suppliers : tbl Z Supplier.t :=
  Tbl "suppliers" suppliers set_suppliers no_check no_unique
    (autoincrement "suppliers")
    no_parent
    (λ s k, unnamed Purchase.supplier_id (purchases s) k
            && unnamed SupplierTransaction.supplier_id
                 (supplier_transactions s) k).

Definition t_supplier_transactions : tbl Z SupplierTransaction.t :=
  Tbl "supplier_transactions" supplier_transactions
    set_supplier_transactions
    (λ r, one_of ["purchase"; "payment"] (SupplierTransaction.type r))
    no_unique (autoincrement "supplier_transactions")
    (λ r s, has (suppliers s) (SupplierTransaction.supplier_id r))
    no_child.

Definition t_customers : tbl Z Customer.t :=
  Tbl "customers" customers set_customers no_check no_unique
    (autoincrement "customers")
    no_parent
    (λ s k, unnamed Sale.customer_id (sales s) k
            && unnamed Transaction.customer_id (transactions s) k).

Definition t_sales : tbl Z Sale.t :=
  Tbl "sales" sales set_sales
    (λ r, one_of ["paid"; "partial"; "unpaid"] (Sale.payment_status r))
    no_unique (autoincrement "sales")
    (λ r s, has (customers s) (Sale.customer_id r)
            && has (users s) (Sale.user_id r))
    (λ s k, unnamed SaleItem.sale_id (sale_items s) k).

Definition t_sale_items : tbl Z SaleItem.t :=
  Tbl "sale_items" sale_items set_sale_items no_check no_unique
    (autoincrement "sale_items")
    (λ r s, has (sales s) (SaleItem.sale_id r)
            && has (products s) (SaleItem.product_id r))
    no_child.

Definition t_transactions : tbl Z Transaction.t :=
  Tbl "transactions" transactions set_transactions
    (λ r, one_of ["sale"; "payment"] (Transaction.type r))
    no_unique (autoincrement "transactions")
    (λ r s, has (customers s) (Transaction.customer_id r))
    no_child.

Definition t_maintenance : tbl Z Maintenance.t :=
  Tbl "maintenance" maintenance set_maintenance no_check no_unique
    (autoincrement "maintenance")
    (λ r s, has (users s) (Maintenance.user_id r))
    no_child.

Definition t_purchases : tbl Z Purchase.t :=
  Tbl "purchases" purchases set_purchases
    (λ r, one_of ["paid"; "partial"; "unpaid"] (Purchase.payment_status r))
    no_unique (autoincrement "purchases")
    (λ r s, has (suppliers s) (Purchase.supplier_id r)
            && has (users s) (Purchase.user_id r))
    (λ s k, unnamed PurchaseItem.purchase_id (purchase_items s) k).

Definition t_purchase_items : tbl Z PurchaseItem.t :=
  Tbl "purchase_items" purchase_items set_purchase_items no_check no_unique
    (autoincrement "purchase_items")
    (λ r s, has (purchases s) (PurchaseItem.purchase_id r)
            && has (products s) (PurchaseItem.product_id r))
    no_child.

Definition t_general_ledger : tbl Z GeneralLedger.t :=
  Tbl "general_ledger" general_ledger set_general_ledger
    (λ r, one_of ["revenue"; "expense"] (GeneralLedger.type r))
    no_unique (autoincrement "general_ledger") no_parent no_child.

Definition t_stock_adjustments : tbl Z StockAdjustment.t :=
  Tbl "stock_adjustments" stock_adjustments set_stock_adjustments
    (λ r, one_of ["damaged"; "correction"; "lost"] (StockAdjustment.type r))
    no_unique (autoincrement "stock_adjustments")
    (λ r s, has (products s) (StockAdjustment.product_id r))
    no_child.

(** ** Balance recalculation *)

(** [CASE WHEN type = kind THEN amount ELSE 0 END] *)
Definition case_type (kind : string) (type : text) (amount : real) : real :=
  if decide (type = Some kind) then amount else Some 0%float.

(** [WHERE col = ?]: a NULL on either side matches nothing. *)
Definition sql_eq (col param : ref) : bool :=
  match col, param with
  | Some a, Some b => a =? b
  | _, _ => false
  end.

(** [UPDATE ... WHERE id = ?] *)
Definition where_id {R} (id : ref) (f : R → R) (m : gmap Z R) : gmap Z R :=
  match id with
  | Some k => alter f k m
  | None => m
  end.

(** [SELECT SUM(CASE ...), SUM(CASE ...) FROM log WHERE party = ?], with the
    two kinds of the log, on the selected rows in the order of the scan. *)
Definition sql_sums {R} (summation : list float → float)
    (type : R → text) (amount : R → real) (plus minus : string)
    (selected : list (Z * R)) : real * real :=
  (sql_sum summation
     ((λ kr, case_type plus (type kr.2) (amount kr.2)) <$> selected),
   sql_sum summation
     ((λ kr, case_type minus (type kr.2) (amount kr.2)) <$> selected)).

(** A [SELECT] with aggregates: the engine sums. *)
Definition sql_select_sum {A} (q : (list float → float) → store → A)
    : M A :=
  engine (λ w, (db w, Ok (q (summation w) (db w)))).

Definition updateCustomerBalance (customerId : ref) : M unit :=
  let* stats := sql_select_sum (λ summation s,
    sql_sums summation Transaction.type Transaction.amount "sale" "payment"
      (filter (λ kr, sql_eq (Transaction.customer_id kr.2) customerId = true)
              (scan (transactions s)))) in
  let balance := PrimFloat.sub (js_or0 stats.1) (js_or0 stats.2) in
  sql_update t_customers
    (where_id customerId (Customer.set_balance (sql_real balance))).

Definition updateSupplierBalance (supplierId : ref) : M unit :=
  let* stats := sql_select_sum (λ summation s,
    sql_sums summation SupplierTransaction.type SupplierTransaction.amount
      "purchase" "payment"
      (filter (λ kr, sql_eq (SupplierTransaction.supplier_id kr.2) supplierId
                     = true)
              (scan (supplier_transactions s)))) in
  let balance := PrimFloat.sub (js_or0 stats.1) (js_or0 stats.2) in
  sql_update t_suppliers
    (where_id supplierId (Supplier.set_balance (sql_real balance))).

(** ** Requests and responses *)

(** An element of [items] in the body of POST /api/sales. *)
Module SaleLine.
Record t := Make {
  product_id : ref;
  quantity : real;
  unit_price : real;
  subtotal : real
}.
End SaleLine.

(** An element of [items] in the body of POST /api/purchases. *)
Module PurchaseLine.
Record t := Make {
  product_id : ref;
  quantity : real;
  unit_cost : real;
  subtotal : real
}.
End PurchaseLine.

(** An entry in a JSON text, [f] being what becomes of a row. *)
Definition entry_json {R} (f : R → R) (entry : option (list (Z * R)))
    : option (list (Z * R)) :=
  (λ l : list (Z * R), (λ kr : Z * R, (kr.1, f kr.2)) <$> l) <$> entry.

(** A snapshot: for each table, its rows with their keys, or no entry. *)
Module Backup.
Record t := Make {
  users : option (list (Z * User.t));
  settings : option (list (string * text));
  products : option (list (Z * Product.t));
  warehouses : option (list (Z * Warehouse.t));
  suppliers : option (list (Z * Supplier.t));
  supplier_transactions : option (list (Z * SupplierTransaction.t));
  customers : option (list (Z * Customer.t));
  sales : option (list (Z * Sale.t));
  sale_items : option (list (Z * SaleItem.t));
  transactions : option (list (Z * Transaction.t));
  maintenance : option (list (Z * Maintenance.t));
  purchases : option (list (Z * Purchase.t));
  purchase_items : option (list (Z * PurchaseItem.t));
  general_ledger : option (list (Z * GeneralLedger.t));
  stock_adjustments : option (list (Z * StockAdjustment.t))
}.

(** [{}] *)
Definition empty : t :=
  Make None None None None None None None None None None None None None None
       None.

Definition set_users (v : list (Z * User.t)) (b : t) : t :=
  Make (Some v) (settings b) (products b) (warehouses b) (suppliers b)
       (supplier_transactions b) (customers b) (sales b) (sale_items b)
       (transactions b) (maintenance b) (purchases b) (purchase_items b)
       (general_ledger b) (stock_adjustments b).

Definition set_settings (v : list (string * text)) (b : t) : t :=
  Make (users b) (Some v) (products b) (warehouses b) (suppliers b)
       (supplier_transactions b) (customers b) (sales b) (sale_items b)
       (transactions b) (maintenance b) (purchases b) (purchase_items b)
       (general_ledger b) (stock_adjustments b).

Definition set_products (v : list (Z * Product.t)) (b : t) : t :=
  Make (users b) (settings b) (Some v) (warehouses b) (suppliers b)
       (supplier_transactions b) (customers b) (sales b) (sale_items b)
       (transactions b) (maintenance b) (purchases b) (purchase_items b)
       (general_ledger b) (stock_adjustments b).

Definition set_warehouses (v : list (Z * Warehouse.t)) (b : t) : t :=
  Make (users b) (settings b) (products b) (Some v) (suppliers b)
       (supplier_transactions b) (customers b) (sales b) (sale_items b)
       (transactions b) (maintenance b) (purchases b) (purchase_items b)
       (general_ledger b) (stock_adjustments b).

Definition set_suppliers (v : list (Z * Supplier.t)) (b : t) : t :=
  Make (users b) (settings b) (products b) (warehouses b) (Some v)
       (supplier_transactions b) (customers b) (sales b) (sale_items b)
       (transactions b) (maintenance b) (purchases b) (purchase_items b)
       (general_ledger b) (stock_adjustments b).

Definition set_supplier_transactions (v : list (Z * SupplierTransaction.t)) (b : t) : t :=
  Make (users b) (settings b) (products b) (warehouses b) (suppliers b)
       (Some v) (customers b) (sales b) (sale_items b) (transactions b)
       (maintenance b) (purchases b) (purchase_items b) (general_ledger b)
       (stock_adjustments b).

Definition set_customers (v : list (Z * Customer.t)) (b : t) : t :=
  Make (users b) (settings b) (products b) (warehouses b) (suppliers b)
       (supplier_transactions b) (Some v) (sales b) (sale_items b)
       (transactions b) (maintenance b) (purchases b) (purchase_items b)
       (general_ledger b) (stock_adjustments b).

Definition set_sales (v : list (Z * Sale.t)) (b : t) : t :=
  Make (users b) (settings b) (products b) (warehouses b) (suppliers b)
       (supplier_transactions b) (customers b) (Some v) (sale_items b)
       (transactions b) (maintenance b) (purchases b) (purchase_items b)
       (general_ledger b) (stock_adjustments b).

Definition set_sale_items (v : list (Z * SaleItem.t)) (b : t) : t :=
  Make (users b) (settings b) (products b) (warehouses b) (suppliers b)
       (supplier_transactions b) (customers b) (sales b) (Some v)
       (transactions b) (maintenance b) (purchases b) (purchase_items b)
       (general_ledger b) (stock_adjustments b).

Definition set_transactions (v : list (Z * Transaction.t)) (b : t) : t :=
  Make (users b) (settings b) (products b) (warehouses b) (suppliers b)
       (supplier_transactions b) (customers b) (sales b) (sale_items b)
       (Some v) (maintenance b) (purchases b) (purchase_items b)
       (general_ledger b) (stock_adjustments b).

Definition set_maintenance (v : list (Z * Maintenance.t)) (b : t) : t :=
  Make (users b) (settings b) (products b) (warehouses b) (suppliers b)
       (supplier_transactions b) (customers b) (sales b) (sale_items b)
       (transactions b) (Some v) (purchases b) (purchase_items b)
       (general_ledger b) (stock_adjustments b).

Definition set_purchases (v : list (Z * Purchase.t)) (b : t) : t :=
  Make (users b) (settings b) (products b) (warehouses b) (suppliers b)
       (supplier_transactions b) (customers b) (sales b) (sale_items b)
       (transactions b) (maintenance b) (Some v) (purchase_items b)
       (general_ledger b) (stock_adjustments b).

Definition set_purchase_items (v : list (Z * PurchaseItem.t)) (b : t) : t :=
  Make (users b) (settings b) (products b) (warehouses b) (suppliers b)
       (supplier_transactions b) (customers b) (sales b) (sale_items b)
       (transactions b) (maintenance b) (purchases b) (Some v)
       (general_ledger b) (stock_adjustments b).

Definition set_general_ledger (v : list (Z * GeneralLedger.t)) (b : t) : t :=
  Make (users b) (settings b) (products b) (warehouses b) (suppliers b)
       (supplier_transactions b) (customers b) (sales b) (sale_items b)
       (transactions b) (maintenance b) (purchases b) (purchase_items b)
       (Some v) (stock_adjustments b).

Definition set_stock_adjustments (v : list (Z * StockAdjustment.t)) (b : t) : t :=
  Make (users b) (settings b) (products b) (warehouses b) (suppliers b)
       (supplier_transactions b) (customers b) (sales b) (sale_items b)
       (transactions b) (maintenance b) (purchases b) (purchase_items b)
       (general_ledger b) (Some v).
(** The snapshot in a JSON text. *)
Definition json (b : t) : t :=
  Make (users b) (settings b)
       (entry_json Product.json (products b))
       (warehouses b)
       (entry_json Supplier.json (suppliers b))
       (entry_json SupplierTransaction.json (supplier_transactions b))
       (entry_json Customer.json (customers b))
       (entry_json Sale.json (sales b))
       (entry_json SaleItem.json (sale_items b))
       (entry_json Transaction.json (transactions b))
       (entry_json Maintenance.json (maintenance b))
       (entry_json Purchase.json (purchases b))
       (entry_json PurchaseItem.json (purchase_items b))
       (entry_json GeneralLedger.json (general_ledger b))
       (entry_json StockAdjustment.json (stock_adjustments b)).

End Backup.

Inductive body :=
  | Id (id : Z)
  | Success
  | Failure (error : string)
  | Raised (e : error)      (* [{ error: e.message }] *)
  | Snapshot (backup : Backup.t)
  | Unhandled.

Record response := Response {
  status : Z;
  payload : body
}.

(** The body as its JSON text carries it. *)
Definition text_of (x : body) : body :=
  match x with
  | Snapshot b => Snapshot (Backup.json b)
  | _ => x
  end.

(** [res.json(x)] *)
Definition json (x : body) : response := Response 200 (text_of x).

(** [res.status(code).json({ error: e.message })] *)
Definition json_error (code : Z) (e : error) : response :=
  Response code (Raised e).

(** A handler without [try]: the exception reaches the framework, which
    answers 500. *)
Definition express {A} (handler : M A) (reply : A → response) : M response :=
  try_catch (let* a := handler in ret (reply a))
            (λ _, ret (Response 500 Unhandled)).

(** ** Handlers *)

(** The body of [for (const item of items)] in POST /api/sales. *)
Definition sale_line (saleId : Z) (item : SaleLine.t) : M unit :=
  let* _ := sql_insert t_sale_items (λ _,
    SaleItem.Make (Some saleId) (SaleLine.product_id item)
      (SaleLine.quantity item) (SaleLine.unit_price item)
      (SaleLine.subtotal item)) in
  sql_update t_products
    (where_id (SaleLine.product_id item)
       (λ p, Product.set_stock_quantity
               (sql_sub (Product.stock_quantity p) (SaleLine.quantity item))
               p)).

(** The function given to [db.transaction] in POST /api/sales. *)
Definition sale_unit (customer_id user_id : ref)
    (total_amount discount : real) (payment_status payment_method : text)
    (items : option (list SaleLine.t)) : M Z :=
  let* saleId := sql_insert t_sales (λ ts,
    Sale.Make customer_id user_id total_amount discount payment_status
              payment_method (Some ts)) in
  let* _ :=
    if truthy customer_id then
      let* _ := sql_insert t_transactions (λ ts,
        Transaction.Make customer_id (Some "sale") total_amount
          (Some ("Sale #" +:+ pretty saleId)) (Some ts)) in
      let* _ :=
        if decide (payment_status = Some "paid") then
          let* _ := sql_insert t_transactions (λ ts,
            Transaction.Make customer_id (Some "payment") total_amount
              (Some ("Payment for Sale #" +:+ pretty saleId)) (Some ts)) in
          ret tt
        else ret tt in
      updateCustomerBalance customer_id
    else ret tt in
  let* _ := for_of items (sale_line saleId) in
  ret saleId.

(** POST /api/sales *)
Definition post_sales (customer_id user_id : ref)
    (total_amount discount : real) (payment_status payment_method : text)
    (items : option (list SaleLine.t)) : M response :=
  try_catch
    (let* id := transaction
       (sale_unit customer_id user_id total_amount discount payment_status
          payment_method items) in
     ret (json (Id id)))
    (λ e, ret (json_error 400 e)).

(** POST /api/customers *)
Definition post_customers (name phone email address : text)
    (opening_balance : real) (notes : text) : M response :=
  express
    (sql_insert t_customers (λ _,
       Customer.Make name phone email address opening_balance
         opening_balance notes))
    (λ id, json (Id id)).

(** POST /api/payments *)
Definition post_payments (customer_id : ref) (amount : real)
    (description : text) : M response :=
  express
    (let* id := sql_insert t_transactions (λ ts,
       Transaction.Make customer_id (Some "payment") amount description
         (Some ts)) in
     let* _ := updateCustomerBalance customer_id in
     ret id)
    (λ id, json (Id id)).

(** POST /api/suppliers: [balance] takes its DEFAULT 0. *)
Definition post_suppliers (name contact_person phone email notes : text)
    : M response :=
  express
    (sql_insert t_suppliers (λ _,
       Supplier.Make name contact_person phone email (Some 0%float) notes))
    (λ id, json (Id id)).

(** POST /api/products; [opening_stock || stock_quantity]. *)
Definition post_products (name category brand model sku : text)
    (price cost stock_quantity opening_stock min_stock_level : real)
    (unit notes : text) (warehouse_id : ref) (location : text)
    : M response :=
  try_catch
    (let* id := sql_insert t_products (λ _,
       Product.Make name category brand model sku price cost stock_quantity
         (js_or opening_stock stock_quantity) min_stock_level unit notes
         warehouse_id location) in
     ret (json (Id id)))
    (λ e, ret (json_error 400 e)).

(** The body of [for (const item of items)] in POST /api/purchases. *)
Definition purchase_line (purchaseId : Z) (item : PurchaseLine.t) : M unit :=
  let* _ := sql_insert t_purchase_items (λ _,
    PurchaseItem.Make (Some purchaseId) (PurchaseLine.product_id item)
      (PurchaseLine.quantity item) (PurchaseLine.unit_cost item)
      (PurchaseLine.subtotal item)) in
  sql_update t_products
    (where_id (PurchaseLine.product_id item)
       (λ p, Product.set_cost (PurchaseLine.unit_cost item)
               (Product.set_stock_quantity
                  (sql_add (Product.stock_quantity p)
                     (PurchaseLine.quantity item)) p))).

(** The function given to [db.transaction] in POST /api/purchases. *)
Definition purchase_unit (supplier_id user_id : ref) (total_amount : real)
    (payment_status : text) (items : option (list PurchaseLine.t)) : M Z :=
  let* purchaseId := sql_insert t_purchases (λ ts,
    Purchase.Make supplier_id user_id total_amount payment_status
      (Some ts)) in
  let* _ := sql_insert t_supplier_transactions (λ ts,
    SupplierTransaction.Make supplier_id (Some "purchase") total_amount
      (Some ("Purchase #" +:+ pretty purchaseId)) (Some ts)) in
  let* _ :=
    if decide (payment_status = Some "paid") then
      let* _ := sql_insert t_supplier_transactions (λ ts,
        SupplierTransaction.Make supplier_id (Some "payment") total_amount
          (Some ("Payment for Purchase #" +:+ pretty purchaseId))
          (Some ts)) in
      ret tt
    else ret tt in
  let* _ := updateSupplierBalance supplier_id in
  let* _ := for_of items (purchase_line purchaseId) in
  ret purchaseId.

(** POST /api/purchases *)
Definition post_purchases (supplier_id user_id : ref) (total_amount : real)
    (payment_status : text) (items : option (list PurchaseLine.t))
    : M response :=
  try_catch
    (let* id := transaction
       (purchase_unit supplier_id user_id total_amount payment_status
          items) in
     ret (json (Id id)))
    (λ e, ret (json_error 400 e)).

(** [description || 'Payment to supplier']: null and the empty string are
    falsy. *)
Definition or_default (description : text) : text :=
  match description with
  | Some d => if String.eqb d "" then Some "Payment to supplier" else Some d
  | None => Some "Payment to supplier"
  end.

(** POST /api/supplier-payments *)
Definition post_supplier_payments (supplier_id : ref) (amount : real)
    (description : text) : M response :=
  try_catch
    (let* _ := sql_insert t_supplier_transactions (λ ts,
       SupplierTransaction.Make supplier_id (Some "payment") amount
         (or_default description) (Some ts)) in
     let* _ := updateSupplierBalance supplier_id in
     ret (json Success))
    (λ e, ret (json_error 400 e)).

(** POST /api/ledger *)
Definition post_ledger (type category : text) (amount : real)
    (description : text) : M response :=
  try_catch
    (let* id := sql_insert t_general_ledger (λ ts,
       GeneralLedger.Make type category amount description (Some ts)) in
     ret (json (Id id)))
    (λ e, ret (json_error 400 e)).

(** The function given to [db.transaction] in POST /api/stock-adjustments. *)
Definition adjustment_unit (product_id : ref) (type : text)
    (quantity : real) (reason : text) : M unit :=
  let* _ := sql_insert t_stock_adjustments (λ ts,
    StockAdjustment.Make product_id type quantity reason (Some ts)) in
  sql_update t_products
    (where_id product_id
       (λ p, Product.set_stock_quantity
               (sql_sub (Product.stock_quantity p) quantity) p)).

(** POST /api/stock-adjustments *)
Definition post_stock_adjustments (product_id : ref) (type : text)
    (quantity : real) (reason : text) : M response :=
  try_catch
    (let* _ := transaction
       (adjustment_unit product_id type quantity reason) in
     ret (json Success))
    (λ e, ret (json_error 400 e)).

(** ** Backup and restore *)

Definition TABLES : list string :=
  ["users"; "settings"; "products"; "warehouses"; "suppliers";
   "supplier_transactions"; "customers"; "sales"; "sale_items";
   "transactions"; "maintenance"; "purchases"; "purchase_items";
   "general_ledger"; "stock_adjustments"].

(** [TABLES] holds the names of tables of the schema only; the branch for
    another name is never taken. *)
Definition no_such_table {A} : M A := throw SqliteFault.

(** [backup[table] = db.prepare(`SELECT * FROM ${table}`).all()] *)
Definition export_table (table : string) (backup : Backup.t)
    : M Backup.t :=
  match table with
  | "users" =>
      let* l := sql_select (λ s, scan (users s)) in
      ret (Backup.set_users l backup)
  | "settings" =>
      let* l := sql_select (λ s, map_to_list (settings s)) in
      ret (Backup.set_settings l backup)
  | "products" =>
      let* l := sql_select (λ s, scan (products s)) in
      ret (Backup.set_products l backup)
  | "warehouses" =>
      let* l := sql_select (λ s, scan (warehouses s)) in
      ret (Backup.set_warehouses l backup)
  | "suppliers" =>
      let* l := sql_select (λ s, scan (suppliers s)) in
      ret (Backup.set_suppliers l backup)
  | "supplier_transactions" =>
      let* l := sql_select (λ s, scan (supplier_transactions s)) in
      ret (Backup.set_supplier_transactions l backup)
  | "customers" =>
      let* l := sql_select (λ s, scan (customers s)) in
      ret (Backup.set_customers l backup)
  | "sales" =>
      let* l := sql_select (λ s, scan (sales s)) in
      ret (Backup.set_sales l backup)
  | "sale_items" =>
      let* l := sql_select (λ s, scan (sale_items s)) in
      ret (Backup.set_sale_items l backup)
  | "transactions" =>
      let* l := sql_select (λ s, scan (transactions s)) in
      ret (Backup.set_transactions l backup)
  | "maintenance" =>
      let* l := sql_select (λ s, scan (maintenance s)) in
      ret (Backup.set_maintenance l backup)
  | "purchases" =>
      let* l := sql_select (λ s, scan (purchases s)) in
      ret (Backup.set_purchases l backup)
  | "purchase_items" =>
      let* l := sql_select (λ s, scan (purchase_items s)) in
      ret (Backup.set_purchase_items l backup)
  | "general_ledger" =>
      let* l := sql_select (λ s, scan (general_ledger s)) in
      ret (Backup.set_general_ledger l backup)
  | "stock_adjustments" =>
      let* l := sql_select (λ s, scan (stock_adjustments s)) in
      ret (Backup.set_stock_adjustments l backup)
  | _ => no_such_table
  end.

(** [tables.forEach(table => ...)] over a local object that the callback
    fills in. *)
Fixpoint for_each_into {A B} (xs : list A) (acc : B) (body : A → B → M B)
    : M B :=
  match xs with
  | [] => ret acc
  | x :: rest => let* acc' := body x acc in for_each_into rest acc' body
  end.

(** GET /api/backup/export *)
Definition get_backup_export : M response :=
  try_catch
    (let* backup := for_each_into TABLES Backup.empty export_table in
     ret (json (Snapshot backup)))
    (λ e, ret (json_error 500 e)).

(** The body of the loop of POST /api/backup/import, for one table:
    nothing when the snapshot has no entry for it, else DELETE and one
    INSERT per row. *)
Definition restore {K R} `{Countable K} (T : tbl K R)
    (entry : option (list (K * R))) : M unit :=
  match entry with
  | None => ret tt
  | Some l =>
      let* _ := sql_delete_all T in
      if (0 <? length l)%nat
      then for_each l (λ row, sql_insert_row T row.1 row.2)
      else ret tt
  end.

Definition import_table (backup : Backup.t) (table : string) : M unit :=
  match table with
  | "users" => restore t_users (Backup.users backup)
  | "settings" => restore t_settings (Backup.settings backup)
  | "products" => restore t_products (Backup.products backup)
  | "warehouses" => restore t_warehouses (Backup.warehouses backup)
  | "suppliers" => restore t_suppliers (Backup.suppliers backup)
  | "supplier_transactions" =>
      restore t_supplier_transactions (Backup.supplier_transactions backup)
  | "customers" => restore t_customers (Backup.customers backup)
  | "sales" => restore t_sales (Backup.sales backup)
  | "sale_items" => restore t_sale_items (Backup.sale_items backup)
  | "transactions" => restore t_transactions (Backup.transactions backup)
  | "maintenance" => restore t_maintenance (Backup.maintenance backup)
  | "purchases" => restore t_purchases (Backup.purchases backup)
  | "purchase_items" =>
      restore t_purchase_items (Backup.purchase_items backup)
  | "general_ledger" =>
      restore t_general_ledger (Backup.general_ledger backup)
  | "stock_adjustments" =>
      restore t_stock_adjustments (Backup.stock_adjustments backup)
  | _ => no_such_table
  end.

(** The function given to [db.transaction] in POST /api/backup/import. *)
Definition import_unit (backup : Backup.t) : M unit :=
  for_each TABLES (import_table backup).

(** POST /api/backup/import *)
Definition post_backup_import (backup : Backup.t) : M response :=
  try_catch
    (let* _ := transaction (import_unit backup) in
     ret (json Success))
    (λ e, ret (json_error 500 e)).

(** The database after startup: the default settings and the seeded
    administrator. *)
Definition initial_store : store :=
  set_sqlite_sequence {["users" := 1]}
    (set_users
       {[1 := User.Make (Some "admin") (Some "admin123") (Some "admin")]}
       (set_settings
          {["currency" := Some "USD"; "rate_yer" := Some "530";
            "rate_sar" := Some "3.75"]}
          empty_store)).

(** * The other handlers of [server.ts] and its startup *)

(** ** More statements *)

(** [INSERT OR IGNORE INTO T ...] of a row that brings its key: a row that
    violates a constraint other than a foreign key is skipped in silence. *)
Definition sql_insert_or_ignore {K R} `{Countable K} (T : tbl K R) (k : K)
    (r : R) : M unit :=
  engine (λ w,
    let s := db w in
    match refusal T (bool_decide (is_Some (rows T s !! k))) r (rows T s) s
    with
    | None => (note_key T k (set_rows T (<[k := r]> (rows T s)) s), Ok tt)
    | Some FOREIGN_KEY => (s, refuse FOREIGN_KEY)
    | Some _ => (s, Ok tt)
    end).

(** [INSERT OR REPLACE INTO T ...] of a row that brings its key, into a
    table that no foreign key refers to: the rows that stand in its way
    through the key or a UNIQUE column are deleted first; a CHECK still
    refuses, and so does a foreign key of the row. *)
Definition sql_insert_or_replace {K R} `{Countable K} (T : tbl K R) (k : K)
    (r : R) : M unit :=
  engine (λ w,
    let s := db w in
    if negb (check T r) then (s, refuse CHECK)
    else if negb (parents T r s) then (s, refuse FOREIGN_KEY)
    else
      (note_key T k
         (set_rows T
            (<[k := r]>
               (filter (λ kr, conflict T r kr.2 = false) (rows T s)))
            s),
       Ok tt)).

(** [UPDATE T SET ... WHERE id = k] on columns that a CHECK or UNIQUE
    mentions and no foreign key does: no row, no change; else the new row
    must pass the CHECK and clash with none of the other rows. *)
Definition sql_update_row {K R} `{Countable K} (T : tbl K R) (k : K)
    (f : R → R) : M unit :=
  engine (λ w,
    let s := db w in
    match rows T s !! k with
    | None => (s, Ok tt)
    | Some r =>
        if negb (check T (f r)) then (s, refuse CHECK)
        else if admits T (f r) (delete k (rows T s))
        then (set_rows T (<[k := f r]> (rows T s)) s, Ok tt)
        else (s, refuse UNIQUE)
    end).

(** [db.prepare(...).get(...)]: the first row of the result, if any. *)
Definition sql_get {A} (q : store → list A) : M (option A) :=
  sql_select (λ s, head (q s)).

(** ** Answers that carry data *)

Inductive answer (A : Type) :=
  | Sent (value : A)
  | Refused (code : Z) (error : string)
  | Crashed.
Arguments Sent {A} value.
Arguments Refused {A} code error.
Arguments Crashed {A}.

(** A handler without [try] that answers data. *)
Definition uncaught {A} (handler : M (answer A)) : M (answer A) :=
  try_catch handler (λ _, ret Crashed).

(** ** Users *)

(** What [SELECT id, username, role FROM users] gives for one row. *)
Module Account.
Record t := Make {
  id : Z;
  username : text;
  role : text
}.
End Account.

(** [WHERE username = ? AND password = ?]: a NULL, in the row or in the
    request, matches nothing. *)
Definition credentials (username password : text) (kr : Z * User.t)
    : Prop :=
  (is_Some username ∧ User.username kr.2 = username)
  ∧ (is_Some password ∧ User.password kr.2 = password).

#[local] Instance credentials_dec username password kr
    : Decision (credentials username password kr).
Proof. unfold credentials. apply _. Defined.

(** POST /api/login *)
Definition post_login (username password : text) : M (answer Account.t) :=
  uncaught
    (let* user := sql_get (λ s,
       (λ kr, Account.Make kr.1 (User.username kr.2) (User.role kr.2))
       <$> filter (credentials username password) (scan (users s))) in
     match user with
     | Some u => ret (Sent u)
     | None => ret (Refused 401 "Invalid credentials")
     end).

(** POST /api/register *)
Definition post_register (username password role : text) : M response :=
  try_catch
    (let* id := sql_insert t_users (λ _,
       User.Make username password role) in
     ret (json (Id id)))
    (λ _, ret (Response 400 (Failure "Username already exists"))).

(** ** Settings *)

(** GET /api/settings: the rows, folded into one object. *)
Definition get_settings : M (answer (gmap string text)) :=
  uncaught
    (let* settings := sql_select (λ s, map_to_list (settings s)) in
     ret (Sent (foldl (λ acc s, <[s.1 := s.2]> acc) ∅ settings))).

(** POST /api/settings; [data] is [Object.entries] of the body, each value
    as [String] gives it. *)
Definition post_settings (data : list (string * string)) : M response :=
  express
    (transaction
       (for_each data (λ entry,
          sql_insert_or_replace t_settings entry.1 (Some entry.2))))
    (λ _, json Success).

(** ** Products and maintenance records, changed in place *)

(** PUT /api/products/:id: every column but the key and [opening_stock]. *)
Definition put_products (id : Z) (name category brand model sku : text)
    (price cost stock_quantity min_stock_level : real) (unit notes : text)
    (warehouse_id : ref) (location : text) : M response :=
  express
    (sql_update_row t_products id (λ p,
       Product.Make name category brand model sku price cost stock_quantity
         (Product.opening_stock p) min_stock_level unit notes warehouse_id
         location))
    (λ _, json Success).

(** POST /api/maintenance: [status] and [received_at] take their DEFAULT,
    [completed_at] is NULL. *)
Definition post_maintenance (customer_name customer_phone device_model imei
    device_condition fault_description symptoms maintenance_type : text)
    (cost : real) (notes next_maintenance_date : text) (user_id : ref)
    : M response :=
  try_catch
    (let* id := sql_insert t_maintenance (λ ts,
       Maintenance.Make customer_name customer_phone device_model imei
         device_condition fault_description symptoms maintenance_type cost
         (Some "received") notes next_maintenance_date (Some ts) None
         user_id) in
     ret (json (Id id)))
    (λ e, ret (json_error 400 e)).

(** [SET status = ?, completed_at = ?] on one row. *)
Definition set_status (status completed_at : text) (r : Maintenance.t)
    : Maintenance.t :=
  Maintenance.Make (Maintenance.customer_name r)
    (Maintenance.customer_phone r) (Maintenance.device_model r)
    (Maintenance.imei r) (Maintenance.device_condition r)
    (Maintenance.fault_description r) (Maintenance.symptoms r)
    (Maintenance.maintenance_type r) (Maintenance.cost r) status
    (Maintenance.notes r) (Maintenance.next_maintenance_date r)
    (Maintenance.received_at r) completed_at (Maintenance.user_id r).

(** PUT /api/maintenance/:id *)
Definition put_maintenance (id : Z) (status completed_at : text)
    : M response :=
  express
    (sql_update_row t_maintenance id (set_status status completed_at))
    (λ _, json Success).

(** ** Warehouses *)

(** POST /api/warehouses *)
Definition post_warehouses (name location notes : text) : M response :=
  express
    (sql_insert t_warehouses (λ _, Warehouse.Make name location notes))
    (λ id, json (Id id)).

(** ** Startup *)

(** The statements that run when the server starts: the default settings,
    unless set, and the administrator, unless a user of that name exists.
    The CREATE TABLE IF NOT EXISTS statements leave the fixed schema of
    this embedding as it is. *)
Definition startup : M unit :=
  let* _ := sql_insert_or_ignore t_settings "currency" (Some "USD") in
  let* _ := sql_insert_or_ignore t_settings "rate_yer" (Some "530") in
  let* _ := sql_insert_or_ignore t_settings "rate_sar" (Some "3.75") in
  let* adminExists := sql_get (λ s,
    filter (λ kr : Z * User.t, User.username kr.2 = Some "admin")
           (scan (users s))) in
  match adminExists with
  | Some _ => ret tt
  | None =>
      let* _ := sql_insert t_users (λ _,
        User.Make (Some "admin") (Some "admin123") (Some "admin")) in
      ret tt
  end.

(** ** Notions in which the properties are stated *)

(** The engine raises on none of the statements to come. *)
Definition fault_free (w : world) : Prop := pending w = [].

(** *** The ledgers *)

(** The rows of a log that name the party [c], by ascending key. *)
Definition rows_of {R} (party : R → ref) (c : Z) (m : gmap Z R) : list R :=
  snd <$> filter (λ kr : Z * R, party kr.2 = Some c) (scan m).

(** The sum of the amounts of the rows of one kind among [l], as the
    engine sums them: a row of another kind counts 0, a NULL amount is
    left out, and a sum that is NULL, not a number or 0 counts 0. *)
Definition log_total {R} (summation : list float → float) (type : R → text)
    (amount : R → real) (kind : string) (l : list R) : float :=
  js_or0
    (sql_sum summation
       ((λ r, if decide (type r = Some kind) then amount r
              else Some 0%float) <$> l)).

(** What customer [c] owes according to the log of transactions: the sum
    of its sales less the sum of its payments, in doubles. *)
Definition customer_due (summation : list float → float) (c : Z)
    (m : gmap Z Transaction.t) : real :=
  let l := rows_of Transaction.customer_id c m in
  sql_real
    (PrimFloat.sub
       (log_total summation Transaction.type Transaction.amount "sale" l)
       (log_total summation Transaction.type Transaction.amount "payment"
          l)).

(** The same for what is owed to supplier [c]. *)
Definition supplier_due (summation : list float → float) (c : Z)
    (m : gmap Z SupplierTransaction.t) : real :=
  let l := rows_of SupplierTransaction.supplier_id c m in
  sql_real
    (PrimFloat.sub
       (log_total summation SupplierTransaction.type
          SupplierTransaction.amount "purchase" l)
       (log_total summation SupplierTransaction.type
          SupplierTransaction.amount "payment" l)).

(** The customer [r] with [b] for balance. *)
Definition customer_owing (b : real) (r : Customer.t) : Customer.t :=
  Customer.Make (Customer.name r) (Customer.phone r) (Customer.email r)
    (Customer.address r) (Customer.opening_balance r) b (Customer.notes r).

Definition supplier_owed (b : real) (r : Supplier.t) : Supplier.t :=
  Supplier.Make (Supplier.name r) (Supplier.contact_person r)
    (Supplier.phone r) (Supplier.email r) b (Supplier.notes r).

(** *** Stock *)

(** The product [r] with [stock] in stock at the cost [cost]. *)
Definition product_with (cost stock : real) (r : Product.t) : Product.t :=
  Product.Make (Product.name r) (Product.category r) (Product.brand r)
    (Product.model r) (Product.sku r) (Product.price r) cost stock
    (Product.opening_stock r) (Product.min_stock_level r) (Product.unit r)
    (Product.notes r) (Product.warehouse_id r) (Product.location r).

(** The stock of product [p] after the lines of a sale: less the quantity
    of each line that names [p], line after line, in doubles and with no
    floor; NULL once a quantity is NULL. *)
Definition stock_after_sale (p : Z) (items : list SaleLine.t) (stock : real)
    : real :=
  foldl (λ q item, if decide (SaleLine.product_id item = Some p)
                   then sql_sub q (SaleLine.quantity item) else q)
        stock items.

(** The stock of product [p] after the lines of a purchase, and its cost:
    that of the last line that names [p], else the cost it had. *)
Definition stock_after_purchase (p : Z) (items : list PurchaseLine.t)
    (stock : real) : real :=
  foldl (λ q item, if decide (PurchaseLine.product_id item = Some p)
                   then sql_add q (PurchaseLine.quantity item) else q)
        stock items.

Definition cost_after_purchase (p : Z) (items : list PurchaseLine.t)
    (cost : real) : real :=
  foldl (λ c item, if decide (PurchaseLine.product_id item = Some p)
                   then PurchaseLine.unit_cost item else c)
        cost items.

(** *** What the engine accepts *)

(** The request of a sale that the engine accepts: a payment status of the
    schema or none, and a customer, a user and products that are stored
    (or no customer, no user). *)
Definition sale_accepted (customer_id user_id : ref) (payment_status : text)
    (items : list SaleLine.t) (s : store) : Prop :=
  one_of ["paid"; "partial"; "unpaid"] payment_status = true
  ∧ has (customers s) customer_id = true
  ∧ has (users s) user_id = true
  ∧ Forall (λ item, has (products s) (SaleLine.product_id item) = true)
      items.

#[local] Instance sale_accepted_dec c u st items s
    : Decision (sale_accepted c u st items s).
Proof. unfold sale_accepted. apply _. Defined.

Definition purchase_accepted (supplier_id user_id : ref)
    (payment_status : text) (items : list PurchaseLine.t) (s : store)
    : Prop :=
  one_of ["paid"; "partial"; "unpaid"] payment_status = true
  ∧ has (suppliers s) supplier_id = true
  ∧ has (users s) user_id = true
  ∧ Forall (λ item, has (products s) (PurchaseLine.product_id item) = true)
      items.

#[local] Instance purchase_accepted_dec c u st items s
    : Decision (purchase_accepted c u st items s).
Proof. unfold purchase_accepted. apply _. Defined.

Definition adjustment_accepted (product_id : ref) (type : text) (s : store)
    : Prop :=
  one_of ["damaged"; "correction"; "lost"] type = true
  ∧ has (products s) product_id = true.

#[local] Instance adjustment_accepted_dec p type s
    : Decision (adjustment_accepted p type s).
Proof. unfold adjustment_accepted. apply _. Defined.

(** *** Runs *)

(** A run that returns does so on the fault-free engine too, with the same
    database and the same result. *)
Definition stable {A} (m : M A) : Prop :=
  ∀ s p t Σ w' a,
    m (World s p t Σ) = (w', Ok a) →
    now w' = t ∧ summation w' = Σ
    ∧ m (World s [] t Σ) = (World (db w') [] t Σ, Ok a).

(** A statement sees the database, the clock and the summation of the
    engine, not what the engine is going to do next. *)
Definition blind {A} (stmt : world → store * outcome A) : Prop :=
  ∀ s p t Σ, stmt (World s p t Σ) = stmt (World s [] t Σ).

(** A computation that leaves the database as it finds it, whatever the
    engine does. *)
Definition reads {A} (m : M A) : Prop :=
  ∀ w w' r, m w = (w', r) → db w' = db w.

(** *** Constraints *)

(** The rows of a table obey its CHECK and its UNIQUE columns. *)
Definition consistent {K R} `{Countable K} (T : tbl K R) (m : gmap K R)
    : Prop :=
  map_Forall (λ _ r, check T r = true) m
  ∧ map_Forall (λ k r,
      map_Forall (λ k' r', k ≠ k' → conflict T r r' = false) m) m.

#[local] Instance consistent_dec {K R} `{Countable K} (T : tbl K R)
    (m : gmap K R) : Decision (consistent T m).
Proof. unfold consistent. apply _. Defined.

(** Every table of the database obeys its CHECK and UNIQUE constraints. *)
Definition integrity (s : store) : Prop :=
  consistent t_users (users s) ∧ consistent t_settings (settings s)
  ∧ consistent t_products (products s)
  ∧ consistent t_warehouses (warehouses s)
  ∧ consistent t_suppliers (suppliers s)
  ∧ consistent t_supplier_transactions (supplier_transactions s)
  ∧ consistent t_customers (customers s) ∧ consistent t_sales (sales s)
  ∧ consistent t_sale_items (sale_items s)
  ∧ consistent t_transactions (transactions s)
  ∧ consistent t_maintenance (maintenance s)
  ∧ consistent t_purchases (purchases s)
  ∧ consistent t_purchase_items (purchase_items s)
  ∧ consistent t_general_ledger (general_ledger s)
  ∧ consistent t_stock_adjustments (stock_adjustments s).

#[local] Instance integrity_dec (s : store) : Decision (integrity s).
Proof. unfold integrity. apply _. Defined.

(** *** Snapshots *)

(** The entry of a table in a snapshot can be inserted as far as keys,
    CHECK and UNIQUE go: no key twice, and rows that obey the constraints
    of the table. *)
Definition entry_valid {K R} `{Countable K} (T : tbl K R)
    (entry : option (list (K * R))) : Prop :=
  match entry with
  | None => True
  | Some l => NoDup l.*1 ∧ consistent T (list_to_map l)
  end.

#[local] Instance entry_valid_dec {K R} `{Countable K} (T : tbl K R)
    (entry : option (list (K * R))) : Decision (entry_valid T entry).
Proof. destruct entry; simpl; apply _. Defined.

Definition snapshot_valid (b : Backup.t) : Prop :=
  entry_valid t_users (Backup.users b)
  ∧ entry_valid t_settings (Backup.settings b)
  ∧ entry_valid t_products (Backup.products b)
  ∧ entry_valid t_warehouses (Backup.warehouses b)
  ∧ entry_valid t_suppliers (Backup.suppliers b)
  ∧ entry_valid t_supplier_transactions (Backup.supplier_transactions b)
  ∧ entry_valid t_customers (Backup.customers b)
  ∧ entry_valid t_sales (Backup.sales b)
  ∧ entry_valid t_sale_items (Backup.sale_items b)
  ∧ entry_valid t_transactions (Backup.transactions b)
  ∧ entry_valid t_maintenance (Backup.maintenance b)
  ∧ entry_valid t_purchases (Backup.purchases b)
  ∧ entry_valid t_purchase_items (Backup.purchase_items b)
  ∧ entry_valid t_general_ledger (Backup.general_ledger b)
  ∧ entry_valid t_stock_adjustments (Backup.stock_adjustments b).


(** The rows of a table after a restore: those of its entry in the
    snapshot, or those it had when the snapshot has no entry for it. *)
Definition replaced {K R} `{Countable K} (entry : option (list (K * R)))
    (before : gmap K R) : gmap K R :=
  match entry with
  | None => before
  | Some l => list_to_map l
  end.

Definition restored {K R} `{Countable K} (entry : option (list (K * R)))
    (before after : gmap K R) : Prop :=
  after = replaced entry before.

Definition all_restored (b : Backup.t) (s s' : store) : Prop :=
  restored (Backup.users b) (users s) (users s')
  ∧ restored (Backup.settings b) (settings s) (settings s')
  ∧ restored (Backup.products b) (products s) (products s')
  ∧ restored (Backup.warehouses b) (warehouses s) (warehouses s')
  ∧ restored (Backup.suppliers b) (suppliers s) (suppliers s')
  ∧ restored (Backup.supplier_transactions b) (supplier_transactions s)
      (supplier_transactions s')
  ∧ restored (Backup.customers b) (customers s) (customers s')
  ∧ restored (Backup.sales b) (sales s) (sales s')
  ∧ restored (Backup.sale_items b) (sale_items s) (sale_items s')
  ∧ restored (Backup.transactions b) (transactions s) (transactions s')
  ∧ restored (Backup.maintenance b) (maintenance s) (maintenance s')
  ∧ restored (Backup.purchases b) (purchases s) (purchases s')
  ∧ restored (Backup.purchase_items b) (purchase_items s)
      (purchase_items s')
  ∧ restored (Backup.general_ledger b) (general_ledger s)
      (general_ledger s')
  ∧ restored (Backup.stock_adjustments b) (stock_adjustments s)
      (stock_adjustments s').

(** No stored row of another table refers to a row of the table: the
    engine lets [DELETE FROM T] pass. *)
Definition unreferenced {K R} `{Countable K} (T : tbl K R) (s : store)
    : Prop :=
  map_Forall (λ k _, free T s k = true) (rows T s).

#[local] Instance unreferenced_dec {K R} `{Countable K} (T : tbl K R) s
    : Decision (unreferenced T s).
Proof. unfold unreferenced. apply _. Defined.

(** The tables that the snapshot replaces can be emptied: a table with an
    entry is [unreferenced].  (Only the six tables that a foreign key
    refers to are concerned.) *)
Definition clearable (b : Backup.t) (s : store) : Prop :=
  (is_Some (Backup.users b) → unreferenced t_users s)
  ∧ (is_Some (Backup.products b) → unreferenced t_products s)
  ∧ (is_Some (Backup.suppliers b) → unreferenced t_suppliers s)
  ∧ (is_Some (Backup.customers b) → unreferenced t_customers s)
  ∧ (is_Some (Backup.sales b) → unreferenced t_sales s)
  ∧ (is_Some (Backup.purchases b) → unreferenced t_purchases s).

#[local] Instance clearable_dec b s : Decision (clearable b s).
Proof. unfold clearable. apply _. Defined.

(** Every row of the entry refers, through [col], to nothing or to a row
    that the parent table holds: [parent] is the parent table as the
    restore leaves it. *)
Definition refers_within {R P} (col : R → ref) (parent : gmap Z P)
    (entry : option (list (Z * R))) : Prop :=
  match entry with
  | None => True
  | Some l => Forall (λ kr, has parent (col kr.2) = true) l
  end.

#[local] Instance refers_within_dec {R P} (col : R → ref)
    (parent : gmap Z P) entry : Decision (refers_within col parent entry).
Proof. destruct entry; simpl; apply _. Defined.

(** The references of the rows of the snapshot are met once the tables
    before theirs are restored: the twelve foreign keys of the schema. *)
Definition references_met (b : Backup.t) (s : store) : Prop :=
  let users' := replaced (Backup.users b) (users s) in
  let products' := replaced (Backup.products b) (products s) in
  let suppliers' := replaced (Backup.suppliers b) (suppliers s) in
  let customers' := replaced (Backup.customers b) (customers s) in
  let sales' := replaced (Backup.sales b) (sales s) in
  let purchases' := replaced (Backup.purchases b) (purchases s) in
  refers_within SupplierTransaction.supplier_id suppliers'
    (Backup.supplier_transactions b)
  ∧ refers_within Sale.customer_id customers' (Backup.sales b)
  ∧ refers_within Sale.user_id users' (Backup.sales b)
  ∧ refers_within SaleItem.sale_id sales' (Backup.sale_items b)
  ∧ refers_within SaleItem.product_id products' (Backup.sale_items b)
  ∧ refers_within Transaction.customer_id customers'
      (Backup.transactions b)
  ∧ refers_within Maintenance.user_id users' (Backup.maintenance b)
  ∧ refers_within Purchase.supplier_id suppliers' (Backup.purchases b)
  ∧ refers_within Purchase.user_id users' (Backup.purchases b)
  ∧ refers_within PurchaseItem.purchase_id purchases'
      (Backup.purchase_items b)
  ∧ refers_within PurchaseItem.product_id products'
      (Backup.purchase_items b)
  ∧ refers_within StockAdjustment.product_id products'
      (Backup.stock_adjustments b).

#[local] Instance references_met_dec b s : Decision (references_met b s).
Proof. unfold references_met. cbv zeta. apply _. Defined.

(** The snapshot can be restored over the database [s]. *)
Definition restorable (b : Backup.t) (s : store) : Prop :=
  snapshot_valid b ∧ clearable b s ∧ references_met b s.

#[local] Instance restorable_dec b s : Decision (restorable b s).
Proof. unfold restorable. apply _. Defined.

(** The two databases hold the same rows in each of the fifteen tables. *)
Definition same_tables (s s' : store) : Prop :=
  users s' = users s ∧ settings s' = settings s
  ∧ products s' = products s ∧ warehouses s' = warehouses s
  ∧ suppliers s' = suppliers s
  ∧ supplier_transactions s' = supplier_transactions s
  ∧ customers s' = customers s ∧ sales s' = sales s
  ∧ sale_items s' = sale_items s ∧ transactions s' = transactions s
  ∧ maintenance s' = maintenance s ∧ purchases s' = purchases s
  ∧ purchase_items s' = purchase_items s
  ∧ general_ledger s' = general_ledger s
  ∧ stock_adjustments s' = stock_adjustments s.

(** The snapshot that the export reads from a database, before it is
    written as JSON. *)
Definition snapshot_of (s : store) : Backup.t :=
  Backup.Make (Some (scan (users s))) (Some (map_to_list (settings s)))
    (Some (scan (products s))) (Some (scan (warehouses s)))
    (Some (scan (suppliers s))) (Some (scan (supplier_transactions s)))
    (Some (scan (customers s))) (Some (scan (sales s)))
    (Some (scan (sale_items s))) (Some (scan (transactions s)))
    (Some (scan (maintenance s))) (Some (scan (purchases s)))
    (Some (scan (purchase_items s))) (Some (scan (general_ledger s)))
    (Some (scan (stock_adjustments s))).

(** Every number of the database is written in JSON as it is: none is
    infinite, and none is the negative zero, which JSON writes as 0. *)
Definition finite_numbers (s : store) : Prop :=
  map_Forall (λ _ r, Product.finite r = true) (products s)
  ∧ map_Forall (λ _ r, Supplier.finite r = true) (suppliers s)
  ∧ map_Forall (λ _ r, SupplierTransaction.finite r = true)
      (supplier_transactions s)
  ∧ map_Forall (λ _ r, Customer.finite r = true) (customers s)
  ∧ map_Forall (λ _ r, Sale.finite r = true) (sales s)
  ∧ map_Forall (λ _ r, SaleItem.finite r = true) (sale_items s)
  ∧ map_Forall (λ _ r, Transaction.finite r = true) (transactions s)
  ∧ map_Forall (λ _ r, Maintenance.finite r = true) (maintenance s)
  ∧ map_Forall (λ _ r, Purchase.finite r = true) (purchases s)
  ∧ map_Forall (λ _ r, PurchaseItem.finite r = true) (purchase_items s)
  ∧ map_Forall (λ _ r, GeneralLedger.finite r = true) (general_ledger s)
  ∧ map_Forall (λ _ r, StockAdjustment.finite r = true) (stock_adjustments s).

(** No row of the database refers to a row of another table: each of the
    twelve references of the schema is NULL in every row. *)
Definition null_in {R} (col : R → ref) (m : gmap Z R) : Prop :=
  map_Forall (λ _ r, col r = None) m.

Definition detached (s : store) : Prop :=
  null_in SupplierTransaction.supplier_id (supplier_transactions s)
  ∧ null_in Sale.customer_id (sales s)
  ∧ null_in Sale.user_id (sales s)
  ∧ null_in SaleItem.sale_id (sale_items s)
  ∧ null_in SaleItem.product_id (sale_items s)
  ∧ null_in Transaction.customer_id (transactions s)
  ∧ null_in Maintenance.user_id (maintenance s)
  ∧ null_in Purchase.supplier_id (purchases s)
  ∧ null_in Purchase.user_id (purchases s)
  ∧ null_in PurchaseItem.purchase_id (purchase_items s)
  ∧ null_in PurchaseItem.product_id (purchase_items s)
  ∧ null_in StockAdjustment.product_id (stock_adjustments s).

#[local] Instance detached_dec s : Decision (detached s).
Proof. unfold detached, null_in. apply _. Defined.

(** No stored row refers to a stored row of one of the six tables that a
    foreign key refers to. *)
Definition no_reference (s : store) : Prop :=
  unreferenced t_users s ∧ unreferenced t_products s
  ∧ unreferenced t_suppliers s ∧ unreferenced t_customers s
  ∧ unreferenced t_sales s ∧ unreferenced t_purchases s.

#[local] Instance no_reference_dec s : Decision (no_reference s).
Proof. unfold no_reference. apply _. Defined.

#[local] Instance finite_numbers_dec s : Decision (finite_numbers s).
Proof. unfold finite_numbers. apply _. Defined.

(** The accessors of a table commute with those of [sqlite_sequence], and
    the rows of a table refer to rows of other tables only. *)
Definition lawful {K R} `{Countable K} (T : tbl K R) : Prop :=
  (∀ m s, rows T (set_rows T m s) = m)
  ∧ (∀ m m' s, set_rows T m' (set_rows T m s) = set_rows T m' s)
  ∧ (∀ m q s, set_rows T m (set_sqlite_sequence q s)
              = set_sqlite_sequence q (set_rows T m s))
  ∧ (∀ q s, rows T (set_sqlite_sequence q s) = rows T s)
  ∧ (∀ m s, sqlite_sequence (set_rows T m s) = sqlite_sequence s)
  ∧ (∀ s, set_rows T (rows T s) s = s)
  ∧ (∀ k s, ∃ q, note_key T k s = set_sqlite_sequence q s)
  ∧ (∀ r m s, parents T r (set_rows T m s) = parents T r s)
  ∧ (∀ r q s, parents T r (set_sqlite_sequence q s) = parents T r s).

(** [a * b] in doubles, NULL when an operand is NULL. *)
Definition times (a b : real) : real :=
  match a, b with
  | Some x, Some y => sql_real (PrimFloat.mul x y)
  | _, _ => None
  end.

(** The references of the rows of an entry are met in the database [s]. *)
Definition entry_refers {K R} `{Countable K} (T : tbl K R)
    (entry : option (list (K * R))) (s : store) : Prop :=
  match entry with
  | None => True
  | Some l => Forall (λ kr, parents T kr.2 s = true) l
  end.

(** *** Recorded operations *)

(** What POST /api/sales posts to the ledger of customer [c] for the sale
    [id]: a 'sale' row, a 'payment' row when the sale is paid, both under
    new keys, and the balance of [c] recomputed from the log. *)
Definition sale_posted (summation : list float → float) (c : Z)
    (total_amount : real) (payment_status : text) (id : Z) (t : string)
    (s s' : store) : Prop :=
  ∃ k,
    (∀ k', k ≤ k' → transactions s !! k' = None)
    ∧ transactions s'
      = (if decide (payment_status = Some "paid")
         then <[k + 1 := Transaction.Make (Some c) (Some "payment")
                           total_amount
                           (Some ("Payment for Sale #" +:+ pretty id))
                           (Some t)]>
         else λ m, m)
          (<[k := Transaction.Make (Some c) (Some "sale") total_amount
                    (Some ("Sale #" +:+ pretty id)) (Some t)]>
             (transactions s))
    ∧ customers s'
      = alter (customer_owing (customer_due summation c (transactions s')))
          c (customers s).

(** The tables that a sale never touches. *)
Definition beside_sale (s s' : store) : Prop :=
  users s' = users s ∧ settings s' = settings s
  ∧ warehouses s' = warehouses s ∧ suppliers s' = suppliers s
  ∧ supplier_transactions s' = supplier_transactions s
  ∧ maintenance s' = maintenance s ∧ purchases s' = purchases s
  ∧ purchase_items s' = purchase_items s
  ∧ general_ledger s' = general_ledger s
  ∧ stock_adjustments s' = stock_adjustments s.

(** The database [s'] is [s] with the sale [id] recorded. *)
Definition sale_recorded (summation : list float → float)
    (customer_id user_id : ref) (total_amount discount : real)
    (payment_status payment_method : text) (items : list SaleLine.t)
    (t : string) (s s' : store) (id : Z) : Prop :=
  (* one header, under a key the table did not hold *)
  sales s !! id = None
  ∧ sales s'
    = <[id := Sale.Make customer_id user_id total_amount discount
                payment_status payment_method (Some t)]> (sales s)
  (* one SaleItem per line, under consecutive new keys *)
  ∧ (∃ first,
       (∀ k, first ≤ k → sale_items s !! k = None)
       ∧ (∀ (i : nat) item, items !! i = Some item →
            sale_items s' !! (first + Z.of_nat i)
            = Some (SaleItem.Make (Some id) (SaleLine.product_id item)
                      (SaleLine.quantity item) (SaleLine.unit_price item)
                      (SaleLine.subtotal item)))
       ∧ (∀ k, ¬ (first ≤ k < first + Z.of_nat (length items)) →
            sale_items s' !! k = sale_items s !! k))
  (* the stock of every product, less what the lines take, unfloored *)
  ∧ (∀ p, products s' !! p
          = (λ r, product_with (Product.cost r)
                    (stock_after_sale p items (Product.stock_quantity r)) r)
            <$> products s !! p)
  (* the ledger, when the request names a customer *)
  ∧ (if truthy customer_id
     then ∃ c, customer_id = Some c
               ∧ sale_posted summation c total_amount payment_status id t
                   s s'
     else transactions s' = transactions s ∧ customers s' = customers s)
  ∧ beside_sale s s'.

(** What POST /api/purchases posts to the ledger of the supplier for the
    purchase [id]; the rows carry the supplier of the request, also when
    it is NULL, and then no balance changes. *)
Definition purchase_posted (summation : list float → float)
    (supplier_id : ref) (total_amount : real) (payment_status : text)
    (id : Z) (t : string) (s s' : store) : Prop :=
  ∃ k,
    (∀ k', k ≤ k' → supplier_transactions s !! k' = None)
    ∧ supplier_transactions s'
      = (if decide (payment_status = Some "paid")
         then <[k + 1 := SupplierTransaction.Make supplier_id
                           (Some "payment") total_amount
                           (Some ("Payment for Purchase #" +:+ pretty id))
                           (Some t)]>
         else λ m, m)
          (<[k := SupplierTransaction.Make supplier_id (Some "purchase")
                    total_amount (Some ("Purchase #" +:+ pretty id))
                    (Some t)]>
             (supplier_transactions s))
    ∧ suppliers s'
      = match supplier_id with
        | Some c =>
            alter (supplier_owed
                     (supplier_due summation c (supplier_transactions s')))
                  c (suppliers s)
        | None => suppliers s
        end.

(** The tables that a purchase never touches. *)
Definition beside_purchase (s s' : store) : Prop :=
  users s' = users s ∧ settings s' = settings s
  ∧ warehouses s' = warehouses s ∧ customers s' = customers s
  ∧ sales s' = sales s ∧ sale_items s' = sale_items s
  ∧ transactions s' = transactions s ∧ maintenance s' = maintenance s
  ∧ general_ledger s' = general_ledger s
  ∧ stock_adjustments s' = stock_adjustments s.

(** The database [s'] is [s] with the purchase [id] recorded. *)
Definition purchase_recorded (summation : list float → float)
    (supplier_id user_id : ref) (total_amount : real)
    (payment_status : text) (items : list PurchaseLine.t) (t : string)
    (s s' : store) (id : Z) : Prop :=
  purchases s !! id = None
  ∧ purchases s'
    = <[id := Purchase.Make supplier_id user_id total_amount payment_status
                (Some t)]> (purchases s)
  ∧ purchase_posted summation supplier_id total_amount payment_status id t
      s s'
  ∧ (∃ first,
       (∀ k, first ≤ k → purchase_items s !! k = None)
       ∧ (∀ (i : nat) item, items !! i = Some item →
            purchase_items s' !! (first + Z.of_nat i)
            = Some (PurchaseItem.Make (Some id)
                      (PurchaseLine.product_id item)
                      (PurchaseLine.quantity item)
                      (PurchaseLine.unit_cost item)
                      (PurchaseLine.subtotal item)))
       ∧ (∀ k, ¬ (first ≤ k < first + Z.of_nat (length items)) →
            purchase_items s' !! k = purchase_items s !! k))
  ∧ (∀ p, products s' !! p
          = (λ r, product_with
                    (cost_after_purchase p items (Product.cost r))
                    (stock_after_purchase p items (Product.stock_quantity r))
                    r)
            <$> products s !! p)
  ∧ beside_purchase s s'.

(** The database [s'] is [s] with one stock adjustment recorded: the row,
    under a new key, and the quantity taken from the stock of the product,
    whatever its sign. *)
Definition adjustment_recorded (product_id : ref) (type : text)
    (quantity : real) (reason : text) (t : string) (s s' : store) : Prop :=
  (∃ k,
     stock_adjustments s !! k = None
     ∧ stock_adjustments s'
       = <[k := StockAdjustment.Make product_id type quantity reason
                  (Some t)]> (stock_adjustments s))
  ∧ (∀ p, products s' !! p
          = (λ r, if decide (product_id = Some p)
                  then product_with (Product.cost r)
                         (sql_sub (Product.stock_quantity r) quantity) r
                  else r)
            <$> products s !! p).

(** ** A small shop, for the examples *)

(** The sum of a SUM as recent versions of SQLite compute it
    (Kahan-Babuska-Neumaier): the running sum and the running error. *)
Definition kbn_step (acc : float * float) (r : float) : float * float :=
  let s := acc.1 in
  let t := PrimFloat.add s r in
  (t,
   PrimFloat.add acc.2
     (if PrimFloat.ltb (PrimFloat.abs r) (PrimFloat.abs s)
      then PrimFloat.add (PrimFloat.sub s t) r
      else PrimFloat.add (PrimFloat.sub r t) s)).

Definition kbn_sum (l : list float) : float :=
  let acc := foldl kbn_step (0%float, 0%float) l in
  if PrimFloat.is_finite acc.2 then PrimFloat.add acc.1 acc.2 else acc.1.

Definition opening_day : world :=
  World initial_store [] "2024-01-01 09:00:00" kbn_sum.

(** The first request of the day registers a customer who owes 100 from
    before. *)
Definition first_customer : world :=
  (post_customers (Some "Ali") (Some "777") None None (num 100) None
     opening_day).1.

(** Then one supplier and one product with 5 units in stock. *)
Definition shop : world :=
  (post_products (Some "Phone X") (Some "phone") (Some "Acme") (Some "X")
     (Some "SKU-1") (num 10) (num 7) (num 5) None (num 1) (Some "pc") None
     None (Some "A1")
     (post_suppliers (Some "Acme") (Some "Sam") (Some "555") None None
        first_customer).1).1.



(** The same shop on an engine that raises on the third statement. *)
Definition failing_shop : world :=
  World (db shop) [false; false; true] (now shop) (summation shop).

(** *** The server as a whole *)

(** A computation that keeps a property of the database, whatever the
    engine does and however the computation ends. *)
Definition keeps {A} (P : store → Prop) (m : M A) : Prop :=
  ∀ w w' r, P (db w) → m w = (w', r) → P (db w').

(** The table is one of those that [integrity] speaks of. *)
Definition governed {K R} `{Countable K} (T : tbl K R) : Prop :=
  (∀ m s, integrity s → consistent T m → integrity (set_rows T m s))
  ∧ (∀ s, integrity s → consistent T (rows T s))
  ∧ (∀ r r', conflict T r r' = conflict T r' r)
  ∧ (∀ k s, ∃ q, note_key T k s = set_sqlite_sequence q s).

(** The routes of the server that are embedded here, with the bodies of
    their requests: every route that writes to the database, and three of
    those that only read it. *)
Inductive route : ∀ {A : Type}, M A → Prop :=
  | route_login username password : route (post_login username password)
  | route_register username password role :
      route (post_register username password role)
  | route_get_settings : route get_settings
  | route_post_settings data : route (post_settings data)
  | route_post_products name category brand model sku price cost
      stock_quantity opening_stock min_stock_level unit notes warehouse_id
      location :
      route (post_products name category brand model sku price cost
               stock_quantity opening_stock min_stock_level unit notes
               warehouse_id location)
  | route_put_products id name category brand model sku price cost
      stock_quantity min_stock_level unit notes warehouse_id location :
      route (put_products id name category brand model sku price cost
               stock_quantity min_stock_level unit notes warehouse_id
               location)
  | route_post_sales customer_id user_id total_amount discount payment_status
      payment_method items :
      route (post_sales customer_id user_id total_amount discount
               payment_status payment_method items)
  | route_post_customers name phone email address opening_balance notes :
      route (post_customers name phone email address opening_balance notes)
  | route_post_payments customer_id amount description :
      route (post_payments customer_id amount description)
  | route_post_suppliers name contact_person phone email notes :
      route (post_suppliers name contact_person phone email notes)
  | route_post_warehouses name location notes :
      route (post_warehouses name location notes)
  | route_post_maintenance customer_name customer_phone device_model imei
      device_condition fault_description symptoms maintenance_type cost notes
      next_maintenance_date user_id :
      route (post_maintenance customer_name customer_phone device_model imei
               device_condition fault_description symptoms maintenance_type
               cost notes next_maintenance_date user_id)
  | route_put_maintenance id status completed_at :
      route (put_maintenance id status completed_at)
  | route_post_purchases supplier_id user_id total_amount payment_status
      items :
      route (post_purchases supplier_id user_id total_amount payment_status
               items)
  | route_post_supplier_payments supplier_id amount description :
      route (post_supplier_payments supplier_id amount description)
  | route_post_ledger type category amount description :
      route (post_ledger type category amount description)
  | route_post_stock_adjustments product_id type quantity reason :
      route (post_stock_adjustments product_id type quantity reason)
  | route_get_backup_export : route get_backup_export
  | route_post_backup_import backup : route (post_backup_import backup).

(** The databases that the server can reach from an empty file: by its
    startup, at any time and however it ends, and by the requests to its
    routes, whatever the engine does and whatever they answer. *)
Inductive reachable : store → Prop :=
  | reach_new : reachable empty_store
  | reach_startup w w' r :
      reachable (db w) → startup w = (w', r) → reachable (db w')
  | reach_route {A} (handler : M A) w w' r :
      route handler → reachable (db w) → handler w = (w', r) →
      reachable (db w').

(** The engine lets the user in: a role of the schema, or none, and a
    username that no stored user has, or none. *)
Definition can_register (username role : text) (s : store) : Prop :=
  one_of ["admin"; "accountant"; "engineer"] role = true
  ∧ ∀ k user, users s !! k = Some user → is_Some username →
      User.username user ≠ username.

(** No product has the SKU; a missing SKU is the SKU of no product. *)
Definition sku_free (sku : text) (m : gmap Z Product.t) : Prop :=
  ∀ k p, m !! k = Some p → is_Some sku → Product.sku p ≠ sku.

#[local] Instance sku_free_dec sku m : Decision (sku_free sku m).
Proof.
  refine (cast_if (decide (map_Forall
                             (λ _ p, is_Some sku → Product.sku p ≠ sku) m)));
    done.
Defined.


(** * The sale and purchase forms of the client *)

(** In the client a number is a JavaScript number, NaN and the infinities
    among them; what comes from a column of a product ([product.price],
    [product.cost], [product.name]) is null where the column is NULL. *)

(** An element of [newSale.items]. *)
Module SaleCartItem.
Record t := Make {
  product_id : Z;
  name : text;
  quantity : float;
  unit_price : real;
  subtotal : real
}.
End SaleCartItem.

(** The state [newSale]. *)
Module NewSale.
Record t := Make {
  customer_id : Z;
  invoice_number : string;
  items : list SaleCartItem.t;
  payment_status : string;
  payment_method : string;
  discount : float
}.

(** The argument of [useState]. *)
Definition initial : t := Make 0 "" [] "paid" "Cash" 0%float.
End NewSale.

(** An element of [newPurchase.items]. *)
Module PurchaseCartItem.
Record t := Make {
  product_id : Z;
  name : text;
  quantity : float;
  unit_cost : real;
  subtotal : real
}.
End PurchaseCartItem.

(** The state [newPurchase]. *)
Module NewPurchase.
Record t := Make {
  supplier_id : Z;
  invoice_number : string;
  items : list PurchaseCartItem.t;
  payment_status : string;
  payment_method : string
}.

(** The argument of [useState]. *)
Definition initial : t := Make 0 "" [] "paid" "Cash".
End NewPurchase.

(** [xs.filter((_, i) => keep(i))], from index [i] on. *)
Fixpoint filter_index {A} (keep : nat → bool) (i : nat) (xs : list A)
    : list A :=
  match xs with
  | [] => []
  | x :: rest =>
      if keep i then x :: filter_index keep (S i) rest
      else filter_index keep (S i) rest
  end.

(** [addToSale(product)], for a product as GET /api/products lists it. *)
Definition addToSale (product : Z * Product.t) (newSale : NewSale.t)
    : NewSale.t :=
  match
    find (λ item, bool_decide (SaleCartItem.product_id item = product.1))
         (NewSale.items newSale)
  with
  | Some _ =>
      NewSale.Make (NewSale.customer_id newSale)
        (NewSale.invoice_number newSale)
        ((λ item,
            if bool_decide (SaleCartItem.product_id item = product.1)
            then SaleCartItem.Make (SaleCartItem.product_id item)
                   (SaleCartItem.name item)
                   (SaleCartItem.quantity item + 1)%float
                   (SaleCartItem.unit_price item)
                   (Some ((SaleCartItem.quantity item + 1)
                          * js_number (SaleCartItem.unit_price item))%float)
            else item) <$> NewSale.items newSale)
        (NewSale.payment_status newSale) (NewSale.payment_method newSale)
        (NewSale.discount newSale)
  | None =>
      NewSale.Make (NewSale.customer_id newSale)
        (NewSale.invoice_number newSale)
        (NewSale.items newSale
         ++ [SaleCartItem.Make product.1 (Product.name product.2) 1%float
               (Product.price product.2) (Product.price product.2)])
        (NewSale.payment_status newSale) (NewSale.payment_method newSale)
        (NewSale.discount newSale)
  end.

(** What the user can do to the sale form before submitting it: the
    buttons and inputs that call [setNewSale].  The customer is an option
    of a select, 0 or the key of a customer; the discount is the [Number]
    of what was typed. *)
Inductive sale_event :=
  | SaleAdd (product : Z * Product.t)
  | SaleRemove (idx : nat)
  | SaleCustomer (value : Z)
  | SaleInvoiceNumber (value : string)
  | SalePaymentMethod (value : string)
  | SaleDiscount (value : float).

Definition sale_form_step (newSale : NewSale.t) (e : sale_event)
    : NewSale.t :=
  match e with
  | SaleAdd product => addToSale product newSale
  | SaleRemove idx =>
      NewSale.Make (NewSale.customer_id newSale)
        (NewSale.invoice_number newSale)
        (filter_index (λ i, negb (i =? idx)%nat) 0 (NewSale.items newSale))
        (NewSale.payment_status newSale) (NewSale.payment_method newSale)
        (NewSale.discount newSale)
  | SaleCustomer value =>
      NewSale.Make value (NewSale.invoice_number newSale)
        (NewSale.items newSale) (NewSale.payment_status newSale)
        (NewSale.payment_method newSale) (NewSale.discount newSale)
  | SaleInvoiceNumber value =>
      NewSale.Make (NewSale.customer_id newSale) value
        (NewSale.items newSale) (NewSale.payment_status newSale)
        (NewSale.payment_method newSale) (NewSale.discount newSale)
  | SalePaymentMethod value =>
      NewSale.Make (NewSale.customer_id newSale)
        (NewSale.invoice_number newSale) (NewSale.items newSale)
        (NewSale.payment_status newSale) value (NewSale.discount newSale)
  | SaleDiscount value =>
      NewSale.Make (NewSale.customer_id newSale)
        (NewSale.invoice_number newSale) (NewSale.items newSale)
        (NewSale.payment_status newSale) (NewSale.payment_method newSale)
        value
  end.

(** The form after a series of events, from the form as it opens. *)
Definition sale_form (events : list sale_event) : NewSale.t :=
  foldl sale_form_step NewSale.initial events.

(** The line of the request body that an item of the form becomes. *)
Definition sale_line_of (item : SaleCartItem.t) : SaleLine.t :=
  SaleLine.Make (Some (SaleCartItem.product_id item))
    (json_number (SaleCartItem.quantity item))
    (json_real (SaleCartItem.unit_price item))
    (json_real (SaleCartItem.subtotal item)).

(** [reduce((sum, item) => sum + item.subtotal, 0)] *)
Definition sale_subtotals (items : list SaleCartItem.t) : float :=
  foldl (λ sum item, (sum + js_number (SaleCartItem.subtotal item))%float)
        0%float items.

(** [submitSale()]: the request that it sends, if it sends one, when
    [user] is logged in ([None] when nobody is: [user?.id] is then left
    out of the body). *)
Definition submitSale (user : option Account.t) (newSale : NewSale.t)
    : option (M response) :=
  if (length (NewSale.items newSale) =? 0)%nat then None
  else
    let total_amount :=
      (sale_subtotals (NewSale.items newSale)
       - NewSale.discount newSale)%float in
    Some (post_sales (Some (NewSale.customer_id newSale))
            (Account.id <$> user) (json_number total_amount)
            (json_number (NewSale.discount newSale))
            (Some (NewSale.payment_status newSale))
            (Some (NewSale.payment_method newSale))
            (Some (sale_line_of <$> NewSale.items newSale))).

(** [addToPurchase(product)] *)
Definition addToPurchase (product : Z * Product.t)
    (newPurchase : NewPurchase.t) : NewPurchase.t :=
  match
    find (λ item, bool_decide (PurchaseCartItem.product_id item = product.1))
         (NewPurchase.items newPurchase)
  with
  | Some _ =>
      NewPurchase.Make (NewPurchase.supplier_id newPurchase)
        (NewPurchase.invoice_number newPurchase)
        ((λ item,
            if bool_decide (PurchaseCartItem.product_id item = product.1)
            then PurchaseCartItem.Make (PurchaseCartItem.product_id item)
                   (PurchaseCartItem.name item)
                   (PurchaseCartItem.quantity item + 1)%float
                   (PurchaseCartItem.unit_cost item)
                   (Some ((PurchaseCartItem.quantity item + 1)
                          * js_number (PurchaseCartItem.unit_cost item))
                      %float)
            else item) <$> NewPurchase.items newPurchase)
        (NewPurchase.payment_status newPurchase)
        (NewPurchase.payment_method newPurchase)
  | None =>
      NewPurchase.Make (NewPurchase.supplier_id newPurchase)
        (NewPurchase.invoice_number newPurchase)
        (NewPurchase.items newPurchase
         ++ [PurchaseCartItem.Make product.1 (Product.name product.2)
               1%float (Product.cost product.2) (Product.cost product.2)])
        (NewPurchase.payment_status newPurchase)
        (NewPurchase.payment_method newPurchase)
  end.

(** The options of the select for the payment status of a purchase. *)
Inductive purchase_status_option := OptionPaid | OptionUnpaid.

Definition option_value (o : purchase_status_option) : string :=
  match o with
  | OptionPaid => "paid"
  | OptionUnpaid => "unpaid"
  end.

(** [items.map((it, i) => i === idx ? edit(it) : it)] *)
Definition edit_at (idx : nat)
    (edit : PurchaseCartItem.t → PurchaseCartItem.t)
    (items : list PurchaseCartItem.t) : list PurchaseCartItem.t :=
  imap (λ i it, if (i =? idx)%nat then edit it else it) items.

(** What the user can do to the purchase form before submitting it.  The
    supplier is an option of a select, 0 or the key of a supplier; a
    quantity and a cost are the [Number] of what was typed. *)
Inductive purchase_event :=
  | PurchaseAdd (product : Z * Product.t)
  | PurchaseRemove (idx : nat)
  | PurchaseQuantity (idx : nat) (qty : float)
  | PurchaseCost (idx : nat) (cost : float)
  | PurchaseSupplier (value : Z)
  | PurchaseInvoiceNumber (value : string)
  | PurchasePaymentMethod (value : string)
  | PurchasePaymentStatus (value : purchase_status_option).

Definition purchase_form_step (newPurchase : NewPurchase.t)
    (e : purchase_event) : NewPurchase.t :=
  let with_items items :=
    NewPurchase.Make (NewPurchase.supplier_id newPurchase)
      (NewPurchase.invoice_number newPurchase) items
      (NewPurchase.payment_status newPurchase)
      (NewPurchase.payment_method newPurchase) in
  match e with
  | PurchaseAdd product => addToPurchase product newPurchase
  | PurchaseRemove idx =>
      with_items
        (filter_index (λ i, negb (i =? idx)%nat) 0
           (NewPurchase.items newPurchase))
  | PurchaseQuantity idx qty =>
      with_items
        (edit_at idx
           (λ it, PurchaseCartItem.Make (PurchaseCartItem.product_id it)
                    (PurchaseCartItem.name it) qty
                    (PurchaseCartItem.unit_cost it)
                    (Some (qty * js_number (PurchaseCartItem.unit_cost it))
                       %float))
           (NewPurchase.items newPurchase))
  | PurchaseCost idx cost =>
      with_items
        (edit_at idx
           (λ it, PurchaseCartItem.Make (PurchaseCartItem.product_id it)
                    (PurchaseCartItem.name it)
                    (PurchaseCartItem.quantity it) (Some cost)
                    (Some (PurchaseCartItem.quantity it * cost)%float))
           (NewPurchase.items newPurchase))
  | PurchaseSupplier value =>
      NewPurchase.Make value (NewPurchase.invoice_number newPurchase)
        (NewPurchase.items newPurchase)
        (NewPurchase.payment_status newPurchase)
        (NewPurchase.payment_method newPurchase)
  | PurchaseInvoiceNumber value =>
      NewPurchase.Make (NewPurchase.supplier_id newPurchase) value
        (NewPurchase.items newPurchase)
        (NewPurchase.payment_status newPurchase)
        (NewPurchase.payment_method newPurchase)
  | PurchasePaymentMethod value =>
      NewPurchase.Make (NewPurchase.supplier_id newPurchase)
        (NewPurchase.invoice_number newPurchase)
        (NewPurchase.items newPurchase)
        (NewPurchase.payment_status newPurchase) value
  | PurchasePaymentStatus value =>
      NewPurchase.Make (NewPurchase.supplier_id newPurchase)
        (NewPurchase.invoice_number newPurchase)
        (NewPurchase.items newPurchase) (option_value value)
        (NewPurchase.payment_method newPurchase)
  end.

Definition purchase_form (events : list purchase_event) : NewPurchase.t :=
  foldl purchase_form_step NewPurchase.initial events.

Definition purchase_line_of (item : PurchaseCartItem.t) : PurchaseLine.t :=
  PurchaseLine.Make (Some (PurchaseCartItem.product_id item))
    (json_number (PurchaseCartItem.quantity item))
    (json_real (PurchaseCartItem.unit_cost item))
    (json_real (PurchaseCartItem.subtotal item)).

Definition purchase_subtotals (items : list PurchaseCartItem.t) : float :=
  foldl (λ sum item,
           (sum + js_number (PurchaseCartItem.subtotal item))%float)
        0%float items.

(** [submitPurchase()]: the request that it sends, if it sends one. *)
Definition submitPurchase (user : option Account.t)
    (newPurchase : NewPurchase.t) : option (M response) :=
  if (length (NewPurchase.items newPurchase) =? 0)%nat then None
  else if NewPurchase.supplier_id newPurchase =? 0 then None
  else
    Some (post_purchases (Some (NewPurchase.supplier_id newPurchase))
            (Account.id <$> user)
            (json_number (purchase_subtotals (NewPurchase.items newPurchase)))
            (Some (NewPurchase.payment_status newPurchase))
            (Some (purchase_line_of <$> NewPurchase.items newPurchase))).

(** The items of a form as the client keeps them: the subtotal of an item
    is its quantity times its unit price, null counting 0, or the item
    is as it was added, with the quantity 1 and the unit price (a number
    or null) as its subtotal; no two items name the same product. *)
Definition sale_items_ready (items : list SaleCartItem.t) : Prop :=
  Forall (λ item,
            SaleCartItem.subtotal item
            = Some (SaleCartItem.quantity item
                    * js_number (SaleCartItem.unit_price item))%float
            ∨ SaleCartItem.quantity item = 1%float
              ∧ SaleCartItem.subtotal item = SaleCartItem.unit_price item)
         items
  ∧ NoDup (SaleCartItem.product_id <$> items).

Definition purchase_items_ready (items : list PurchaseCartItem.t) : Prop :=
  Forall (λ item,
            PurchaseCartItem.subtotal item
            = Some (PurchaseCartItem.quantity item
                    * js_number (PurchaseCartItem.unit_cost item))%float
            ∨ PurchaseCartItem.quantity item = 1%float
              ∧ PurchaseCartItem.subtotal item
                = PurchaseCartItem.unit_cost item)
         items
  ∧ NoDup (PurchaseCartItem.product_id <$> items).

(** * Properties *)

(** ** The monad *)

Lemma world_eta w : w = World (db w) (pending w) (now w) (summation w).
Proof. by destruct w. Qed.

Lemma engine_fault_free {A} (stmt : world → store * outcome A) s t Σ :
  engine stmt (World s [] t Σ)
  = (World (stmt (World s [] t Σ)).1 [] t Σ, (stmt (World s [] t Σ)).2).
Proof. unfold engine; simpl. by destruct (stmt _). Qed.

Lemma stable_ret {A} (a : A) : stable (ret a).
Proof. intros s p t Σ w' a' [= <- <-]. done. Qed.

Lemma stable_throw {A} (e : error) : stable (@throw A e).
Proof. intros s p t Σ w' a' [=]. Qed.

Lemma stable_engine {A} (stmt : world → store * outcome A) :
  blind stmt → stable (engine stmt).
Proof.
  intros Hb s p t Σ w' a. rewrite engine_fault_free. unfold engine; simpl.
  destruct p as [|[] p]; simpl; try done.
  - destruct (stmt _) as [s' r]; simpl. intros [= <- ->]; done.
  - rewrite (Hb s (false :: p)).
    destruct (stmt _) as [s' r]; simpl. intros [= <- ->]; done.
Qed.

Lemma stable_bind {A B} (m : M A) (k : A → M B) :
  stable m → (∀ a, stable (k a)) → stable (bind m k).
Proof.
  intros Hm Hk s p t Σ w' b. unfold bind.
  destruct (m (World s p t Σ)) as [w1 [a|e]] eqn:E; [|done].
  destruct (Hm _ _ _ _ _ _ E) as (Hn & HΣ & ->).
  destruct w1 as [s1 p1 t1 Σ1]. simpl in *; subst t1 Σ1. apply Hk.
Qed.

Lemma stable_transaction {A} (m : M A) : stable m → stable (transaction m).
Proof.
  intros Hm s p t Σ w' a. unfold transaction.
  destruct (m (World s p t Σ)) as [w1 [a1|e]] eqn:E; [|done].
  intros [= <- <-]. destruct (Hm _ _ _ _ _ _ E) as (Hn & HΣ & ->). done.
Qed.

Lemma stable_for_each {A} (xs : list A) (body : A → M unit) :
  (∀ x, stable (body x)) → stable (for_each xs body).
Proof.
  intros Hb. induction xs as [|x xs IH]; simpl.
  - apply stable_ret.
  - apply stable_bind; auto.
Qed.

Lemma stable_for_of {A} (xs : option (list A)) (body : A → M unit) :
  (∀ x, stable (body x)) → stable (for_of xs body).
Proof.
  destruct xs; simpl; [apply stable_for_each | intros; apply stable_throw].
Qed.

Lemma stable_if {A} (b : bool) (m1 m2 : M A) :
  stable m1 → stable m2 → stable (if b then m1 else m2).
Proof. by destruct b. Qed.

Lemma stable_sql_insert {R} (T : tbl Z R) row : stable (sql_insert T row).
Proof. apply stable_engine. by intros s p t Σ. Qed.

Lemma stable_sql_insert_row {K R} `{Countable K} (T : tbl K R) k r :
  stable (sql_insert_row T k r).
Proof. apply stable_engine. by intros s p t Σ. Qed.

Lemma stable_sql_update {K R} `{Countable K} (T : tbl K R) f :
  stable (sql_update T f).
Proof. apply stable_engine. by intros s p t Σ. Qed.

Lemma stable_sql_delete_all {K R} `{Countable K} (T : tbl K R) :
  stable (sql_delete_all T).
Proof. apply stable_engine. by intros s p t Σ. Qed.

Lemma stable_sql_select {A} (q : store → A) : stable (sql_select q).
Proof. apply stable_engine. by intros s p t Σ. Qed.

Lemma stable_sql_select_sum {A} (q : (list float → float) → store → A) :
  stable (sql_select_sum q).
Proof. apply stable_engine. by intros s p t Σ. Qed.

Lemma stable_sql_insert_or_ignore {K R} `{Countable K} (T : tbl K R) k r :
  stable (sql_insert_or_ignore T k r).
Proof. apply stable_engine. by intros s p t Σ. Qed.

Lemma stable_sql_insert_or_replace {K R} `{Countable K} (T : tbl K R) k r :
  stable (sql_insert_or_replace T k r).
Proof. apply stable_engine. by intros s p t Σ. Qed.

Lemma stable_sql_update_row {K R} `{Countable K} (T : tbl K R) k f :
  stable (sql_update_row T k f).
Proof. apply stable_engine. by intros s p t Σ. Qed.

Ltac stable :=
  repeat first
    [ progress intros
    | apply stable_ret | apply stable_throw
    | apply stable_sql_insert | apply stable_sql_insert_row
    | apply stable_sql_update | apply stable_sql_delete_all
    | apply stable_sql_select | apply stable_sql_select_sum
    | apply stable_sql_insert_or_ignore | apply stable_sql_insert_or_replace
    | apply stable_sql_update_row
    | apply stable_bind | apply stable_transaction
    | apply stable_for_each | apply stable_for_of | apply stable_if
    | match goal with
      | |- stable (match ?x with _ => _ end) => destruct x
      end ].

Lemma stable_updateCustomerBalance c : stable (updateCustomerBalance c).
Proof. unfold updateCustomerBalance. stable. Qed.

Lemma stable_updateSupplierBalance c : stable (updateSupplierBalance c).
Proof. unfold updateSupplierBalance. stable. Qed.

Lemma stable_sale_unit c u total discount st pm items :
  stable (sale_unit c u total discount st pm items).
Proof.
  unfold sale_unit, sale_line. stable; apply stable_updateCustomerBalance.
Qed.

(** ** Keys *)

Lemma max_key_insert {R} (m : gmap Z R) k r :
  m !! k = None → max_key (<[k := r]> m) = Z.max k (max_key m).
Proof.
  intros Hk. unfold max_key.
  rewrite map_fold_insert_L; [done | intros; lia | done].
Qed.

Lemma max_key_nonneg {R} (m : gmap Z R) : 0 ≤ max_key m.
Proof.
  induction m as [|k r m Hk IH] using map_ind; [done|].
  rewrite max_key_insert by done. lia.
Qed.

Lemma max_key_ge {R} (m : gmap Z R) k r : m !! k = Some r → k ≤ max_key m.
Proof.
  induction m as [|k' r' m Hk IH] using map_ind; [done|].
  rewrite max_key_insert by done. intros [[-> _]|[_ H]]%lookup_insert_Some.
  - lia.
  - apply IH in H. lia.
Qed.

Lemma max_key_fresh {R} (m : gmap Z R) k : max_key m < k → m !! k = None.
Proof.
  intros Hlt. destruct (m !! k) as [r|] eqn:E; [|done].
  apply max_key_ge in E. lia.
Qed.

Lemma next_key_fresh {R} (T : tbl Z R) s k :
  next_key T s ≤ k → rows T s !! k = None.
Proof. unfold next_key. intros Hk. apply max_key_fresh. lia. Qed.

Lemma next_key_step {R} (T : tbl Z R) s s1 r :
  rows T s1 = <[next_key T s := r]> (rows T s) →
  seq_of (tname T) s1 = next_key T s →
  next_key T s1 = next_key T s + 1.
Proof.
  intros Hr Hs. unfold next_key at 1. rewrite Hr, Hs.
  rewrite max_key_insert by (apply next_key_fresh; lia).
  unfold next_key. lia.
Qed.

(** ** Constraints *)

Lemma admits_no_unique {K R} `{Countable K} (T : tbl K R) r (m : gmap K R) :
  (∀ r', conflict T r r' = false) → admits T r m = check T r.
Proof.
  intros Hc. unfold admits. rewrite bool_decide_eq_true_2.
  - apply andb_true_r.
  - intros k r' _. apply Hc.
Qed.

Lemma admits_spec {K R} `{Countable K} (T : tbl K R) r (m : gmap K R) :
  admits T r m = true
  ↔ check T r = true ∧ ∀ k r', m !! k = Some r' → conflict T r r' = false.
Proof.
  unfold admits. rewrite andb_true_iff, bool_decide_eq_true. done.
Qed.

(** The engine lets a row in exactly when the row passes the CHECK, its
    key is not taken, it clashes with no row and its references are
    met. *)
Lemma refusal_None {K R} `{Countable K} (T : tbl K R) taken r m s :
  refusal T taken r m s = None
  ↔ taken = false ∧ admits T r m = true ∧ parents T r s = true.
Proof.
  unfold refusal, admits.
  destruct (check T r), taken, (bool_decide _), (parents T r s); simpl;
    intuition congruence.
Qed.

Lemma refusal_plain {K R} `{Countable K} (T : tbl K R) r m s :
  (∀ r', conflict T r r' = false) →
  refusal T false r m s = None
  ↔ check T r = true ∧ parents T r s = true.
Proof.
  intros Hc. rewrite refusal_None, admits_no_unique by done. tauto.
Qed.

(** ** Statements on the fault-free engine *)

Lemma sql_insert_ok {R} (T : tbl Z R) (row : string → R) s t Σ :
  refusal T false (row t) (rows T s) s = None →
  sql_insert T row (World s [] t Σ)
  = (World (set_seq (tname T) (next_key T s)
              (set_rows T (<[next_key T s := row t]> (rows T s)) s)) [] t Σ,
     Ok (next_key T s)).
Proof.
  intros Ha. unfold sql_insert. rewrite engine_fault_free. simpl.
  by rewrite Ha.
Qed.

Lemma sql_insert_refused {R} (T : tbl Z R) (row : string → R) s t Σ c :
  refusal T false (row t) (rows T s) s = Some c →
  sql_insert T row (World s [] t Σ) = (World s [] t Σ, refuse c).
Proof.
  intros Ha. unfold sql_insert. rewrite engine_fault_free. simpl.
  by rewrite Ha.
Qed.

Lemma sql_update_ok {K R} `{Countable K} (T : tbl K R) f s t Σ :
  sql_update T f (World s [] t Σ)
  = (World (set_rows T (f (rows T s)) s) [] t Σ, Ok tt).
Proof. done. Qed.

Lemma sql_select_ok {A} (q : store → A) s t Σ :
  sql_select q (World s [] t Σ) = (World s [] t Σ, Ok (q s)).
Proof. done. Qed.

Lemma sql_select_sum_ok {A} (q : (list float → float) → store → A) s t Σ :
  sql_select_sum q (World s [] t Σ) = (World s [] t Σ, Ok (q Σ s)).
Proof. done. Qed.

Lemma bind_ok {A B} (m : M A) (k : A → M B) w w1 a :
  m w = (w1, Ok a) → bind m k w = k a w1.
Proof. intros E. unfold bind. by rewrite E. Qed.

Lemma bind_throw {A B} (m : M A) (k : A → M B) w w1 e :
  m w = (w1, Throw e) → bind m k w = (w1, Throw e).
Proof. intros E. unfold bind. by rewrite E. Qed.

(** A row that references what is stored. *)
Lemma has_alter {R} (f : R → R) k (m : gmap Z R) x :
  has (alter f k m) x = has m x.
Proof.
  destruct x as [j|]; [|done]. simpl. apply bool_decide_ext.
  destruct (decide (k = j)) as [->|Hne].
  - rewrite lookup_alter_eq. by rewrite fmap_is_Some.
  - by rewrite lookup_alter_ne.
Qed.

Lemma has_where_id {R} (f : R → R) id (m : gmap Z R) x :
  has (where_id id f m) x = has m x.
Proof. destruct id; [apply has_alter | done]. Qed.

Lemma has_insert {R} k (r : R) (m : gmap Z R) x :
  has m x = true → has (<[k := r]> m) x = true.
Proof.
  destruct x as [j|]; [|done]. simpl. rewrite !bool_decide_eq_true.
  intros Hj. destruct (decide (k = j)) as [->|Hne].
  - by rewrite lookup_insert_eq.
  - by rewrite lookup_insert_ne.
Qed.

Lemma has_inserted {R} k (r : R) (m : gmap Z R) :
  has (<[k := r]> m) (Some k) = true.
Proof. simpl. apply bool_decide_eq_true. by rewrite lookup_insert_eq. Qed.

(** ** Balances *)

Lemma sql_eq_true (x : ref) c : sql_eq x (Some c) = true ↔ x = Some c.
Proof.
  destruct x as [a|]; simpl; [|done]. rewrite Z.eqb_eq.
  split; [by intros -> | by intros [= ->]].
Qed.

Lemma case_type_if kind type amount :
  case_type kind type amount
  = if decide (type = Some kind) then amount else Some 0%float.
Proof. done. Qed.

(** What the Balance Recalculator reads and computes is what the party
    owes according to the log. *)
Lemma log_stats {R} Σ (party : R → ref) (type : R → text)
    (amount : R → real) plus minus c (m : gmap Z R) :
  let stats :=
    sql_sums Σ type amount plus minus
      (filter (λ kr, sql_eq (party kr.2) (Some c) = true) (scan m)) in
  (js_or0 stats.1, js_or0 stats.2)
  = (log_total Σ type amount plus (rows_of party c m),
     log_total Σ type amount minus (rows_of party c m)).
Proof.
  simpl. unfold log_total, rows_of.
  rewrite (list_filter_iff _ (λ kr : Z * R, party kr.2 = Some c))
    by (intros; apply sql_eq_true).
  by rewrite <- !list_fmap_compose.
Qed.

Lemma updateCustomerBalance_ok c s t Σ :
  updateCustomerBalance (Some c) (World s [] t Σ)
  = (World (set_customers
              (alter (customer_owing (customer_due Σ c (transactions s)))
                     c (customers s)) s) [] t Σ, Ok tt).
Proof.
  unfold updateCustomerBalance.
  rewrite (bind_ok _ _ _ _ _ (sql_select_sum_ok _ s t Σ)).
  rewrite sql_update_ok. simpl. unfold customer_due.
  pose proof (log_stats Σ Transaction.customer_id Transaction.type
                Transaction.amount "sale" "payment" c (transactions s))
    as E.
  simpl in E. injection E as -> ->. done.
Qed.

Lemma updateSupplierBalance_ok c s t Σ :
  updateSupplierBalance (Some c) (World s [] t Σ)
  = (World (set_suppliers
              (alter (supplier_owed
                        (supplier_due Σ c (supplier_transactions s)))
                     c (suppliers s)) s) [] t Σ, Ok tt).
Proof.
  unfold updateSupplierBalance.
  rewrite (bind_ok _ _ _ _ _ (sql_select_sum_ok _ s t Σ)).
  rewrite sql_update_ok. simpl. unfold supplier_due.
  pose proof (log_stats Σ SupplierTransaction.supplier_id
                SupplierTransaction.type SupplierTransaction.amount
                "purchase" "payment" c (supplier_transactions s)) as E.
  simpl in E. injection E as -> ->. done.
Qed.

(** With no party named, the recalculation finds no row and updates
    none. *)
Lemma updateCustomerBalance_none s t Σ :
  updateCustomerBalance None (World s [] t Σ)
  = (World (set_customers (customers s) s) [] t Σ, Ok tt).
Proof. done. Qed.

Lemma updateSupplierBalance_none s t Σ :
  updateSupplierBalance None (World s [] t Σ)
  = (World (set_suppliers (suppliers s) s) [] t Σ, Ok tt).
Proof. done. Qed.

(** ** The lines of a sale *)

Lemma product_with_id r :
  product_with (Product.cost r) (Product.stock_quantity r) r = r.
Proof. by destruct r. Qed.

Lemma stock_after_sale_cons p item items q :
  stock_after_sale p (item :: items) q
  = stock_after_sale p items
      (if decide (SaleLine.product_id item = Some p)
       then sql_sub q (SaleLine.quantity item) else q).
Proof. done. Qed.

Lemma sale_line_ok id item s t Σ :
  has (sales s) (Some id) = true →
  has (products s) (SaleLine.product_id item) = true →
  sale_line id item (World s [] t Σ)
  = (World
       (set_products
          (where_id (SaleLine.product_id item)
             (λ p, product_with (Product.cost p)
                     (sql_sub (Product.stock_quantity p)
                        (SaleLine.quantity item)) p)
             (products s))
          (set_seq "sale_items" (next_key t_sale_items s)
             (set_sale_items
                (<[next_key t_sale_items s :=
                     SaleItem.Make (Some id) (SaleLine.product_id item)
                       (SaleLine.quantity item) (SaleLine.unit_price item)
                       (SaleLine.subtotal item)]> (sale_items s)) s)))
       [] t Σ, Ok tt).
Proof.
  intros Hs Hp. unfold sale_line, bind.
  rewrite sql_insert_ok; [done|].
  apply refusal_plain; [done|]. split; [done|].
  change (has (sales s) (Some id)
          && has (products s) (SaleLine.product_id item) = true).
  by rewrite Hs, Hp.
Qed.

Lemma sale_line_refused id item s t Σ :
  has (products s) (SaleLine.product_id item) = false →
  ∃ e, sale_line id item (World s [] t Σ) = (World s [] t Σ, Throw e).
Proof.
  intros Hp. unfold sale_line.
  destruct (refusal t_sale_items false
              (SaleItem.Make (Some id) (SaleLine.product_id item)
                 (SaleLine.quantity item) (SaleLine.unit_price item)
                 (SaleLine.subtotal item)) (sale_items s) s) as [c|] eqn:E.
  - exists (SqliteConstraint c).
    by rewrite (bind_throw _ _ _ _ _
                  (sql_insert_refused t_sale_items _ s t Σ c E)).
  - apply refusal_None in E as (_ & _ & E).
    change (has (sales s) (Some id)
            && has (products s) (SaleLine.product_id item) = true) in E.
    rewrite Hp in E. by rewrite andb_false_r in E.
Qed.

Lemma sale_lines_effect id items s t Σ :
  has (sales s) (Some id) = true →
  Forall (λ item, has (products s) (SaleLine.product_id item) = true)
    items →
  ∃ s',
    for_each items (sale_line id) (World s [] t Σ)
    = (World s' [] t Σ, Ok tt)
    ∧ (∀ (i : nat) item, items !! i = Some item →
         sale_items s' !! (next_key t_sale_items s + Z.of_nat i)
         = Some (SaleItem.Make (Some id) (SaleLine.product_id item)
                   (SaleLine.quantity item) (SaleLine.unit_price item)
                   (SaleLine.subtotal item)))
    ∧ (∀ k, ¬ (next_key t_sale_items s ≤ k
               < next_key t_sale_items s + Z.of_nat (length items)) →
         sale_items s' !! k = sale_items s !! k)
    ∧ (∀ p, products s' !! p
            = (λ r, product_with (Product.cost r)
                      (stock_after_sale p items (Product.stock_quantity r))
                      r)
              <$> products s !! p)
    ∧ s' = set_sqlite_sequence (sqlite_sequence s')
             (set_products (products s')
                (set_sale_items (sale_items s') s)).
Proof.
  revert s. induction items as [|item items IH]; intros s Hs Hok.
  - exists s. split; [done|]. split; [done|]. split; [done|]. split.
    + intros p. simpl. destruct (products s !! p) as [r|]; [|done].
      simpl. by rewrite product_with_id.
    + by destruct s.
  - apply Forall_cons in Hok as [Hitem Hok]. cbn [for_each].
    rewrite (bind_ok _ _ _ _ _ (sale_line_ok id item s t Σ Hs Hitem)).
    set (n := next_key t_sale_items s).
    set (s1 := set_products _ _).
    destruct (IH s1) as (s' & Hrun & Hitems & Hold & Hstock & Hframe).
    { subst s1. simpl in *. done. }
    { eapply Forall_impl; [exact Hok|]. intros x Hx. subst s1; simpl.
      by rewrite has_where_id. }
    assert (Hn1 : next_key t_sale_items s1 = n + 1).
    { eapply next_key_step; [done|].
      unfold seq_of; simpl. by rewrite lookup_insert_eq. }
    rewrite Hn1 in Hitems, Hold.
    exists s'. split; [done|]. split; [|split; [|split]].
    + intros [|i] item' Hi; simpl in Hi.
      * injection Hi as <-. rewrite Hold by lia.
        subst s1; simpl. rewrite Z.add_0_r. apply lookup_insert_eq.
      * rewrite <- (Hitems i item' Hi). f_equal. lia.
    + intros k Hk. simpl in Hk. rewrite Hold by lia.
      subst s1; simpl. apply lookup_insert_ne. lia.
    + intros p. rewrite Hstock.
      change (products s1)
        with (where_id (SaleLine.product_id item)
                (λ p, product_with (Product.cost p)
                        (sql_sub (Product.stock_quantity p)
                           (SaleLine.quantity item)) p)
                (products s)).
      destruct (SaleLine.product_id item) as [q|] eqn:Hq;
        [destruct (decide (q = p)) as [->|Hne]|]; unfold where_id.
      * rewrite lookup_alter_eq.
        destruct (products s !! p) as [r|]; [|done].
        cbn [fmap option_fmap option_map]. apply (f_equal Some).
        rewrite stock_after_sale_cons, Hq, decide_True by done.
        by destruct r.
      * rewrite lookup_alter_ne by done.
        destruct (products s !! p) as [r|]; [|done].
        cbn [fmap option_fmap option_map]. apply (f_equal Some).
        rewrite stock_after_sale_cons, Hq, decide_False by congruence.
        done.
      * destruct (products s !! p) as [r|]; [|done].
        cbn [fmap option_fmap option_map]. apply (f_equal Some).
        rewrite stock_after_sale_cons, Hq, decide_False by congruence.
        done.
    + rewrite Hframe. subst s1. by destruct s.
Qed.

(** A line that names a product that is not stored stops the loop. *)
Lemma sale_lines_throw id items s t Σ :
  has (sales s) (Some id) = true →
  ¬ Forall (λ item, has (products s) (SaleLine.product_id item) = true)
      items →
  ∃ w' e, for_each items (sale_line id) (World s [] t Σ) = (w', Throw e).
Proof.
  revert s. induction items as [|item items IH]; intros s Hs Hbad.
  - destruct Hbad. constructor.
  - simpl.
    destruct (has (products s) (SaleLine.product_id item)) eqn:Hitem.
    + rewrite (bind_ok _ _ _ _ _ (sale_line_ok id item s t Σ Hs Hitem)).
      apply IH; [done|]. intros Hok. apply Hbad. constructor; [done|].
      eapply Forall_impl; [exact Hok|]. intros x Hx. simpl in Hx.
      by rewrite has_where_id in Hx.
    + destruct (sale_line_refused id item s t Σ Hitem) as [e He].
      exists (World s [] t Σ), e. by rewrite (bind_throw _ _ _ _ _ He).
Qed.

(** ** Handlers that run one unit in a transaction *)

(** Either the unit returned, and then it returns the same on the
    fault-free engine, or the database is what it was. *)
Lemma atomic_handler {A} (unit : M A) (reply : A → response) code w :
  stable unit →
  (∃ w' a,
     try_catch (let* a := transaction unit in ret (reply a))
               (λ e, ret (json_error code e)) w = (w', Ok (reply a))
     ∧ unit (World (db w) [] (now w) (summation w))
       = (World (db w') [] (now w) (summation w), Ok a))
  ∨ (∃ w' e,
       try_catch (let* a := transaction unit in ret (reply a))
                 (λ e, ret (json_error code e)) w
       = (w', Ok (json_error code e))
       ∧ db w' = db w).
Proof.
  intros Hs. unfold try_catch, bind, transaction.
  destruct (unit w) as [w1 [a|e]] eqn:E.
  - left. exists w1, a. split; [done|].
    rewrite (world_eta w) in E. by apply Hs in E as (_ & _ & E).
  - right. eexists _, e. split; [done|]. done.
Qed.

Lemma atomic_handler_ok {A} (unit : M A) (reply : A → response) code w w' a :
  unit w = (w', Ok a) →
  try_catch (let* a := transaction unit in ret (reply a))
            (λ e, ret (json_error code e)) w = (w', Ok (reply a)).
Proof. intros E. unfold try_catch, bind, transaction. by rewrite E. Qed.

Lemma atomic_handler_refused {A} (unit : M A) (reply : A → response) code
    w w' e :
  unit w = (w', Throw e) →
  try_catch (let* a := transaction unit in ret (reply a))
            (λ e, ret (json_error code e)) w
  = (World (db w) (pending w') (now w') (summation w'),
     Ok (json_error code e)).
Proof. intros E. unfold try_catch, bind, transaction. by rewrite E. Qed.

(** ** Sales *)

Lemma refusal_cases {K R} `{Countable K} (T : tbl K R) taken r m s :
  refusal T taken r m s = None ∨ ∃ c, refusal T taken r m s = Some c.
Proof. destruct (refusal T taken r m s); eauto. Qed.

(** The header of a sale passes exactly when its payment status, its
    customer and its user do. *)
Lemma sale_header_refusal cid u total discount st pm t s :
  refusal t_sales false (Sale.Make cid u total discount st pm (Some t))
    (sales s) s = None
  ↔ one_of ["paid"; "partial"; "unpaid"] st = true
    ∧ has (customers s) cid = true ∧ has (users s) u = true.
Proof.
  rewrite refusal_plain by done.
  change (one_of ["paid"; "partial"; "unpaid"] st = true
          ∧ has (customers s) cid && has (users s) u = true ↔
          one_of ["paid"; "partial"; "unpaid"] st = true
          ∧ has (customers s) cid = true ∧ has (users s) u = true).
  by rewrite andb_true_iff.
Qed.

(** The statements of a sale before the loop over its lines. *)
Lemma sale_unit_prefix cid u total discount st pm items s t Σ :
  one_of ["paid"; "partial"; "unpaid"] st = true →
  has (customers s) cid = true →
  has (users s) u = true →
  let id := next_key t_sales s in
  ∃ s1,
    sale_unit cid u total discount st pm items (World s [] t Σ)
    = (let* _ := for_of items (sale_line id) in ret id) (World s1 [] t Σ)
    ∧ sales s !! id = None
    ∧ sales s1
      = <[id := Sale.Make cid u total discount st pm (Some t)]> (sales s)
    ∧ products s1 = products s
    ∧ sale_items s1 = sale_items s
    ∧ (if truthy cid
       then ∃ c, cid = Some c ∧ sale_posted Σ c total st id t s s1
       else transactions s1 = transactions s ∧ customers s1 = customers s)
    ∧ beside_sale s s1.
Proof.
  intros Hst Hcu Hu id. unfold sale_unit.
  unfold bind at 1.
  rewrite sql_insert_ok by (by apply sale_header_refusal).
  fold id. set (s1 := set_seq _ _ _).
  assert (Hid : sales s !! id = None)
    by (apply (next_key_fresh t_sales); subst id; lia).
  destruct (truthy cid) eqn:Hc.
  - destruct cid as [c|]; [|done].
    unfold bind at 1. unfold bind at 1.
    rewrite sql_insert_ok.
    2:{ apply refusal_plain; [done|]. split; [done|].
        subst s1. simpl in *. done. }
    set (k := next_key t_transactions s1).
    set (s2 := set_seq _ _ _).
    assert (Hk : ∀ k', k ≤ k' → transactions s !! k' = None)
      by (intros k' Hk'; by apply (next_key_fresh t_transactions s1)).
    unfold bind at 1.
    destruct (decide (st = Some "paid")) as [Hp|Hp].
    + unfold bind at 1. rewrite sql_insert_ok.
      2:{ apply refusal_plain; [done|]. split; [done|].
          subst s2 s1. simpl in *. done. }
      rewrite (next_key_step t_transactions s1 s2 _ eq_refl)
        by (unfold seq_of; simpl; by rewrite lookup_insert_eq).
      fold k. set (s3 := set_seq _ _ _).
      unfold ret at 1. rewrite updateCustomerBalance_ok.
      set (s4 := set_customers _ _).
      exists s4. split; [done|]. split; [done|]. split; [done|].
      split; [done|]. split; [done|]. split; [|done].
      exists c. split; [done|]. exists k. split; [done|].
      rewrite decide_True by done. done.
    + unfold ret at 1. rewrite updateCustomerBalance_ok.
      set (s4 := set_customers _ _).
      exists s4. split; [done|]. split; [done|]. split; [done|].
      split; [done|]. split; [done|]. split; [|done].
      exists c. split; [done|]. exists k. split; [done|].
      rewrite decide_False by done. done.
  - unfold bind at 1. unfold ret at 1.
    exists s1. by repeat split.
Qed.

(** A sale that the engine accepts commits on the fault-free engine, with
    this effect. *)
Lemma sale_unit_ok cid u total discount st pm items s t Σ :
  sale_accepted cid u st items s →
  ∃ s',
    sale_unit cid u total discount st pm (Some items) (World s [] t Σ)
    = (World s' [] t Σ, Ok (next_key t_sales s))
    ∧ sale_recorded Σ cid u total discount st pm items t s s'
        (next_key t_sales s).
Proof.
  intros (Hst & Hcu & Hu & Hitems).
  destruct (sale_unit_prefix cid u total discount st pm (Some items) s t Σ
              Hst Hcu Hu)
    as (s1 & -> & Hid & Hsales & Hprod & Hsi & Hled & Hrest).
  set (id := next_key t_sales s) in *.
  destruct (sale_lines_effect id items s1 t Σ)
    as (s' & Hrun & Hrows & Hold & Hstock & Hframe).
  { rewrite Hsales. apply has_inserted. }
  { by rewrite Hprod. }
  cbn [for_of]. rewrite (bind_ok _ _ _ _ _ Hrun).
  exists s'. split; [done|].
  assert (Hs' : sales s' = sales s1 ∧ transactions s' = transactions s1
                ∧ customers s' = customers s1 ∧ beside_sale s1 s')
    by (rewrite Hframe; by repeat split).
  destruct Hs' as (Es & Et & Ec & Eb).
  split; [done|]. split; [by rewrite Es|]. split.
  { exists (next_key t_sale_items s1). split.
    - intros k Hk. rewrite <- Hsi. by apply (next_key_fresh t_sale_items).
    - split; [done|]. intros k Hk. rewrite <- Hsi. by apply Hold. }
  split; [intros p; by rewrite Hstock, Hprod|]. split.
  - destruct (truthy cid).
    + destruct Hled as (c & -> & k & Hk & Htx & Hcust).
      exists c. split; [done|]. exists k. split; [done|].
      by rewrite Et, Ec.
    + by rewrite Et, Ec.
  - unfold beside_sale in *.
    destruct Hrest as (? & ? & ? & ? & ? & ? & ? & ? & ? & ?).
    destruct Eb as (? & ? & ? & ? & ? & ? & ? & ? & ? & ?).
    repeat split; congruence.
Qed.

(** A sale that the engine does not accept throws. *)
Lemma sale_unit_refused cid u total discount st pm items s t Σ :
  ¬ sale_accepted cid u st items s →
  ∃ w' e,
    sale_unit cid u total discount st pm (Some items) (World s [] t Σ)
    = (w', Throw e).
Proof.
  intros Hno.
  destruct (refusal_cases t_sales false
              (Sale.Make cid u total discount st pm (Some t)) (sales s) s)
    as [E|[c E]].
  - apply sale_header_refusal in E as (Hst & Hcu & Hu).
    destruct (sale_unit_prefix cid u total discount st pm (Some items) s t
                Σ Hst Hcu Hu)
      as (s1 & -> & Hid & Hsales & Hprod & _).
    destruct (sale_lines_throw (next_key t_sales s) items s1 t Σ)
      as (w' & e & Hrun).
    { rewrite Hsales. apply has_inserted. }
    { rewrite Hprod. intros Hitems. by apply Hno. }
    exists w', e. cbn [for_of]. by rewrite (bind_throw _ _ _ _ _ Hrun).
  - exists (World s [] t Σ), (SqliteConstraint c). unfold sale_unit.
    by rewrite (bind_throw _ _ _ _ _
                  (sql_insert_refused t_sales _ s t Σ c E)).
Qed.

(** Without [items] the loop throws, whatever came before. *)
Lemma sale_unit_no_items cid u total discount st pm s t Σ :
  ∃ w' e,
    sale_unit cid u total discount st pm None (World s [] t Σ)
    = (w', Throw e).
Proof.
  destruct (refusal_cases t_sales false
              (Sale.Make cid u total discount st pm (Some t)) (sales s) s)
    as [E|[c E]].
  - apply sale_header_refusal in E as (Hst & Hcu & Hu).
    destruct (sale_unit_prefix cid u total discount st pm None s t Σ
                Hst Hcu Hu) as (s1 & -> & _).
    by eexists _, _.
  - exists (World s [] t Σ), (SqliteConstraint c). unfold sale_unit.
    by rewrite (bind_throw _ _ _ _ _
                  (sql_insert_refused t_sales _ s t Σ c E)).
Qed.

(** What POST /api/sales answers, and what a 200 stands for. *)
Lemma post_sales_answer customer_id user_id total_amount discount
    payment_status payment_method items w :
  ∃ w' resp,
    post_sales customer_id user_id total_amount discount payment_status
      payment_method (Some items) w = (w', Ok resp)
    ∧ (fault_free w →
       (status resp = 200
        ↔ sale_accepted customer_id user_id payment_status items (db w)))
    ∧ (status resp = 200 →
       ∃ id,
         payload resp = Id id
         ∧ sale_recorded (summation w) customer_id user_id total_amount
             discount payment_status payment_method items (now w) (db w)
             (db w') id)
    ∧ (status resp ≠ 200 → status resp = 400 ∧ db w' = db w).
Proof.
  unfold post_sales.
  destruct (atomic_handler
              (sale_unit customer_id user_id total_amount discount
                 payment_status payment_method (Some items))
              (λ id, json (Id id)) 400 w
              (stable_sale_unit _ _ _ _ _ _ _))
    as [(w' & id & Hh & Hu)|(w' & e & Hh & Hdb)].
  - exists w', (json (Id id)). split; [done|].
    destruct (decide (sale_accepted customer_id user_id payment_status
                        items (db w))) as [Hacc|Hno].
    + destruct (sale_unit_ok customer_id user_id total_amount discount
                  payment_status payment_method items (db w) (now w)
                  (summation w) Hacc) as (s' & Hrun & Hrec).
      rewrite Hrun in Hu. injection Hu as <- <-.
      split; [done|]. split; [|done]. intros _. by exists (next_key t_sales (db w)).
    + destruct (sale_unit_refused customer_id user_id total_amount discount
                  payment_status payment_method items (db w) (now w)
                  (summation w) Hno) as (w2 & e & Hrun).
      rewrite Hrun in Hu. done.
  - exists w', (json_error 400 e). split; [done|]. split; [|done].
    intros Hff. split; [done|]. intros Hacc. exfalso.
    destruct (sale_unit_ok customer_id user_id total_amount discount
                payment_status payment_method items (db w) (now w)
                (summation w) Hacc) as (s' & Hrun & Hrec).
    unfold fault_free in Hff. rewrite (world_eta w), Hff in Hh.
    rewrite (atomic_handler_ok _ _ _ _ _ _ Hrun) in Hh. done.
Qed.



(** C10.  A sale whose request names no customer (the field is null
    or 0) inserts no Transaction row and leaves the customers table as
    it was, balances included; of all the tables only sales, sale_items
    and products can differ afterwards.  This holds whatever the engine
    does and whatever the answer is. *)
Theorem C10_sale_without_customer customer_id user_id total_amount discount
    payment_status payment_method items w w' resp :
  truthy customer_id = false →
  post_sales customer_id user_id total_amount discount payment_status
    payment_method items w = (w', Ok resp) →
  transactions (db w') = transactions (db w)
  ∧ customers (db w') = customers (db w)
  ∧ beside_sale (db w) (db w').
Proof.
  intros Hc Hrun. unfold post_sales in Hrun.
  destruct (atomic_handler
              (sale_unit customer_id user_id total_amount discount
                 payment_status payment_method items)
              (λ id, json (Id id)) 400 w
              (stable_sale_unit _ _ _ _ _ _ _))
    as [(w1 & id & Hh & Hu)|(w1 & e & Hh & Hdb)];
    rewrite Hh in Hrun; injection Hrun as <- <-.
  - destruct items as [items|].
    + destruct (decide (sale_accepted customer_id user_id payment_status
                          items (db w))) as [Hacc|Hno].
      * destruct (sale_unit_ok customer_id user_id total_amount discount
                    payment_status payment_method items (db w) (now w)
                    (summation w) Hacc) as (s' & Hrun & Hrec).
        rewrite Hrun in Hu. injection Hu as <- <-.
        destruct Hrec as (_ & _ & _ & _ & Hled & Hrest).
        rewrite Hc in Hled. by destruct Hled.
      * destruct (sale_unit_refused customer_id user_id total_amount
                    discount payment_status payment_method items (db w)
                    (now w) (summation w) Hno) as (w2 & e & Hrun).
        rewrite Hrun in Hu. done.
    + destruct (sale_unit_no_items customer_id user_id total_amount
                  discount payment_status payment_method (db w) (now w)
                  (summation w))
        as (w2 & e & Hno).
      rewrite Hno in Hu. done.
  - rewrite Hdb. by repeat split.
Qed.

(** In the shop: a sale with [customer_id] null. *)
Lemma C10_sale_without_customer_witness :
  let answer :=
    post_sales None (Some 1) (num 20) (num 0) (Some "paid") (Some "Cash")
      (Some [SaleLine.Make (Some 1) (num 2) (num 10) (num 20)]) shop in
  truthy None = false
  ∧ answer.2 = Ok (json (Id 1))
  ∧ transactions (db answer.1) = transactions (db shop)
  ∧ customers (db answer.1) = customers (db shop)
  ∧ beside_sale (db shop) (db answer.1).
Proof.
  intros answer. split; [reflexivity|]. split; [vm_compute; reflexivity|].
  apply (C10_sale_without_customer None (Some 1) (num 20) (num 0)
           (Some "paid") (Some "Cash")
           (Some [SaleLine.Make (Some 1) (num 2) (num 10) (num 20)]) shop
           answer.1 (json (Id 1))).
  - reflexivity.
  - vm_compute. reflexivity.
Defined.

(** C8.  The line [{quantity 2, unit_price 10, subtotal 999}] is stored as
    it comes: the subtotal of the stored row is not quantity times unit
    price. *)
Lemma C8_counterexample :
  let answer :=
    post_sales None (Some 1) (num 999) (num 0) (Some "paid") (Some "Cash")
      (Some [SaleLine.Make (Some 1) (num 2) (num 10) (num 999)]) shop in
  answer.2 = Ok (json (Id 1))
  ∧ ∃ r, sale_items (db answer.1) !! 1 = Some r
         ∧ SaleItem.quantity r = num 2
         ∧ SaleItem.unit_price r = num 10
         ∧ SaleItem.subtotal r = num 999
         ∧ times (SaleItem.quantity r) (SaleItem.unit_price r) = num 20
         ∧ SaleItem.subtotal r
           ≠ times (SaleItem.quantity r) (SaleItem.unit_price r).
Proof.
  split; [by vm_compute|].
  exists (SaleItem.Make (Some 1) (Some 1) (num 2) (num 10) (num 999)).
  split; [by vm_compute|]. split; [done|]. split; [done|].
  split; [done|]. split; [by vm_compute|].
  intros E. apply (f_equal (λ x, PrimFloat.eqb (js_number x) 20)) in E.
  vm_compute in E. discriminate E.
Qed.

(** C8, amended.  Every SaleItem row that a sale answered 200 has stored
    carries the quantity, the unit price and the subtotal of one line of
    the request, unchanged; its subtotal is quantity times unit price
    exactly when the subtotal of that line is. *)
Theorem C8_sale_item_as_requested customer_id user_id total_amount discount
    payment_status payment_method items w w' resp k r :
  post_sales customer_id user_id total_amount discount payment_status
    payment_method (Some items) w = (w', Ok resp) →
  status resp = 200 →
  sale_items (db w) !! k = None →
  sale_items (db w') !! k = Some r →
  ∃ item,
    item ∈ items
    ∧ SaleItem.quantity r = SaleLine.quantity item
    ∧ SaleItem.unit_price r = SaleLine.unit_price item
    ∧ SaleItem.subtotal r = SaleLine.subtotal item
    ∧ (SaleItem.subtotal r
       = times (SaleItem.quantity r) (SaleItem.unit_price r)
       ↔ SaleLine.subtotal item
         = times (SaleLine.quantity item) (SaleLine.unit_price item)).
Proof.
  intros Hrun Hok Hnew Hrow.
  destruct (post_sales_answer customer_id user_id total_amount discount
              payment_status payment_method items w)
    as (w1 & resp1 & Hrun1 & _ & Heff & _).
  rewrite Hrun1 in Hrun. injection Hrun as -> ->.
  destruct (Heff Hok) as (id & _ & _ & _ & (first & Hfresh & Hitems & Hold)
                          & _).
  destruct (decide (first ≤ k < first + Z.of_nat (length items)))
    as [Hin|Hout].
  - destruct (lookup_lt_is_Some_2 items (Z.to_nat (k - first)))
      as [item Hitem]; [lia|].
    specialize (Hitems _ _ Hitem).
    replace (first + Z.of_nat (Z.to_nat (k - first))) with k in Hitems
      by lia.
    rewrite Hitems in Hrow. injection Hrow as <-. simpl.
    exists item. split; [by eapply list_elem_of_lookup_2|]. done.
  - rewrite Hold, Hnew in Hrow by done. done.
Qed.

(** In the shop: the row stored for the line of the example above. *)
Lemma C8_sale_item_as_requested_witness :
  let answer :=
    post_sales None (Some 1) (num 999) (num 0) (Some "paid") (Some "Cash")
      (Some [SaleLine.Make (Some 1) (num 2) (num 10) (num 999)]) shop in
  ∃ item,
    item ∈ [SaleLine.Make (Some 1) (num 2) (num 10) (num 999)]
    ∧ num 2 = SaleLine.quantity item
    ∧ num 10 = SaleLine.unit_price item
    ∧ num 999 = SaleLine.subtotal item
    ∧ (num 999 = times (num 2) (num 10)
       ↔ SaleLine.subtotal item
         = times (SaleLine.quantity item) (SaleLine.unit_price item)).
Proof.
  intros answer.
  apply (C8_sale_item_as_requested None (Some 1) (num 999) (num 0)
           (Some "paid") (Some "Cash")
           [SaleLine.Make (Some 1) (num 2) (num 10) (num 999)] shop
           answer.1 (json (Id 1)) 1
           (SaleItem.Make (Some 1) (Some 1) (num 2) (num 10) (num 999))).
  - vm_compute. reflexivity.
  - reflexivity.
  - vm_compute. reflexivity.
  - vm_compute. reflexivity.
Defined.

(** ** Purchases *)

Lemma stable_purchase_unit c u total st items :
  stable (purchase_unit c u total st items).
Proof.
  unfold purchase_unit, purchase_line. stable;
    apply stable_updateSupplierBalance.
Qed.

Lemma stock_after_purchase_cons p item items q :
  stock_after_purchase p (item :: items) q
  = stock_after_purchase p items
      (if decide (PurchaseLine.product_id item = Some p)
       then sql_add q (PurchaseLine.quantity item) else q).
Proof. done. Qed.

Lemma cost_after_purchase_cons p item items c :
  cost_after_purchase p (item :: items) c
  = cost_after_purchase p items
      (if decide (PurchaseLine.product_id item = Some p)
       then PurchaseLine.unit_cost item else c).
Proof. done. Qed.

Lemma purchase_line_ok id item s t Σ :
  has (purchases s) (Some id) = true →
  has (products s) (PurchaseLine.product_id item) = true →
  purchase_line id item (World s [] t Σ)
  = (World
       (set_products
          (where_id (PurchaseLine.product_id item)
             (λ p, product_with (PurchaseLine.unit_cost item)
                     (sql_add (Product.stock_quantity p)
                        (PurchaseLine.quantity item)) p)
             (products s))
          (set_seq "purchase_items" (next_key t_purchase_items s)
             (set_purchase_items
                (<[next_key t_purchase_items s :=
                     PurchaseItem.Make (Some id)
                       (PurchaseLine.product_id item)
                       (PurchaseLine.quantity item)
                       (PurchaseLine.unit_cost item)
                       (PurchaseLine.subtotal item)]> (purchase_items s))
                s)))
       [] t Σ, Ok tt).
Proof.
  intros Hs Hp. unfold purchase_line, bind.
  rewrite sql_insert_ok; [done|].
  apply refusal_plain; [done|]. split; [done|].
  change (has (purchases s) (Some id)
          && has (products s) (PurchaseLine.product_id item) = true).
  by rewrite Hs, Hp.
Qed.

Lemma purchase_line_refused id item s t Σ :
  has (products s) (PurchaseLine.product_id item) = false →
  ∃ e, purchase_line id item (World s [] t Σ) = (World s [] t Σ, Throw e).
Proof.
  intros Hp. unfold purchase_line.
  destruct (refusal t_purchase_items false
              (PurchaseItem.Make (Some id) (PurchaseLine.product_id item)
                 (PurchaseLine.quantity item) (PurchaseLine.unit_cost item)
                 (PurchaseLine.subtotal item)) (purchase_items s) s)
    as [c|] eqn:E.
  - exists (SqliteConstraint c).
    by rewrite (bind_throw _ _ _ _ _
                  (sql_insert_refused t_purchase_items _ s t Σ c E)).
  - apply refusal_None in E as (_ & _ & E).
    change (has (purchases s) (Some id)
            && has (products s) (PurchaseLine.product_id item) = true)
      in E.
    rewrite Hp in E. by rewrite andb_false_r in E.
Qed.

Lemma purchase_lines_effect id items s t Σ :
  has (purchases s) (Some id) = true →
  Forall (λ item, has (products s) (PurchaseLine.product_id item) = true)
    items →
  ∃ s',
    for_each items (purchase_line id) (World s [] t Σ)
    = (World s' [] t Σ, Ok tt)
    ∧ (∀ (i : nat) item, items !! i = Some item →
         purchase_items s' !! (next_key t_purchase_items s + Z.of_nat i)
         = Some (PurchaseItem.Make (Some id) (PurchaseLine.product_id item)
                   (PurchaseLine.quantity item)
                   (PurchaseLine.unit_cost item)
                   (PurchaseLine.subtotal item)))
    ∧ (∀ k, ¬ (next_key t_purchase_items s ≤ k
               < next_key t_purchase_items s + Z.of_nat (length items)) →
         purchase_items s' !! k = purchase_items s !! k)
    ∧ (∀ p, products s' !! p
            = (λ r, product_with
                      (cost_after_purchase p items (Product.cost r))
                      (stock_after_purchase p items
                         (Product.stock_quantity r)) r)
              <$> products s !! p)
    ∧ s' = set_sqlite_sequence (sqlite_sequence s')
             (set_products (products s')
                (set_purchase_items (purchase_items s') s)).
Proof.
  revert s. induction items as [|item items IH]; intros s Hs Hok.
  - exists s. split; [done|]. split; [done|]. split; [done|]. split.
    + intros p. simpl. destruct (products s !! p) as [r|]; [|done].
      simpl. by rewrite product_with_id.
    + by destruct s.
  - apply Forall_cons in Hok as [Hitem Hok]. cbn [for_each].
    rewrite (bind_ok _ _ _ _ _ (purchase_line_ok id item s t Σ Hs Hitem)).
    set (n := next_key t_purchase_items s).
    set (s1 := set_products _ _).
    destruct (IH s1) as (s' & Hrun & Hitems & Hold & Hstock & Hframe).
    { subst s1. simpl in *. done. }
    { eapply Forall_impl; [exact Hok|]. intros x Hx. subst s1; simpl.
      by rewrite has_where_id. }
    assert (Hn1 : next_key t_purchase_items s1 = n + 1).
    { eapply next_key_step; [done|].
      unfold seq_of; simpl. by rewrite lookup_insert_eq. }
    rewrite Hn1 in Hitems, Hold.
    exists s'. split; [done|]. split; [|split; [|split]].
    + intros [|i] item' Hi; simpl in Hi.
      * injection Hi as <-. rewrite Hold by lia.
        subst s1; simpl. rewrite Z.add_0_r. apply lookup_insert_eq.
      * rewrite <- (Hitems i item' Hi). f_equal. lia.
    + intros k Hk. simpl in Hk. rewrite Hold by lia.
      subst s1; simpl. apply lookup_insert_ne. lia.
    + intros p. rewrite Hstock.
      change (products s1)
        with (where_id (PurchaseLine.product_id item)
                (λ p, product_with (PurchaseLine.unit_cost item)
                        (sql_add (Product.stock_quantity p)
                           (PurchaseLine.quantity item)) p)
                (products s)).
      destruct (PurchaseLine.product_id item) as [q|] eqn:Hq;
        [destruct (decide (q = p)) as [->|Hne]|]; unfold where_id.
      * rewrite lookup_alter_eq.
        destruct (products s !! p) as [r|]; [|done].
        cbn [fmap option_fmap option_map]. apply (f_equal Some).
        rewrite stock_after_purchase_cons, cost_after_purchase_cons, Hq,
          !decide_True by done.
        by destruct r.
      * rewrite lookup_alter_ne by done.
        destruct (products s !! p) as [r|]; [|done].
        cbn [fmap option_fmap option_map]. apply (f_equal Some).
        rewrite stock_after_purchase_cons, cost_after_purchase_cons, Hq,
          !decide_False by congruence.
        done.
      * destruct (products s !! p) as [r|]; [|done].
        cbn [fmap option_fmap option_map]. apply (f_equal Some).
        rewrite stock_after_purchase_cons, cost_after_purchase_cons, Hq,
          !decide_False by congruence.
        done.
    + rewrite Hframe. subst s1. by destruct s.
Qed.

Lemma purchase_lines_throw id items s t Σ :
  has (purchases s) (Some id) = true →
  ¬ Forall (λ item, has (products s) (PurchaseLine.product_id item) = true)
      items →
  ∃ w' e,
    for_each items (purchase_line id) (World s [] t Σ) = (w', Throw e).
Proof.
  revert s. induction items as [|item items IH]; intros s Hs Hbad.
  - destruct Hbad. constructor.
  - simpl.
    destruct (has (products s) (PurchaseLine.product_id item)) eqn:Hitem.
    + rewrite (bind_ok _ _ _ _ _ (purchase_line_ok id item s t Σ Hs Hitem)).
      apply IH; [done|]. intros Hok. apply Hbad. constructor; [done|].
      eapply Forall_impl; [exact Hok|]. intros x Hx. simpl in Hx.
      by rewrite has_where_id in Hx.
    + destruct (purchase_line_refused id item s t Σ Hitem) as [e He].
      exists (World s [] t Σ), e. by rewrite (bind_throw _ _ _ _ _ He).
Qed.

Lemma purchase_header_refusal c u total st t s :
  refusal t_purchases false (Purchase.Make c u total st (Some t))
    (purchases s) s = None
  ↔ one_of ["paid"; "partial"; "unpaid"] st = true
    ∧ has (suppliers s) c = true ∧ has (users s) u = true.
Proof.
  rewrite refusal_plain by done.
  change (one_of ["paid"; "partial"; "unpaid"] st = true
          ∧ has (suppliers s) c && has (users s) u = true ↔
          one_of ["paid"; "partial"; "unpaid"] st = true
          ∧ has (suppliers s) c = true ∧ has (users s) u = true).
  by rewrite andb_true_iff.
Qed.

Lemma updateSupplierBalance_run c s t Σ :
  updateSupplierBalance c (World s [] t Σ)
  = (World (set_suppliers
              match c with
              | Some k =>
                  alter (supplier_owed
                           (supplier_due Σ k (supplier_transactions s)))
                        k (suppliers s)
              | None => suppliers s
              end s) [] t Σ, Ok tt).
Proof.
  destruct c; [apply updateSupplierBalance_ok|
               apply updateSupplierBalance_none].
Qed.

(** The statements of a purchase before the loop over its lines. *)
Lemma purchase_unit_prefix c u total st items s t Σ :
  one_of ["paid"; "partial"; "unpaid"] st = true →
  has (suppliers s) c = true →
  has (users s) u = true →
  let id := next_key t_purchases s in
  ∃ s1,
    purchase_unit c u total st items (World s [] t Σ)
    = (let* _ := for_of items (purchase_line id) in ret id)
        (World s1 [] t Σ)
    ∧ purchases s !! id = None
    ∧ purchases s1
      = <[id := Purchase.Make c u total st (Some t)]> (purchases s)
    ∧ products s1 = products s
    ∧ purchase_items s1 = purchase_items s
    ∧ purchase_posted Σ c total st id t s s1
    ∧ beside_purchase s s1.
Proof.
  intros Hst Hc Hu id. unfold purchase_unit.
  unfold bind at 1.
  rewrite sql_insert_ok by (by apply purchase_header_refusal).
  fold id. set (s1 := set_seq _ _ _).
  assert (Hid : purchases s !! id = None)
    by (apply (next_key_fresh t_purchases); subst id; lia).
  unfold bind at 1.
  rewrite sql_insert_ok.
  2:{ apply refusal_plain; [done|]. split; [done|].
      subst s1. simpl in *. done. }
  set (k := next_key t_supplier_transactions s1).
  set (s2 := set_seq _ _ _).
  assert (Hk : ∀ k', k ≤ k' → supplier_transactions s !! k' = None)
    by (intros k' Hk'; by apply (next_key_fresh t_supplier_transactions s1)).
  unfold bind at 1.
  destruct (decide (st = Some "paid")) as [Hp|Hp].
  - unfold bind at 1. rewrite sql_insert_ok.
    2:{ apply refusal_plain; [done|]. split; [done|].
        subst s2 s1. simpl in *. done. }
    rewrite (next_key_step t_supplier_transactions s1 s2 _ eq_refl)
      by (unfold seq_of; simpl; by rewrite lookup_insert_eq).
    fold k. set (s3 := set_seq _ _ _).
    unfold ret at 1. unfold bind at 1.
    rewrite updateSupplierBalance_run.
    set (s4 := set_suppliers _ _).
    exists s4. split; [done|]. split; [done|]. split; [done|].
    split; [done|]. split; [done|]. split; [|done].
    exists k. split; [done|].
    rewrite decide_True by done. done.
  - unfold ret at 1. unfold bind at 1.
    rewrite updateSupplierBalance_run.
    set (s4 := set_suppliers _ _).
    exists s4. split; [done|]. split; [done|]. split; [done|].
    split; [done|]. split; [done|]. split; [|done].
    exists k. split; [done|].
    rewrite decide_False by done. done.
Qed.

Lemma purchase_unit_ok c u total st items s t Σ :
  purchase_accepted c u st items s →
  ∃ s',
    purchase_unit c u total st (Some items) (World s [] t Σ)
    = (World s' [] t Σ, Ok (next_key t_purchases s))
    ∧ purchase_recorded Σ c u total st items t s s'
        (next_key t_purchases s).
Proof.
  intros (Hst & Hc & Hu & Hitems).
  destruct (purchase_unit_prefix c u total st (Some items) s t Σ Hst Hc Hu)
    as (s1 & -> & Hid & Hpu & Hprod & Hpi & Hled & Hrest).
  set (id := next_key t_purchases s) in *.
  destruct (purchase_lines_effect id items s1 t Σ)
    as (s' & Hrun & Hrows & Hold & Hstock & Hframe).
  { rewrite Hpu. apply has_inserted. }
  { by rewrite Hprod. }
  cbn [for_of]. rewrite (bind_ok _ _ _ _ _ Hrun).
  exists s'. split; [done|].
  assert (Hs' : purchases s' = purchases s1
                ∧ supplier_transactions s' = supplier_transactions s1
                ∧ suppliers s' = suppliers s1 ∧ beside_purchase s1 s')
    by (rewrite Hframe; by repeat split).
  destruct Hs' as (Es & Et & Ec & Eb).
  split; [done|]. split; [by rewrite Es|]. split.
  { destruct Hled as (k & Hk & Htx & Hsu).
    exists k. split; [done|]. by rewrite Et, Ec. }
  split.
  { exists (next_key t_purchase_items s1). split.
    - intros k Hk. rewrite <- Hpi.
      by apply (next_key_fresh t_purchase_items).
    - split; [done|]. intros k Hk. rewrite <- Hpi. by apply Hold. }
  split; [intros p; by rewrite Hstock, Hprod|].
  unfold beside_purchase in *.
  destruct Hrest as (? & ? & ? & ? & ? & ? & ? & ? & ? & ?).
  destruct Eb as (? & ? & ? & ? & ? & ? & ? & ? & ? & ?).
  repeat split; congruence.
Qed.

Lemma purchase_unit_refused c u total st items s t Σ :
  ¬ purchase_accepted c u st items s →
  ∃ w' e,
    purchase_unit c u total st (Some items) (World s [] t Σ)
    = (w', Throw e).
Proof.
  intros Hno.
  destruct (refusal_cases t_purchases false
              (Purchase.Make c u total st (Some t)) (purchases s) s)
    as [E|[x E]].
  - apply purchase_header_refusal in E as (Hst & Hc & Hu).
    destruct (purchase_unit_prefix c u total st (Some items) s t Σ
                Hst Hc Hu)
      as (s1 & -> & Hid & Hpu & Hprod & _).
    destruct (purchase_lines_throw (next_key t_purchases s) items s1 t Σ)
      as (w' & e & Hrun).
    { rewrite Hpu. apply has_inserted. }
    { rewrite Hprod. intros Hitems. by apply Hno. }
    exists w', e. cbn [for_of]. by rewrite (bind_throw _ _ _ _ _ Hrun).
  - exists (World s [] t Σ), (SqliteConstraint x). unfold purchase_unit.
    by rewrite (bind_throw _ _ _ _ _
                  (sql_insert_refused t_purchases _ s t Σ x E)).
Qed.

(** What POST /api/purchases answers, and what a 200 stands for. *)
Lemma post_purchases_answer supplier_id user_id total_amount payment_status
    items w :
  ∃ w' resp,
    post_purchases supplier_id user_id total_amount payment_status
      (Some items) w = (w', Ok resp)
    ∧ (fault_free w →
       (status resp = 200
        ↔ purchase_accepted supplier_id user_id payment_status items
            (db w)))
    ∧ (status resp = 200 →
       ∃ id,
         payload resp = Id id
         ∧ purchase_recorded (summation w) supplier_id user_id total_amount
             payment_status items (now w) (db w) (db w') id)
    ∧ (status resp ≠ 200 → status resp = 400 ∧ db w' = db w).
Proof.
  unfold post_purchases.
  destruct (atomic_handler
              (purchase_unit supplier_id user_id total_amount
                 payment_status (Some items))
              (λ id, json (Id id)) 400 w
              (stable_purchase_unit _ _ _ _ _))
    as [(w' & id & Hh & Hu)|(w' & e & Hh & Hdb)].
  - exists w', (json (Id id)). split; [done|].
    destruct (decide (purchase_accepted supplier_id user_id payment_status
                        items (db w))) as [Hacc|Hno].
    + destruct (purchase_unit_ok supplier_id user_id total_amount
                  payment_status items (db w) (now w) (summation w) Hacc)
        as (s' & Hrun & Hrec).
      rewrite Hrun in Hu. injection Hu as <- <-.
      split; [done|]. split; [|done]. intros _.
      by exists (next_key t_purchases (db w)).
    + destruct (purchase_unit_refused supplier_id user_id total_amount
                  payment_status items (db w) (now w) (summation w) Hno)
        as (w2 & e & Hrun).
      rewrite Hrun in Hu. done.
  - exists w', (json_error 400 e). split; [done|]. split; [|done].
    intros Hff. split; [done|]. intros Hacc. exfalso.
    destruct (purchase_unit_ok supplier_id user_id total_amount
                payment_status items (db w) (now w) (summation w) Hacc)
      as (s' & Hrun & Hrec).
    unfold fault_free in Hff. rewrite (world_eta w), Hff in Hh.
    rewrite (atomic_handler_ok _ _ _ _ _ _ Hrun) in Hh. done.
Qed.



(** ** Stock adjustments *)

Lemma stable_adjustment_unit p type q reason :
  stable (adjustment_unit p type q reason).
Proof. unfold adjustment_unit. stable. Qed.

Lemma adjustment_refusal p type q reason t s :
  refusal t_stock_adjustments false
    (StockAdjustment.Make p type q reason (Some t)) (stock_adjustments s) s
  = None
  ↔ adjustment_accepted p type s.
Proof. by rewrite refusal_plain. Qed.

Lemma adjustment_unit_ok p type q reason s t Σ :
  adjustment_accepted p type s →
  ∃ s',
    adjustment_unit p type q reason (World s [] t Σ)
    = (World s' [] t Σ, Ok tt)
    ∧ adjustment_recorded p type q reason t s s'.
Proof.
  intros Hacc. unfold adjustment_unit, bind.
  rewrite sql_insert_ok by (by apply adjustment_refusal).
  rewrite sql_update_ok. eexists. split; [done|]. split.
  - exists (next_key t_stock_adjustments s). split; [|done].
    by apply (next_key_fresh t_stock_adjustments).
  - intros k.
    change (where_id p
              (λ r, product_with (Product.cost r)
                      (sql_sub (Product.stock_quantity r) q) r)
              (products s) !! k
            = (λ r, if decide (p = Some k)
                    then product_with (Product.cost r)
                           (sql_sub (Product.stock_quantity r) q) r
                    else r) <$> products s !! k).
    destruct p as [j|]; unfold where_id.
    + destruct (decide (j = k)) as [->|Hne].
      * rewrite lookup_alter_eq. destruct (products s !! k); [|done].
        cbn [fmap option_fmap option_map]. by rewrite decide_True.
      * rewrite lookup_alter_ne by done.
        destruct (products s !! k); [|done].
        cbn [fmap option_fmap option_map].
        by rewrite decide_False by congruence.
    + destruct (products s !! k); [|done].
      cbn [fmap option_fmap option_map]. by rewrite decide_False.
Qed.

Lemma adjustment_unit_refused p type q reason s t Σ :
  ¬ adjustment_accepted p type s →
  ∃ c,
    adjustment_unit p type q reason (World s [] t Σ)
    = (World s [] t Σ, refuse c).
Proof.
  intros Hno.
  destruct (refusal_cases t_stock_adjustments false
              (StockAdjustment.Make p type q reason (Some t))
              (stock_adjustments s) s) as [E|[c E]].
  - by apply adjustment_refusal in E.
  - exists c. unfold adjustment_unit.
    by rewrite (bind_throw _ _ _ _ _
                  (sql_insert_refused t_stock_adjustments _ s t Σ c E)).
Qed.

(** What POST /api/stock-adjustments answers. *)
Lemma post_stock_adjustments_answer product_id type quantity reason w :
  ∃ w' resp,
    post_stock_adjustments product_id type quantity reason w
    = (w', Ok resp)
    ∧ (fault_free w →
       (status resp = 200 ↔ adjustment_accepted product_id type (db w)))
    ∧ (status resp = 200 →
       resp = json Success
       ∧ adjustment_recorded product_id type quantity reason (now w)
           (db w) (db w'))
    ∧ (status resp ≠ 200 → status resp = 400 ∧ db w' = db w).
Proof.
  unfold post_stock_adjustments.
  destruct (atomic_handler
              (adjustment_unit product_id type quantity reason)
              (λ _, json Success) 400 w
              (stable_adjustment_unit _ _ _ _))
    as [(w' & [] & Hh & Hu)|(w' & e & Hh & Hdb)].
  - exists w', (json Success). split; [done|].
    destruct (decide (adjustment_accepted product_id type (db w)))
      as [Hacc|Hno].
    + destruct (adjustment_unit_ok product_id type quantity reason (db w)
                  (now w) (summation w) Hacc) as (s' & Hrun & Hrec).
      rewrite Hrun in Hu. injection Hu as <-. done.
    + destruct (adjustment_unit_refused product_id type quantity reason
                  (db w) (now w) (summation w) Hno) as (c & Hrun).
      rewrite Hrun in Hu. done.
  - exists w', (json_error 400 e). split; [done|]. split; [|done].
    intros Hff. split; [done|]. intros Hacc. exfalso.
    destruct (adjustment_unit_ok product_id type quantity reason (db w)
                (now w) (summation w) Hacc) as (s' & Hrun & Hrec).
    unfold fault_free in Hff. rewrite (world_eta w), Hff in Hh.
    rewrite (atomic_handler_ok _ (λ _, json Success) _ _ _ _ Hrun) in Hh.
    done.
Qed.

(** A unit that throws on the fault-free engine is answered with the error
    code on every engine, and the database is what it was. *)
Lemma atomic_handler_throws {A} (unit : M A) (reply : A → response) code
    w w1 e1 :
  stable unit →
  unit (World (db w) [] (now w) (summation w)) = (w1, Throw e1) →
  ∃ w' e,
    try_catch (let* a := transaction unit in ret (reply a))
              (λ e, ret (json_error code e)) w
    = (w', Ok (json_error code e))
    ∧ db w' = db w.
Proof.
  intros Hs Hthrow.
  destruct (atomic_handler unit reply code w Hs)
    as [(w' & a & _ & Hu)|(w' & e & Hh & Hdb)]; [|eauto].
  rewrite Hthrow in Hu. done.
Qed.

(** C5.  An adjustment of minus three units of kind 'damaged' is not
    refused: the answer is 200 and the stock of the product goes from 5
    to 8.  Nor is an adjustment without a kind. *)
Lemma C5_counterexample :
  let answer :=
    post_stock_adjustments (Some 1) (Some "damaged") (num (-3)) None shop in
  let other := post_stock_adjustments (Some 1) None (num 0) None shop in
  answer.2 = Ok (json Success)
  ∧ Product.stock_quantity <$> products (db shop) !! 1 = Some (num 5)
  ∧ Product.stock_quantity <$> products (db answer.1) !! 1 = Some (num 8)
  ∧ stock_adjustments (db answer.1) !! 1
    = Some (StockAdjustment.Make (Some 1) (Some "damaged") (num (-3)) None
              (Some "2024-01-01 09:00:00"))
  ∧ other.2 = Ok (json Success)
  ∧ stock_adjustments (db other.1) !! 1
    = Some (StockAdjustment.Make (Some 1) None (num 0) None
              (Some "2024-01-01 09:00:00")).
Proof. by vm_compute. Qed.

(** C5, amended.  No request is checked before the first write; what
    refuses a request is a constraint of the store (a CHECK or a foreign
    key) or an exception inside the transaction, and the rollback then
    leaves the database as it was.  On the fault-free engine a stock
    adjustment is answered 200 exactly when its kind is damaged,
    correction, lost or missing and its product is stored or missing; the
    quantity is not examined, whatever its sign: the row is stored and the
    quantity is subtracted from the stock of the product.  Any other
    answer to an adjustment is 400, database unchanged.  A sale that the
    engine does not accept (a payment status outside paid, partial and
    unpaid, or a customer, a user or a product that is not stored) and a
    sale without items are answered 400 on every engine, database
    unchanged. *)
Theorem C5_refusals_come_from_the_store :
  (∀ product_id type quantity reason w,
     ∃ w' resp,
       post_stock_adjustments product_id type quantity reason w
       = (w', Ok resp)
       ∧ (fault_free w →
          (status resp = 200 ↔ adjustment_accepted product_id type (db w)))
       ∧ (status resp = 200 →
          resp = json Success
          ∧ adjustment_recorded product_id type quantity reason (now w)
              (db w) (db w'))
       ∧ (status resp ≠ 200 → status resp = 400 ∧ db w' = db w))
  ∧ (∀ product_id type quantity reason w,
       ¬ adjustment_accepted product_id type (db w) →
       ∃ w' e,
         post_stock_adjustments product_id type quantity reason w
         = (w', Ok (json_error 400 e))
         ∧ db w' = db w)
  ∧ (∀ customer_id user_id total_amount discount payment_status
       payment_method items w,
       ¬ sale_accepted customer_id user_id payment_status items (db w) →
       ∃ w' e,
         post_sales customer_id user_id total_amount discount
           payment_status payment_method (Some items) w
         = (w', Ok (json_error 400 e))
         ∧ db w' = db w)
  ∧ (∀ customer_id user_id total_amount discount payment_status
       payment_method w,
       ∃ w' e,
         post_sales customer_id user_id total_amount discount
           payment_status payment_method None w
         = (w', Ok (json_error 400 e))
         ∧ db w' = db w).
Proof.
  split; [|split; [|split]].
  - apply post_stock_adjustments_answer.
  - intros p type q reason w Hno.
    destruct (adjustment_unit_refused p type q reason (db w) (now w)
                (summation w) Hno) as (c & Hrun).
    eapply (atomic_handler_throws _ (λ _, json Success));
      [apply stable_adjustment_unit|done].
  - intros c u total discount st pm items w Hno.
    destruct (sale_unit_refused c u total discount st pm items (db w)
                (now w) (summation w) Hno) as (w1 & e1 & Hrun).
    eapply atomic_handler_throws; [apply stable_sale_unit|done].
  - intros c u total discount st pm w.
    destruct (sale_unit_no_items c u total discount st pm (db w) (now w)
                (summation w)) as (w1 & e1 & Hno).
    eapply atomic_handler_throws; [apply stable_sale_unit|done].
Qed.

(** In the shop: an adjustment of minus three units, which takes the stock
    of product 1 from 5 to 8; an adjustment of an unknown kind; an
    adjustment of a product that is not stored; and a sale with an unknown
    payment status. *)
Lemma C5_refusals_come_from_the_store_witness :
  (let answer :=
     post_stock_adjustments (Some 1) (Some "damaged") (num (-3)) None shop
   in
   answer.2 = Ok (json Success)
   ∧ Product.stock_quantity <$> products (db shop) !! 1 = Some (num 5)
   ∧ Product.stock_quantity <$> products (db answer.1) !! 1
     = Some (num 8))
  ∧ (∃ w' e,
       post_stock_adjustments (Some 1) (Some "stolen") (num 1) None shop
       = (w', Ok (json_error 400 e))
       ∧ db w' = db shop)
  ∧ (∃ w' e,
       post_stock_adjustments (Some 99) (Some "lost") (num 1) None shop
       = (w', Ok (json_error 400 e))
       ∧ db w' = db shop)
  ∧ (∃ w' e,
       post_sales None (Some 1) (num 20) (num 0) (Some "later")
         (Some "Cash")
         (Some [SaleLine.Make (Some 1) (num 2) (num 10) (num 20)]) shop
       = (w', Ok (json_error 400 e))
       ∧ db w' = db shop).
Proof.
  destruct C5_refusals_come_from_the_store as (H1 & H2 & H3 & _).
  split; [|split; [|split]].
  - intros answer.
    destruct (H1 (Some 1) (Some "damaged") (num (-3)) None shop)
      as (w' & resp & Hrun & Hacc & Heff & _).
    assert (Hok : status resp = 200).
    { apply Hacc; [reflexivity|].
      apply (bool_decide_unpack _). vm_compute. reflexivity. }
    destruct (Heff Hok) as (-> & _ & Hstock).
    assert (Hw : w' = answer.1) by (unfold answer; by rewrite Hrun).
    subst w'. split; [vm_compute; reflexivity|].
    split; [vm_compute; reflexivity|].
    rewrite Hstock. vm_compute. reflexivity.
  - apply (H2 (Some 1) (Some "stolen") (num 1) None shop).
    intros [Hty _]. vm_compute in Hty. discriminate Hty.
  - apply (H2 (Some 99) (Some "lost") (num 1) None shop).
    intros [_ Hp]. vm_compute in Hp. discriminate Hp.
  - apply (H3 None (Some 1) (num 20) (num 0) (Some "later") (Some "Cash")
             [SaleLine.Make (Some 1) (num 2) (num 10) (num 20)] shop).
    intros [Hst _]. vm_compute in Hst. discriminate Hst.
Defined.

(** ** Payments *)

Lemma sql_insert_run {R} (T : tbl Z R) (row : string → R) s p t Σ :
  refusal T false (row t) (rows T s) s = None →
  sql_insert T row (World s (false :: p) t Σ)
  = (World (set_seq (tname T) (next_key T s)
              (set_rows T (<[next_key T s := row t]> (rows T s)) s)) p t Σ,
     Ok (next_key T s)).
Proof. intros Ha. unfold sql_insert, engine. simpl. by rewrite Ha. Qed.

(** The engine raises on the UPDATE of the recalculation. *)
Lemma updateCustomerBalance_fails c s p t Σ :
  updateCustomerBalance c (World s (false :: true :: p) t Σ)
  = (World s p t Σ, Throw SqliteFault).
Proof. done. Qed.

Lemma updateSupplierBalance_fails c s p t Σ :
  updateSupplierBalance c (World s (false :: true :: p) t Σ)
  = (World s p t Σ, Throw SqliteFault).
Proof. done. Qed.

(** C3.  When the engine raises on the UPDATE of POST /api/payments, the
    third statement of the handler, the answer is 500, the payment row
    inserted by the first statement stays in the log, and no balance is
    touched.  POST /api/supplier-payments does the same and answers 400.
    (The customer and the supplier are stored, or the request names none:
    else the engine refuses the INSERT and nothing is written.) *)
Theorem C3_payment_row_outlives_failed_update customer_id supplier_id amount
    description supplier_description s rest t Σ :
  has (customers s) customer_id = true →
  has (suppliers s) supplier_id = true →
  let w := World s (false :: false :: true :: rest) t Σ in
  let answer := post_payments customer_id amount description w in
  let answer' :=
    post_supplier_payments supplier_id amount supplier_description w in
  (answer.2 = Ok (Response 500 Unhandled)
   ∧ transactions s !! next_key t_transactions s = None
   ∧ transactions (db answer.1)
     = <[next_key t_transactions s :=
           Transaction.Make customer_id (Some "payment") amount description
             (Some t)]>
         (transactions s)
   ∧ customers (db answer.1) = customers s)
  ∧ (answer'.2 = Ok (json_error 400 SqliteFault)
     ∧ supplier_transactions s !! next_key t_supplier_transactions s = None
     ∧ supplier_transactions (db answer'.1)
       = <[next_key t_supplier_transactions s :=
             SupplierTransaction.Make supplier_id (Some "payment") amount
               (or_default supplier_description) (Some t)]>
           (supplier_transactions s)
     ∧ suppliers (db answer'.1) = suppliers s).
Proof.
  intros Hc Hs w answer answer'. split.
  - assert (E : answer
              = (World (set_seq "transactions" (next_key t_transactions s)
                          (set_transactions
                             (<[next_key t_transactions s :=
                                  Transaction.Make customer_id
                                    (Some "payment") amount description
                                    (Some t)]> (transactions s)) s))
                   rest t Σ,
                 Ok (Response 500 Unhandled))).
    { subst answer w. unfold post_payments, express, try_catch.
      unfold bind at 1. unfold bind at 1.
      rewrite sql_insert_run by (by apply refusal_plain).
      unfold bind at 1. by rewrite updateCustomerBalance_fails. }
    rewrite E. simpl.
    split; [done|]. split; [by apply (next_key_fresh t_transactions)|].
    done.
  - assert (E : answer'
              = (World (set_seq "supplier_transactions"
                          (next_key t_supplier_transactions s)
                          (set_supplier_transactions
                             (<[next_key t_supplier_transactions s :=
                                  SupplierTransaction.Make supplier_id
                                    (Some "payment") amount
                                    (or_default supplier_description)
                                    (Some t)]> (supplier_transactions s))
                             s))
                   rest t Σ,
                 Ok (json_error 400 SqliteFault))).
    { subst answer' w. unfold post_supplier_payments, try_catch.
      unfold bind at 1.
      rewrite sql_insert_run by (by apply refusal_plain).
      unfold bind at 1. by rewrite updateSupplierBalance_fails. }
    rewrite E. simpl.
    split; [done|].
    split; [by apply (next_key_fresh t_supplier_transactions)|]. done.
Qed.

(** On the shop: customer 1 pays 30 and supplier 1 is paid 30; the UPDATE
    fails; the row of 30 is in the log and the balances are those of
    before, 100 and 0. *)
Lemma C3_payment_row_outlives_failed_update_witness :
  let answer := post_payments (Some 1) (num 30) (Some "cash") failing_shop in
  let answer' := post_supplier_payments (Some 1) (num 30) None failing_shop in
  (answer.2 = Ok (Response 500 Unhandled)
   ∧ transactions (db shop) !! 1 = None
   ∧ transactions (db answer.1)
     = <[1 := Transaction.Make (Some 1) (Some "payment") (num 30)
                (Some "cash") (Some "2024-01-01 09:00:00")]>
         (transactions (db shop))
   ∧ customers (db answer.1) = customers (db shop))
  ∧ (answer'.2 = Ok (json_error 400 SqliteFault)
     ∧ supplier_transactions (db shop) !! 1 = None
     ∧ supplier_transactions (db answer'.1)
       = <[1 := SupplierTransaction.Make (Some 1) (Some "payment") (num 30)
                  (Some "Payment to supplier")
                  (Some "2024-01-01 09:00:00")]>
           (supplier_transactions (db shop))
     ∧ suppliers (db answer'.1) = suppliers (db shop)).
Proof.
  apply (C3_payment_row_outlives_failed_update (Some 1) (Some 1) (num 30)
           (Some "cash") None (db shop) [] "2024-01-01 09:00:00" kbn_sum).
  - vm_compute. reflexivity.
  - vm_compute. reflexivity.
Defined.

(** The log and the balance after the failed UPDATE, in the shop. *)
Lemma payment_left_behind :
  let answer := post_payments (Some 1) (num 30) (Some "cash") failing_shop in
  answer.2 = Ok (Response 500 Unhandled)
  ∧ transactions (db shop) = ∅
  ∧ transactions (db answer.1)
    = {[1 := Transaction.Make (Some 1) (Some "payment") (num 30)
               (Some "cash") (Some (now shop))]}
  ∧ Customer.balance <$> customers (db answer.1) !! 1 = Some (num 100)
  ∧ customer_due kbn_sum 1 (transactions (db answer.1)) = num (-30).
Proof. by vm_compute. Qed.

(** C6.  In the shop the customer owes 100 from before and has no row in
    the log.  A paid sale of 20 to this customer is answered 200, and the
    stored balance of the customer drops from 100 to 0. *)
Theorem C6_paid_sale_drops_opening_balance :
  let answer :=
    post_sales (Some 1) (Some 1) (num 20) (num 0) (Some "paid") (Some "Cash")
      (Some [SaleLine.Make (Some 1) (num 2) (num 10) (num 20)]) shop in
  answer.2 = Ok (json (Id 1))
  ∧ Customer.balance <$> customers (db shop) !! 1 = Some (num 100)
  ∧ Customer.opening_balance <$> customers (db answer.1) !! 1
    = Some (num 100)
  ∧ Customer.balance <$> customers (db answer.1) !! 1 = Some (num 0).
Proof. by vm_compute. Qed.

(** C1.  The first request of the day registers a customer with an
    opening balance of 100: the answer is 200, the stored balance is 100,
    and the log of transactions, which is empty, gives 0. *)
Theorem C1_new_customer_balance_is_not_the_log :
  let answer :=
    post_customers (Some "Ali") (Some "777") None None (num 100) None
      opening_day in
  answer.2 = Ok (json (Id 1))
  ∧ Customer.balance <$> customers (db answer.1) !! 1 = Some (num 100)
  ∧ transactions (db answer.1) = ∅
  ∧ customer_due (summation opening_day) 1 (transactions (db answer.1))
    = num 0.
Proof. by vm_compute. Qed.

(** ** Backup and restore *)

Ltac lawful :=
  repeat split; intros;
  first [ by match goal with s : store |- _ => destruct s end
        | by eexists
        | match goal with
          | s : store |- _ => exists (sqlite_sequence s); by destruct s
          end ].

Lemma lawful_users : lawful t_users. Proof. lawful. Qed.
Lemma lawful_settings : lawful t_settings. Proof. lawful. Qed.
Lemma lawful_products : lawful t_products. Proof. lawful. Qed.
Lemma lawful_warehouses : lawful t_warehouses. Proof. lawful. Qed.
Lemma lawful_suppliers : lawful t_suppliers. Proof. lawful. Qed.
Lemma lawful_supplier_transactions : lawful t_supplier_transactions.
Proof. lawful. Qed.
Lemma lawful_customers : lawful t_customers. Proof. lawful. Qed.
Lemma lawful_sales : lawful t_sales. Proof. lawful. Qed.
Lemma lawful_sale_items : lawful t_sale_items. Proof. lawful. Qed.
Lemma lawful_transactions : lawful t_transactions. Proof. lawful. Qed.
Lemma lawful_maintenance : lawful t_maintenance. Proof. lawful. Qed.
Lemma lawful_purchases : lawful t_purchases. Proof. lawful. Qed.
Lemma lawful_purchase_items : lawful t_purchase_items. Proof. lawful. Qed.
Lemma lawful_general_ledger : lawful t_general_ledger. Proof. lawful. Qed.
Lemma lawful_stock_adjustments : lawful t_stock_adjustments.
Proof. lawful. Qed.

Section restore.
Context {K R : Type} `{Countable K} (T : tbl K R) (HT : lawful T).

Lemma sql_insert_row_run k r s t Σ :
  sql_insert_row T k r (World s [] t Σ)
  = match refusal T (bool_decide (is_Some (rows T s !! k))) r (rows T s) s
    with
    | Some c => (World s [] t Σ, refuse c)
    | None =>
        (World (note_key T k (set_rows T (<[k := r]> (rows T s)) s)) [] t Σ,
         Ok tt)
    end.
Proof.
  unfold sql_insert_row. rewrite engine_fault_free. simpl.
  by destruct (refusal T _ r (rows T s) s).
Qed.

Lemma sql_insert_row_inv k r s t Σ w' :
  sql_insert_row T k r (World s [] t Σ) = (w', Ok tt) →
  rows T s !! k = None
  ∧ admits T r (rows T s) = true
  ∧ parents T r s = true
  ∧ ∃ q, w' = World (set_sqlite_sequence q
                       (set_rows T (<[k := r]> (rows T s)) s)) [] t Σ.
Proof.
  destruct HT as (_ & _ & _ & _ & _ & _ & Hnote & _).
  rewrite sql_insert_row_run.
  destruct (refusal T _ r (rows T s) s) eqn:E; [done|].
  apply refusal_None in E as (Hk & Ha & Hp).
  apply bool_decide_eq_false in Hk. rewrite <- eq_None_not_Some in Hk.
  intros [= <-]. split; [done|]. split; [done|]. split; [done|].
  destruct (Hnote k (set_rows T (<[k := r]> (rows T s)) s)) as [q ->].
  by exists q.
Qed.

Lemma sql_insert_row_ok k r s t Σ :
  rows T s !! k = None →
  admits T r (rows T s) = true →
  parents T r s = true →
  ∃ q, sql_insert_row T k r (World s [] t Σ)
       = (World (set_sqlite_sequence q
                   (set_rows T (<[k := r]> (rows T s)) s)) [] t Σ, Ok tt).
Proof.
  intros Hk Ha Hp. destruct HT as (_ & _ & _ & _ & _ & _ & Hnote & _).
  rewrite sql_insert_row_run.
  rewrite (proj2 (refusal_None T _ r (rows T s) s)).
  - destruct (Hnote k (set_rows T (<[k := r]> (rows T s)) s)) as [q ->].
    by exists q.
  - split; [|done]. apply bool_decide_eq_false. rewrite Hk.
    by intros [? [=]].
Qed.

(** Rows and sequence after a write to the table, then another. *)
Lemma rewrite_twice q m q' m' s :
  set_sqlite_sequence q'
    (set_rows T m' (set_sqlite_sequence q (set_rows T m s)))
  = set_sqlite_sequence q' (set_rows T m' s).
Proof.
  destruct HT as (_ & H2 & H3 & _).
  rewrite H3, H2. by destruct (set_rows T m' s).
Qed.

Lemma rows_written q m s :
  rows T (set_sqlite_sequence q (set_rows T m s)) = m.
Proof.
  destruct HT as (H1 & _ & _ & H4 & _). by rewrite H4, H1.
Qed.

Lemma parents_written r q m s :
  parents T r (set_sqlite_sequence q (set_rows T m s)) = parents T r s.
Proof.
  destruct HT as (_ & _ & _ & _ & _ & _ & _ & H8 & H9). by rewrite H9, H8.
Qed.

(** If the INSERTs of the rows of an entry all go through, the table
    holds these rows on top of what it held, and their references were
    met. *)
Lemma insert_rows_inv l s t Σ w' :
  for_each l (λ row, sql_insert_row T row.1 row.2) (World s [] t Σ)
  = (w', Ok tt) →
  (∀ k, k ∈ l.*1 → rows T s !! k = None)
  ∧ Forall (λ kr, parents T kr.2 s = true) l
  ∧ ∃ q, w' = World (set_sqlite_sequence q
                       (set_rows T (list_to_map l ∪ rows T s) s)) [] t Σ.
Proof.
  revert s. induction l as [|[k r] l IH]; intros s; simpl.
  - intros [= <-]. split; [by intros k Hk%elem_of_nil|]. split; [done|].
    exists (sqlite_sequence s).
    destruct HT as (_ & _ & _ & _ & _ & H6 & _).
    rewrite (left_id_L ∅ (∪)), H6. by destruct s.
  - unfold bind.
    destruct (sql_insert_row T k r (World s [] t Σ)) as [w1 [[]|e]] eqn:E;
      [|done].
    apply sql_insert_row_inv in E as (Hk & _ & Hp & q1 & ->).
    intros (Hfresh & Hps & q & ->)%IH. rewrite rows_written in Hfresh.
    assert (Hnot : (list_to_map l : gmap K R) !! k = None).
    { apply not_elem_of_list_to_map_1. intros Hin.
      apply Hfresh in Hin. by rewrite lookup_insert_eq in Hin. }
    split; [|split].
    + intros k' [->|Hin]%elem_of_cons; [done|].
      apply Hfresh in Hin.
      by apply lookup_insert_None in Hin as [? _].
    + constructor; [done|]. eapply Forall_impl; [exact Hps|].
      intros kr. simpl. by rewrite parents_written.
    + exists q. rewrite rows_written, rewrite_twice.
      by rewrite <- insert_union_l, <- insert_union_r.
Qed.

(** The INSERTs of a valid entry whose references are met all go
    through. *)
Lemma insert_rows_ok l s t Σ :
  NoDup l.*1 →
  (∀ k, k ∈ l.*1 → rows T s !! k = None) →
  consistent T (list_to_map l ∪ rows T s) →
  Forall (λ kr, parents T kr.2 s = true) l →
  ∃ w', for_each l (λ row, sql_insert_row T row.1 row.2) (World s [] t Σ)
        = (w', Ok tt).
Proof.
  revert s. induction l as [|[k r] l IH]; intros s; simpl.
  - by eexists.
  - intros [Hk Hnd]%NoDup_cons Hfresh [Hcheck Huniq]
      [Hp Hps]%Forall_cons.
    assert (Hnot : (list_to_map l : gmap K R) !! k = None)
      by by apply not_elem_of_list_to_map_1.
    destruct (sql_insert_row_ok k r s t Σ) as [q Hrun].
    { apply Hfresh. by left. }
    { apply admits_spec. split.
      - apply (Hcheck k). apply lookup_union_Some_raw. left.
        apply lookup_insert_eq.
      - intros k' r' Hk'.
        assert (k ≠ k').
        { intros ->. rewrite Hfresh in Hk'; [done|by left]. }
        apply (Huniq k r
                 ltac:(apply lookup_union_Some_raw; left;
                       apply lookup_insert_eq) k' r'); [|done].
        apply lookup_union_Some_raw. right. split; [|done].
        rewrite lookup_insert_ne by done.
        apply not_elem_of_list_to_map_1. intros Hin.
        rewrite Hfresh in Hk'; [done|by right]. }
    { done. }
    rewrite (bind_ok _ _ _ _ _ Hrun).
    apply IH; [done| | |]; rewrite ?rows_written.
    + intros k' Hin. rewrite lookup_insert_ne by (intros ->; done).
      apply Hfresh. by right.
    + by rewrite <- insert_union_r, insert_union_l.
    + eapply Forall_impl; [exact Hps|]. intros kr. simpl.
      by rewrite parents_written.
Qed.

Lemma sql_delete_all_run s t Σ :
  sql_delete_all T (World s [] t Σ)
  = if bool_decide (unreferenced T s)
    then (World (set_rows T ∅ s) [] t Σ, Ok tt)
    else (World s [] t Σ, refuse FOREIGN_KEY).
Proof.
  unfold sql_delete_all. rewrite engine_fault_free. simpl.
  unfold unreferenced. by destruct (bool_decide _).
Qed.

(** One round of the restore loop that goes through: the table could be
    emptied, the references of the rows were met, and the table holds the
    rows of the entry. *)
Lemma restore_inv entry s t Σ w' :
  restore T entry (World s [] t Σ) = (w', Ok tt) →
  (is_Some entry → unreferenced T s)
  ∧ entry_refers T entry s
  ∧ ∃ q m, w' = World (set_sqlite_sequence q (set_rows T m s)) [] t Σ
           ∧ restored entry (rows T s) m.
Proof.
  destruct HT as (H1 & H2 & _ & _ & _ & H6 & _ & H8 & _).
  destruct entry as [l|]; simpl.
  - unfold bind. rewrite sql_delete_all_run.
    destruct (bool_decide (unreferenced T s)) eqn:Hd; [|done].
    apply bool_decide_eq_true in Hd.
    destruct (0 <? length l)%nat eqn:El.
    + intros (_ & Hps & q & ->)%insert_rows_inv.
      split; [done|]. split.
      * eapply Forall_impl; [exact Hps|]. intros kr. simpl. by rewrite H8.
      * exists q, (list_to_map l). split; [|done].
        by rewrite H1, H2, (right_id_L ∅ (∪)).
    + destruct l; [|done]. intros [= <-].
      split; [done|]. split; [done|].
      exists (sqlite_sequence (set_rows T ∅ s)), ∅. split; [|done]. simpl.
      by destruct (set_rows T ∅ s).
  - intros [= <-]. split; [by intros [? [=]]|]. split; [done|].
    exists (sqlite_sequence s), (rows T s). split; [|done]. rewrite H6.
    by destruct s.
Qed.

Lemma restore_ok entry s t Σ :
  entry_valid T entry →
  (is_Some entry → unreferenced T s) →
  entry_refers T entry s →
  ∃ w', restore T entry (World s [] t Σ) = (w', Ok tt).
Proof.
  destruct HT as (H1 & _ & _ & _ & _ & _ & _ & H8 & _).
  destruct entry as [l|]; simpl; [|by eexists].
  intros [Hnd Hcons] Hfree Hps. unfold bind. rewrite sql_delete_all_run.
  rewrite bool_decide_eq_true_2 by (by apply Hfree).
  destruct (0 <? length l)%nat; [|by eexists].
  apply insert_rows_ok; [done|..]; rewrite ?H1.
  - intros k _. apply lookup_empty.
  - by rewrite (right_id_L ∅ (∪)).
  - eapply Forall_impl; [exact Hps|]. intros kr. simpl. by rewrite H8.
Qed.
End restore.

Lemma stable_restore {K R} `{Countable K} (T : tbl K R) entry :
  stable (restore T entry).
Proof. unfold restore. stable. Qed.

Lemma stable_import_unit b : stable (import_unit b).
Proof.
  unfold import_unit, TABLES. simpl.
  repeat (apply stable_bind; [apply stable_restore | intros _]).
  apply stable_ret.
Qed.

(** ** The engine, whatever it does *)

(** The engine either raises before the statement, or runs it. *)
Lemma engine_cases {A} (stmt : world → store * outcome A) w :
  (∃ rest, engine stmt w
           = (World (db w) rest (now w) (summation w), Throw SqliteFault))
  ∨ engine stmt w
    = (World (stmt w).1 (tail (pending w)) (now w) (summation w),
       (stmt w).2).
Proof.
  unfold engine. destruct (pending w) as [|[] rest]; simpl.
  - right. by destruct (stmt w).
  - left. by exists rest.
  - right. by destruct (stmt w).
Qed.

Lemma reads_ret {A} (a : A) : reads (ret a).
Proof. by intros w w' r [= <- _]. Qed.

Lemma reads_select {A} (q : store → A) : reads (sql_select q).
Proof.
  intros w w' r. unfold sql_select, engine.
  by destruct (pending w) as [|[] ?]; intros [= <- _].
Qed.

Lemma reads_bind {A B} (m : M A) (k : A → M B) :
  reads m → (∀ a, reads (k a)) → reads (bind m k).
Proof.
  intros Hm Hk w w' r. unfold bind.
  destruct (m w) as [w1 [a|e]] eqn:E.
  - intros Hrun. apply Hk in Hrun. apply Hm in E. congruence.
  - intros [= <- _]. by apply Hm in E.
Qed.

(** The export only reads. *)
Lemma export_reads :
  reads (for_each_into TABLES Backup.empty export_table).
Proof.
  unfold TABLES. simpl.
  repeat first [ apply reads_ret | apply reads_select | apply reads_bind
               | intro ].
Qed.

(** ** The constraints of the schema hold after every handler *)

Lemma keeps_ret {A} P (a : A) : keeps P (ret a).
Proof. by intros w w' r HP [= <- <-]. Qed.

Lemma keeps_throw {A} P (e : error) : keeps P (@throw A e).
Proof. by intros w w' r HP [= <- <-]. Qed.

Lemma keeps_bind {A B} P (m : M A) (k : A → M B) :
  keeps P m → (∀ a, keeps P (k a)) → keeps P (bind m k).
Proof.
  intros Hm Hk w w' r HP. unfold bind.
  destruct (m w) as [w1 [a|e]] eqn:E.
  - apply Hk. by apply (Hm _ _ _ HP E).
  - intros [= <- <-]. by apply (Hm _ _ _ HP E).
Qed.

Lemma keeps_try_catch {A} P (m : M A) (handler : error → M A) :
  keeps P m → (∀ e, keeps P (handler e)) → keeps P (try_catch m handler).
Proof.
  intros Hm Hh w w' r HP. unfold try_catch.
  destruct (m w) as [w1 [a|e]] eqn:E.
  - intros [= <- <-]. by apply (Hm _ _ _ HP E).
  - apply Hh. by apply (Hm _ _ _ HP E).
Qed.

Lemma keeps_transaction {A} P (m : M A) : keeps P m → keeps P (transaction m).
Proof.
  intros Hm w w' r HP. unfold transaction.
  destruct (m w) as [w1 [a|e]] eqn:E; intros [= <- <-]; [|done].
  by apply (Hm _ _ _ HP E).
Qed.

Lemma keeps_for_each {A} P (xs : list A) (body : A → M unit) :
  (∀ x, keeps P (body x)) → keeps P (for_each xs body).
Proof.
  intros Hb. induction xs as [|x xs IH]; simpl.
  - apply keeps_ret.
  - apply keeps_bind; auto.
Qed.

Lemma keeps_for_of {A} P (xs : option (list A)) (body : A → M unit) :
  (∀ x, keeps P (body x)) → keeps P (for_of xs body).
Proof.
  destruct xs; simpl; [apply keeps_for_each | intros; apply keeps_throw].
Qed.

Lemma keeps_if {A} P (b : bool) (m1 m2 : M A) :
  keeps P m1 → keeps P m2 → keeps P (if b then m1 else m2).
Proof. by destruct b. Qed.

Lemma keeps_engine {A} P (stmt : world → store * outcome A) :
  (∀ w, P (db w) → P (stmt w).1) → keeps P (engine stmt).
Proof.
  intros Hstmt w w' r HP.
  destruct (engine_cases stmt w) as [[rest ->]| ->]; intros [= <- <-]; simpl;
    auto.
Qed.

Lemma keeps_select {A} P (q : store → A) : keeps P (sql_select q).
Proof. apply keeps_engine. auto. Qed.

Lemma keeps_select_sum {A} P (q : (list float → float) → store → A) :
  keeps P (sql_select_sum q).
Proof. apply keeps_engine. auto. Qed.

Lemma integrity_seq q s : integrity (set_sqlite_sequence q s) ↔ integrity s.
Proof. by destruct s. Qed.

Lemma consistent_empty {K R} `{Countable K} (T : tbl K R) : consistent T ∅.
Proof. split; apply map_Forall_empty. Qed.

Lemma consistent_insert {K R} `{Countable K} (T : tbl K R) m k r :
  (∀ r r', conflict T r r' = conflict T r' r) →
  consistent T m → admits T r (delete k m) = true →
  consistent T (<[k := r]> m).
Proof.
  intros Hsym [Hc Hu] [Hr Hfree]%admits_spec. split.
  - by apply map_Forall_insert_2.
  - intros k1 r1 [[<- <-]|[Hne1 H1]]%lookup_insert_Some
           k2 r2 [[<- <-]|[Hne2 H2]]%lookup_insert_Some Hne; try done.
    + apply (Hfree k2). by rewrite lookup_delete_ne.
    + rewrite Hsym. apply (Hfree k1). by rewrite lookup_delete_ne.
    + by apply (Hu k1 r1 H1 k2 r2 H2).
Qed.

Lemma consistent_filter {K R} `{Countable K} (T : tbl K R) m
    (P : K * R → Prop) `{∀ x, Decision (P x)} :
  consistent T m → consistent T (filter P m).
Proof.
  intros [Hc Hu]. split.
  - intros k r [Hk _]%map_lookup_filter_Some. by apply (Hc k).
  - intros k r [Hk _]%map_lookup_filter_Some
           k' r' [Hk' _]%map_lookup_filter_Some. by apply (Hu k r Hk k').
Qed.

Lemma consistent_alter {K R} `{Countable K} (T : tbl K R) m (f : R → R) k :
  (∀ r, check T (f r) = check T r) →
  (∀ r r', conflict T (f r) r' = conflict T r r') →
  (∀ r r', conflict T r (f r') = conflict T r r') →
  consistent T m → consistent T (alter f k m).
Proof.
  intros Hcheck Hl Hr [Hc Hu]. split.
  - intros k1 r1 H1. destruct (decide (k = k1)) as [<-|Hne].
    + rewrite lookup_alter_eq in H1.
      destruct (m !! k) as [r|] eqn:Hk; [|done]. injection H1 as <-.
      rewrite Hcheck. by apply (Hc k).
    + rewrite lookup_alter_ne in H1 by done. by apply (Hc k1).
  - assert (Hget : ∀ k1 r1, alter f k m !! k1 = Some r1 →
                     ∃ r, m !! k1 = Some r
                          ∧ ∀ r', conflict T r1 r' = conflict T r r'
                                  ∧ conflict T r' r1 = conflict T r' r).
    { intros k1 r1 H1. destruct (decide (k = k1)) as [<-|Hne].
      - rewrite lookup_alter_eq in H1.
        destruct (m !! k) as [r|] eqn:Hk; [|done]. injection H1 as <-.
        exists r. split; [done|]. intros r'. by rewrite Hl, Hr.
      - rewrite lookup_alter_ne in H1 by done. by exists r1. }
    intros k1 r1 (r1' & H1 & E1)%Hget k2 r2 (r2' & H2 & E2)%Hget Hne.
    rewrite (proj1 (E1 r2)), (proj2 (E2 r1')). by apply (Hu k1 r1' H1 k2).
Qed.

Lemma consistent_where_id {R} (T : tbl Z R) m (f : R → R) id :
  (∀ r, check T (f r) = check T r) →
  (∀ r r', conflict T (f r) r' = conflict T r r') →
  (∀ r r', conflict T r (f r') = conflict T r r') →
  consistent T m → consistent T (where_id id f m).
Proof. destruct id; [apply consistent_alter | done]. Qed.

Section governed.
Context {K R} `{Countable K} (T : tbl K R) (HT : governed T).

Lemma keeps_insert_row k r : keeps integrity (sql_insert_row T k r).
Proof.
  destruct HT as (Hset & Hget & Hsym & Hnote).
  apply keeps_engine. intros w Hs. simpl.
  destruct (refusal T _ r (rows T (db w)) (db w)) eqn:E; [done|].
  apply refusal_None in E as (Hk & Ha & _). simpl.
  apply bool_decide_eq_false in Hk. rewrite <- eq_None_not_Some in Hk.
  match goal with
  | |- integrity (note_key T k ?s') => destruct (Hnote k s') as [q ->]
  end.
  apply integrity_seq, Hset; [done|].
  apply consistent_insert; [done|by apply Hget|]. by rewrite delete_id.
Qed.

Lemma keeps_insert_or_ignore k r :
  keeps integrity (sql_insert_or_ignore T k r).
Proof.
  destruct HT as (Hset & Hget & Hsym & Hnote).
  apply keeps_engine. intros w Hs. simpl.
  destruct (refusal T _ r (rows T (db w)) (db w)) as [[]|] eqn:E;
    try done.
  apply refusal_None in E as (Hk & Ha & _). simpl.
  apply bool_decide_eq_false in Hk. rewrite <- eq_None_not_Some in Hk.
  match goal with
  | |- integrity (note_key T k ?s') => destruct (Hnote k s') as [q ->]
  end.
  apply integrity_seq, Hset; [done|].
  apply consistent_insert; [done|by apply Hget|]. by rewrite delete_id.
Qed.

Lemma keeps_insert_or_replace k r :
  keeps integrity (sql_insert_or_replace T k r).
Proof.
  destruct HT as (Hset & Hget & Hsym & Hnote).
  apply keeps_engine. intros w Hs. simpl.
  destruct (check T r) eqn:Hr; [|done]. simpl.
  destruct (parents T r (db w)); [|done]. simpl.
  match goal with
  | |- integrity (note_key T k ?s') => destruct (Hnote k s') as [q ->]
  end.
  apply integrity_seq, Hset; [done|].
  apply consistent_insert; [done|by apply consistent_filter, Hget|].
  apply admits_spec. split; [done|].
  intros k' r' [_ [Hk' Hc]%map_lookup_filter_Some]%lookup_delete_Some.
  done.
Qed.

Lemma keeps_update_row k f : keeps integrity (sql_update_row T k f).
Proof.
  destruct HT as (Hset & Hget & Hsym & Hnote).
  apply keeps_engine. intros w Hs. simpl.
  destruct (rows T (db w) !! k) as [r|] eqn:Hk; [|done].
  destruct (check T (f r)); [|done]. simpl.
  destruct (admits T (f r) (delete k (rows T (db w)))) eqn:Ha; [|done].
  simpl.
  apply Hset; [done|]. apply consistent_insert; [done|by apply Hget|done].
Qed.

Lemma keeps_update f :
  (∀ m, consistent T m → consistent T (f m)) →
  keeps integrity (sql_update T f).
Proof.
  intros Hf. destruct HT as (Hset & Hget & Hsym & Hnote).
  apply keeps_engine. intros w Hs. simpl. apply Hset; [done|].
  by apply Hf, Hget.
Qed.

Lemma keeps_delete_all : keeps integrity (sql_delete_all T).
Proof.
  destruct HT as (Hset & Hget & Hsym & Hnote).
  apply keeps_engine. intros w Hs. simpl.
  destruct (bool_decide _); [|done]. simpl. apply Hset; [done|].
  apply consistent_empty.
Qed.

Lemma keeps_restore entry : keeps integrity (restore T entry).
Proof.
  destruct entry as [l|]; simpl; [|apply keeps_ret].
  apply keeps_bind; [apply keeps_delete_all|]. intros _.
  apply keeps_if; [|apply keeps_ret].
  apply keeps_for_each. intros row. apply keeps_insert_row.
Qed.

End governed.

Lemma keeps_insert {R} (T : tbl Z R) (row : string → R) :
  governed T → keeps integrity (sql_insert T row).
Proof.
  intros (Hset & Hget & Hsym & Hnote).
  apply keeps_engine. intros w Hs. simpl.
  destruct (refusal T false (row (now w)) (rows T (db w)) (db w)) eqn:E;
    [done|].
  apply refusal_None in E as (_ & Ha & _). simpl.
  apply integrity_seq, Hset; [done|].
  apply consistent_insert; [done|by apply Hget|].
  rewrite delete_id; [done|]. by apply next_key_fresh.
Qed.

Lemma same_text_sym x y : same_text x y = same_text y x.
Proof. destruct x, y; simpl; try done. apply String.eqb_sym. Qed.

Ltac governed :=
  split; [|split; [|split]];
  [ intros m s Hs Hm; unfold integrity in *; destruct s; simpl in *; tauto
  | intros s Hs; unfold integrity in *; destruct s; simpl in *; tauto
  | intros r r'; simpl; first [reflexivity | apply same_text_sym]
  | intros k s; first [ by exists (sqlite_sequence s); destruct s
                      | by eexists ] ].

Lemma governed_users : governed t_users. Proof. governed. Qed.
Lemma governed_settings : governed t_settings. Proof. governed. Qed.
Lemma governed_products : governed t_products. Proof. governed. Qed.
Lemma governed_warehouses : governed t_warehouses. Proof. governed. Qed.
Lemma governed_suppliers : governed t_suppliers. Proof. governed. Qed.
Lemma governed_supplier_transactions : governed t_supplier_transactions.
Proof. governed. Qed.
Lemma governed_customers : governed t_customers. Proof. governed. Qed.
Lemma governed_sales : governed t_sales. Proof. governed. Qed.
Lemma governed_sale_items : governed t_sale_items. Proof. governed. Qed.
Lemma governed_transactions : governed t_transactions. Proof. governed. Qed.
Lemma governed_maintenance : governed t_maintenance. Proof. governed. Qed.
Lemma governed_purchases : governed t_purchases. Proof. governed. Qed.
Lemma governed_purchase_items : governed t_purchase_items.
Proof. governed. Qed.
Lemma governed_general_ledger : governed t_general_ledger.
Proof. governed. Qed.
Lemma governed_stock_adjustments : governed t_stock_adjustments.
Proof. governed. Qed.

Create HintDb schema.
#[local] Hint Resolve governed_users governed_settings governed_products
  governed_warehouses governed_suppliers governed_supplier_transactions
  governed_customers governed_sales governed_sale_items governed_transactions
  governed_maintenance governed_purchases governed_purchase_items
  governed_general_ledger governed_stock_adjustments : schema.

Lemma keeps_where_id {R} (T : tbl Z R) (f : R → R) id :
  governed T →
  (∀ r, check T (f r) = check T r) →
  (∀ r r', conflict T (f r) r' = conflict T r r') →
  (∀ r r', conflict T r (f r') = conflict T r r') →
  keeps integrity (sql_update T (where_id id f)).
Proof.
  intros HT Hc Hl Hr. apply keeps_update; [done|]. intros m.
  by apply consistent_where_id.
Qed.

Ltac keeps :=
  repeat first
    [ progress intros
    | apply keeps_ret | apply keeps_throw | apply keeps_select
    | apply keeps_select_sum
    | apply keeps_bind | apply keeps_try_catch | apply keeps_transaction
    | apply keeps_for_each | apply keeps_for_of | apply keeps_if
    | apply keeps_insert; solve [auto with schema]
    | apply keeps_insert_row; solve [auto with schema]
    | apply keeps_insert_or_ignore; solve [auto with schema]
    | apply keeps_insert_or_replace; solve [auto with schema]
    | apply keeps_update_row; solve [auto with schema]
    | apply keeps_restore; solve [auto with schema]
    | apply keeps_where_id;
        [ solve [auto with schema]
        | by intros []
        | by intros [] ?
        | by intros ? [] ]
    | match goal with
      | |- keeps _ (match ?x with _ => _ end) => destruct x
      end ].

Lemma keeps_updateCustomerBalance c :
  keeps integrity (updateCustomerBalance c).
Proof. unfold updateCustomerBalance. keeps. Qed.

Lemma keeps_updateSupplierBalance c :
  keeps integrity (updateSupplierBalance c).
Proof. unfold updateSupplierBalance. keeps. Qed.

Lemma reads_keeps {A} P (m : M A) : reads m → keeps P m.
Proof. intros Hm w w' r HP Hrun. by rewrite (Hm _ _ _ Hrun). Qed.

Lemma keeps_import_unit b : keeps integrity (import_unit b).
Proof. unfold import_unit, TABLES. simpl. keeps. Qed.

Lemma keeps_startup : keeps integrity startup.
Proof. unfold startup, sql_get. keeps. Qed.

Lemma keeps_route {A} (handler : M A) :
  route handler → keeps integrity handler.
Proof.
  destruct 1;
    unfold post_login, post_register, get_settings, post_settings,
      post_products, put_products, post_sales, sale_unit, sale_line,
      post_customers, post_payments, post_suppliers, post_warehouses,
      post_maintenance, put_maintenance, post_purchases, purchase_unit,
      purchase_line, post_supplier_payments, post_ledger,
      post_stock_adjustments, adjustment_unit, get_backup_export,
      post_backup_import, express, uncaught, sql_get;
    keeps;
    first [ apply keeps_updateCustomerBalance
          | apply keeps_updateSupplierBalance
          | apply keeps_import_unit
          | apply reads_keeps, export_reads ].
Qed.

(** Every database that the server can reach from an empty file, through
    its startup and the requests to its routes, in any order and whatever
    the engine does to any statement, obeys the CHECK and UNIQUE
    constraints of the schema: the UPDATE statements of the handlers
    touch no constrained column of a stored row, except those of PUT
    /api/products/:id, where the engine itself refuses. *)
Theorem reachable_integrity s : reachable s → integrity s.
Proof.
  induction 1 as [|w w' r _ IH Hrun|A handler w w' r Hroute _ IH Hrun].
  - apply (@bool_decide_unpack _ (integrity_dec empty_store)).
    vm_compute. exact I.
  - by apply (keeps_startup _ _ _ IH Hrun).
  - by apply (keeps_route _ Hroute _ _ _ IH Hrun).
Qed.

(** ** What a restore accepts *)

Section accepted.
Context {K R : Type} `{Countable K} (T : tbl K R) (HT : lawful T)
  (HG : governed T).

(** If the INSERTs of the rows of an entry all go through, no two of the
    rows have the same key and the table obeys its constraints. *)
Lemma insert_rows_valid l s t Σ w' :
  consistent T (rows T s) →
  for_each l (λ row, sql_insert_row T row.1 row.2) (World s [] t Σ)
  = (w', Ok tt) →
  NoDup l.*1 ∧ consistent T (list_to_map l ∪ rows T s).
Proof.
  destruct HG as (_ & _ & Hsym & _).
  revert s. induction l as [|[k r] l IH]; intros s Hs; simpl.
  - intros _. split; [apply NoDup_nil_2|]. by rewrite (left_id_L ∅ (∪)).
  - unfold bind.
    destruct (sql_insert_row T k r (World s [] t Σ)) as [w1 [[]|e]] eqn:E;
      [|done].
    apply (sql_insert_row_inv T HT) in E as (Hk & Ha & _ & q1 & ->).
    intros Hrun. pose proof Hrun as Hrun'.
    apply (insert_rows_inv T HT) in Hrun' as [Hfresh _].
    apply IH in Hrun as [Hnd Hcons].
    + rewrite (rows_written T HT) in Hfresh, Hcons. split.
      * apply NoDup_cons. split; [|done]. intros Hin.
        apply Hfresh in Hin. by rewrite lookup_insert_eq in Hin.
      * assert (Hnot : (list_to_map l : gmap K R) !! k = None).
        { apply not_elem_of_list_to_map_1. intros Hin.
          apply Hfresh in Hin. by rewrite lookup_insert_eq in Hin. }
        by rewrite <- insert_union_l, insert_union_r.
    + rewrite (rows_written T HT). apply consistent_insert; [done|done|].
      by rewrite delete_id.
Qed.

(** A round of the restore loop that goes through had a valid entry. *)
Lemma restore_valid entry s t Σ w' :
  restore T entry (World s [] t Σ) = (w', Ok tt) → entry_valid T entry.
Proof.
  destruct HT as (H1 & _).
  destruct entry as [l|]; simpl; [|done].
  unfold bind. rewrite sql_delete_all_run.
  destruct (bool_decide (unreferenced T s)); [|done].
  destruct (0 <? length l)%nat eqn:El.
  - intros [Hnd Hcons]%insert_rows_valid.
    + rewrite H1, (right_id_L ∅ (∪)) in Hcons. done.
    + rewrite H1. apply consistent_empty.
  - destruct l; [|done]. intros _. split; [apply NoDup_nil_2|].
    apply consistent_empty.
Qed.

End accepted.

(** The references of the rows of an entry, foreign key by foreign
    key. *)
Lemma refers_both {R P Q} (c1 c2 : R → ref) (p1 : gmap Z P) (p2 : gmap Z Q)
    (entry : option (list (Z * R))) :
  match entry with
  | None => True
  | Some l => Forall (λ kr, has p1 (c1 kr.2) && has p2 (c2 kr.2) = true) l
  end
  ↔ refers_within c1 p1 entry ∧ refers_within c2 p2 entry.
Proof.
  destruct entry as [l|]; simpl; [|tauto].
  rewrite <- Forall_and. apply Forall_iff. intros kr.
  apply andb_true_iff.
Qed.

Lemma refers_sales e s :
  entry_refers t_sales e s
  ↔ refers_within Sale.customer_id (customers s) e
    ∧ refers_within Sale.user_id (users s) e.
Proof. apply refers_both. Qed.

Lemma refers_sale_items e s :
  entry_refers t_sale_items e s
  ↔ refers_within SaleItem.sale_id (sales s) e
    ∧ refers_within SaleItem.product_id (products s) e.
Proof. apply refers_both. Qed.

Lemma refers_purchases e s :
  entry_refers t_purchases e s
  ↔ refers_within Purchase.supplier_id (suppliers s) e
    ∧ refers_within Purchase.user_id (users s) e.
Proof. apply refers_both. Qed.

Lemma refers_purchase_items e s :
  entry_refers t_purchase_items e s
  ↔ refers_within PurchaseItem.purchase_id (purchases s) e
    ∧ refers_within PurchaseItem.product_id (products s) e.
Proof. apply refers_both. Qed.

Lemma refers_nothing {K R} `{Countable K} (T : tbl K R) e s :
  (∀ r s, parents T r s = true) → entry_refers T e s.
Proof.
  intros Hp. destruct e as [l|]; simpl; [|done].
  apply Forall_forall. intros kr _. apply Hp.
Qed.

(** Reading a table of a database that is given as a chain of writes. *)
Ltac project :=
  lazy beta iota delta
    [ users settings products warehouses suppliers supplier_transactions customers sales sale_items transactions maintenance purchases purchase_items general_ledger stock_adjustments sqlite_sequence
      set_users set_settings set_products set_warehouses set_suppliers set_supplier_transactions set_customers set_sales set_sale_items set_transactions set_maintenance set_purchases set_purchase_items set_general_ledger set_stock_adjustments set_sqlite_sequence
      t_users t_settings t_products t_warehouses t_suppliers t_supplier_transactions t_customers t_sales t_sale_items t_transactions t_maintenance t_purchases t_purchase_items t_general_ledger t_stock_adjustments
      rows set_rows db ].

Ltac project_in H :=
  lazy beta iota delta
    [ users settings products warehouses suppliers supplier_transactions customers sales sale_items transactions maintenance purchases purchase_items general_ledger stock_adjustments sqlite_sequence
      set_users set_settings set_products set_warehouses set_suppliers set_supplier_transactions set_customers set_sales set_sale_items set_transactions set_maintenance set_purchases set_purchase_items set_general_ledger set_stock_adjustments set_sqlite_sequence
      t_users t_settings t_products t_warehouses t_suppliers t_supplier_transactions t_customers t_sales t_sale_items t_transactions t_maintenance t_purchases t_purchase_items t_general_ledger t_stock_adjustments
      rows set_rows db ] in H.

(** One round of the loop, inside the sequence of rounds. *)
Ltac round H HT HG :=
  unfold bind in H at 1;
  match type of H with
  | context [restore ?T ?e ?w] =>
      let E := fresh "E" in
      let V := fresh "V" in
      let C := fresh "C" in
      let F := fresh "F" in
      destruct (restore T e w) as [? [[]|?]] eqn:E; [|discriminate H];
      let m := fresh "m" in
      let Hm := fresh "Hm" in
      pose proof (restore_valid T HT HG _ _ _ _ _ E) as V;
      apply (restore_inv T HT) in E as (C & F & ? & m & -> & Hm);
      unfold restored in Hm; project_in Hm; subst m
  end.

(** The restore loop that goes through: the snapshot was restorable, and
    each table holds what the snapshot gives for it. *)
Lemma import_unit_inv b s t Σ w' :
  import_unit b (World s [] t Σ) = (w', Ok tt) →
  all_restored b s (db w') ∧ restorable b s.
Proof.
  unfold import_unit, TABLES. simpl. intros Hrun.
  round Hrun lawful_users governed_users.
  round Hrun lawful_settings governed_settings.
  round Hrun lawful_products governed_products.
  round Hrun lawful_warehouses governed_warehouses.
  round Hrun lawful_suppliers governed_suppliers.
  round Hrun lawful_supplier_transactions governed_supplier_transactions.
  round Hrun lawful_customers governed_customers.
  round Hrun lawful_sales governed_sales.
  round Hrun lawful_sale_items governed_sale_items.
  round Hrun lawful_transactions governed_transactions.
  round Hrun lawful_maintenance governed_maintenance.
  round Hrun lawful_purchases governed_purchases.
  round Hrun lawful_purchase_items governed_purchase_items.
  round Hrun lawful_general_ledger governed_general_ledger.
  round Hrun lawful_stock_adjustments governed_stock_adjustments.
  unfold ret in Hrun. apply pair_equal_spec in Hrun as [Hw _]. subst w'.
  split; [|split; [|split]].
  - unfold all_restored, restored. project. by repeat split.
  - unfold snapshot_valid. repeat split; assumption.
  - unfold clearable. repeat split; assumption.
  - apply refers_sales in F6 as [? ?].
    apply refers_sale_items in F7 as [? ?].
    apply refers_purchases in F10 as [? ?].
    apply refers_purchase_items in F11 as [? ?].
    unfold references_met. cbv zeta. repeat split; assumption.
Qed.

(** One round that goes through, inside the sequence of rounds. *)
Ltac pass HT Hv tacC tacR :=
  unfold bind at 1;
  match goal with
  | |- context [restore ?T ?e (World ?s [] ?t ?Σ)] =>
      let E := fresh "E" in
      let E' := fresh "E" in
      let w1 := fresh "w" in
      let Hc := fresh "Hc" in
      let Hr := fresh "Hr" in
      assert (Hc : is_Some e → unreferenced T s) by tacC;
      assert (Hr : entry_refers T e s) by tacR;
      destruct (restore_ok T HT e s t Σ Hv Hc Hr) as [w1 E];
      clear Hc Hr;
      let m := fresh "m" in
      let Hm := fresh "Hm" in
      pose proof E as E';
      apply (restore_inv T HT) in E' as (_ & _ & ? & m & -> & Hm);
      unfold restored in Hm; project_in Hm; subst m;
      rewrite E; clear E; cbv beta iota
  end.

Ltac childless := intros _ ? ? _; reflexivity.
Ltac parentless := apply refers_nothing; reflexivity.

Lemma import_unit_ok b s t Σ :
  restorable b s → ∃ w', import_unit b (World s [] t Σ) = (w', Ok tt).
Proof.
  intros ((V1 & V2 & V3 & V4 & V5 & V6 & V7 & V8 & V9 & V10 & V11 & V12
           & V13 & V14 & V15)
          & (C1 & C3 & C5 & C7 & C8 & C12)
          & (F6 & F8a & F8b & F9a & F9b & F10 & F11 & F12a & F12b & F13a
             & F13b & F15)).
  cbv zeta in *.
  unfold import_unit, TABLES. simpl.
  pass lawful_users V1 ltac:(exact C1) ltac:(parentless).
  pass lawful_settings V2 ltac:(childless) ltac:(parentless).
  pass lawful_products V3 ltac:(exact C3) ltac:(parentless).
  pass lawful_warehouses V4 ltac:(childless) ltac:(parentless).
  pass lawful_suppliers V5 ltac:(exact C5) ltac:(parentless).
  pass lawful_supplier_transactions V6 ltac:(childless) ltac:(exact F6).
  pass lawful_customers V7 ltac:(exact C7) ltac:(parentless).
  pass lawful_sales V8 ltac:(exact C8)
    ltac:(apply refers_sales; split; [exact F8a|exact F8b]).
  pass lawful_sale_items V9 ltac:(childless)
    ltac:(apply refers_sale_items; split; [exact F9a|exact F9b]).
  pass lawful_transactions V10 ltac:(childless) ltac:(exact F10).
  pass lawful_maintenance V11 ltac:(childless) ltac:(exact F11).
  pass lawful_purchases V12 ltac:(exact C12)
    ltac:(apply refers_purchases; split; [exact F12a|exact F12b]).
  pass lawful_purchase_items V13 ltac:(childless)
    ltac:(apply refers_purchase_items; split; [exact F13a|exact F13b]).
  pass lawful_general_ledger V14 ltac:(childless) ltac:(parentless).
  pass lawful_stock_adjustments V15 ltac:(childless) ltac:(exact F15).
  by eexists.
Qed.

(** What POST /api/backup/import answers, and what a 200 stands for. *)
Lemma post_backup_import_answer b w :
  ∃ w' resp,
    post_backup_import b w = (w', Ok resp)
    ∧ (status resp = 200 →
       resp = json Success ∧ all_restored b (db w) (db w')
       ∧ restorable b (db w))
    ∧ (status resp ≠ 200 → status resp = 500 ∧ db w' = db w)
    ∧ (fault_free w → restorable b (db w) → status resp = 200).
Proof.
  unfold post_backup_import.
  destruct (atomic_handler (import_unit b) (λ _, json Success) 500 w
              (stable_import_unit b))
    as [(w' & [] & Hh & Hu)|(w' & e & Hh & Hdb)].
  - exists w', (json Success). split; [done|].
    split; [|split; [done|done]].
    intros _. split; [done|]. by apply import_unit_inv in Hu.
  - exists w', (json_error 500 e). split; [done|]. split; [done|].
    split; [done|]. intros Hff Hv. exfalso.
    destruct (import_unit_ok b (db w) (now w) (summation w) Hv)
      as [w1 Hrun].
    unfold fault_free in Hff. rewrite (world_eta w), Hff in Hh.
    rewrite (atomic_handler_ok _ (λ _, json Success) 500 _ _ tt Hrun) in Hh.
    done.
Qed.




(** Once customer 1 has bought something, the customers cannot be
    replaced: the sale and its transactions refer to the customer, the
    engine refuses the DELETE, and the answer is 500. *)
Lemma restore_refused_after_sale :
  let sold :=
    (post_sales (Some 1) (Some 1) (num 20) (num 0) (Some "paid")
       (Some "Cash")
       (Some [SaleLine.Make (Some 1) (num 2) (num 10) (num 20)]) shop).1 in
  let answer :=
    post_backup_import (Backup.set_customers [] Backup.empty) sold in
  answer.2 = Ok (json_error 500 (SqliteConstraint FOREIGN_KEY))
  ∧ db answer.1 = db sold.
Proof. by vm_compute. Qed.

(** ** Export *)

Lemma list_to_map_scan {R} (m : gmap Z R) : list_to_map (scan m) = m.
Proof.
  unfold scan. rewrite <- (list_to_map_to_list m) at 2.
  apply list_to_map_proper; [|apply merge_sort_Permutation].
  rewrite merge_sort_Permutation. apply NoDup_fst_map_to_list.
Qed.

Lemma NoDup_scan {R} (m : gmap Z R) : NoDup (scan m).*1.
Proof.
  unfold scan. rewrite merge_sort_Permutation. apply NoDup_fst_map_to_list.
Qed.

Lemma elem_of_scan {R} (m : gmap Z R) k r :
  (k, r) ∈ scan m ↔ m !! k = Some r.
Proof.
  unfold scan. rewrite merge_sort_Permutation. apply elem_of_map_to_list.
Qed.

Lemma scan_valid {R} (T : tbl Z R) (m : gmap Z R) :
  consistent T m → entry_valid T (Some (scan m)).
Proof.
  intros Hc. split; [apply NoDup_scan|]. by rewrite list_to_map_scan.
Qed.

Lemma snapshot_of_valid s : integrity s → snapshot_valid (snapshot_of s).
Proof.
  intros (V1 & V2 & V3 & V4 & V5 & V6 & V7 & V8 & V9 & V10 & V11 & V12
          & V13 & V14 & V15).
  unfold snapshot_valid, snapshot_of; simpl.
  split; [by apply scan_valid|]. split.
  { split; [apply NoDup_fst_map_to_list|by rewrite list_to_map_to_list]. }
  repeat (split; [by apply scan_valid|]). by apply scan_valid.
Qed.

Lemma snapshot_of_restored s s' :
  all_restored (snapshot_of s) s s' → same_tables s s'.
Proof.
  unfold all_restored, same_tables, snapshot_of, restored, replaced; simpl.
  rewrite !list_to_map_scan, list_to_map_to_list. tauto.
Qed.

Lemma export_ok s t Σ :
  for_each_into TABLES Backup.empty export_table (World s [] t Σ)
  = (World s [] t Σ, Ok (snapshot_of s)).
Proof. done. Qed.

Lemma stable_export : stable (for_each_into TABLES Backup.empty export_table).
Proof. unfold TABLES. simpl. stable. Qed.

Lemma json_real_writable x : writable x = true → json_real x = x.
Proof.
  destruct x as [f|]; simpl; [|done].
  destruct (json_number f) as [g|]; [|done].
  by intros ->%Leibniz.eqb_spec.
Qed.

Ltac json_id :=
  intros Hf;
  repeat match type of Hf with
         | _ && _ = true => apply andb_true_iff in Hf as [Hf ?]
         end;
  simpl in *; by rewrite !json_real_writable.

Lemma product_json r : Product.finite r = true → Product.json r = r.
Proof. destruct r; unfold Product.finite, Product.json. json_id. Qed.

Lemma supplier_json r : Supplier.finite r = true → Supplier.json r = r.
Proof. destruct r; unfold Supplier.finite, Supplier.json. json_id. Qed.

Lemma supplier_transaction_json r :
  SupplierTransaction.finite r = true → SupplierTransaction.json r = r.
Proof.
  destruct r; unfold SupplierTransaction.finite, SupplierTransaction.json.
  json_id.
Qed.

Lemma customer_json r : Customer.finite r = true → Customer.json r = r.
Proof. destruct r; unfold Customer.finite, Customer.json. json_id. Qed.

Lemma sale_json r : Sale.finite r = true → Sale.json r = r.
Proof. destruct r; unfold Sale.finite, Sale.json. json_id. Qed.

Lemma sale_item_json r : SaleItem.finite r = true → SaleItem.json r = r.
Proof. destruct r; unfold SaleItem.finite, SaleItem.json. json_id. Qed.

Lemma transaction_json r :
  Transaction.finite r = true → Transaction.json r = r.
Proof. destruct r; unfold Transaction.finite, Transaction.json. json_id. Qed.

Lemma maintenance_json r :
  Maintenance.finite r = true → Maintenance.json r = r.
Proof. destruct r; unfold Maintenance.finite, Maintenance.json. json_id. Qed.

Lemma purchase_json r : Purchase.finite r = true → Purchase.json r = r.
Proof. destruct r; unfold Purchase.finite, Purchase.json. json_id. Qed.

Lemma purchase_item_json r :
  PurchaseItem.finite r = true → PurchaseItem.json r = r.
Proof.
  destruct r; unfold PurchaseItem.finite, PurchaseItem.json. json_id.
Qed.

Lemma general_ledger_json r :
  GeneralLedger.finite r = true → GeneralLedger.json r = r.
Proof.
  destruct r; unfold GeneralLedger.finite, GeneralLedger.json. json_id.
Qed.

Lemma stock_adjustment_json r :
  StockAdjustment.finite r = true → StockAdjustment.json r = r.
Proof.
  destruct r; unfold StockAdjustment.finite, StockAdjustment.json. json_id.
Qed.

(** The rows of a table whose numbers JSON writes as they are, are
    exported as they are. *)
Lemma scan_json {R} (json : R → R) (finite : R → bool) (m : gmap Z R) :
  (∀ r, finite r = true → json r = r) →
  map_Forall (λ _ r, finite r = true) m →
  entry_json json (Some (scan m)) = Some (scan m).
Proof.
  intros Hid Hm. simpl. f_equal.
  transitivity (id <$> scan m); [|apply list_fmap_id].
  apply Forall_fmap_ext_1, Forall_forall. intros [k r] Hin. simpl. f_equal.
  apply Hid, (Hm k). by apply elem_of_scan.
Qed.

Lemma snapshot_json s :
  finite_numbers s → Backup.json (snapshot_of s) = snapshot_of s.
Proof.
  intros (F1 & F2 & F3 & F4 & F5 & F6 & F7 & F8 & F9 & F10 & F11 & F12).
  unfold Backup.json, snapshot_of.
  cbn [Backup.users Backup.settings Backup.products Backup.warehouses
       Backup.suppliers Backup.supplier_transactions Backup.customers
       Backup.sales Backup.sale_items Backup.transactions Backup.maintenance
       Backup.purchases Backup.purchase_items Backup.general_ledger
       Backup.stock_adjustments].
  rewrite (scan_json _ _ _ product_json F1),
    (scan_json _ _ _ supplier_json F2),
    (scan_json _ _ _ supplier_transaction_json F3),
    (scan_json _ _ _ customer_json F4), (scan_json _ _ _ sale_json F5),
    (scan_json _ _ _ sale_item_json F6),
    (scan_json _ _ _ transaction_json F7),
    (scan_json _ _ _ maintenance_json F8),
    (scan_json _ _ _ purchase_json F9),
    (scan_json _ _ _ purchase_item_json F10),
    (scan_json _ _ _ general_ledger_json F11),
    (scan_json _ _ _ stock_adjustment_json F12).
  done.
Qed.

(** The entries of an export are all there, also in JSON. *)
Lemma export_clearable s s' :
  clearable (Backup.json (snapshot_of s)) s' → no_reference s'.
Proof.
  intros (C1 & C2 & C3 & C4 & C5 & C6).
  by repeat split; [apply C1|apply C2|apply C3|apply C4|apply C5|apply C6].
Qed.

Lemma unnamed_null {R} (col : R → ref) (child : gmap Z R) k :
  null_in col child → unnamed col child k = true.
Proof.
  intros Hn. apply bool_decide_eq_true. intros j r Hj.
  by rewrite (Hn j r Hj).
Qed.

Lemma refers_null {R P} (col : R → ref) (parent : gmap Z P)
    (child : gmap Z R) :
  null_in col child → refers_within col parent (Some (scan child)).
Proof.
  intros Hn. apply Forall_forall. intros [k r] Hin%elem_of_scan. simpl.
  by rewrite (Hn k r Hin).
Qed.

Lemma detached_restorable s :
  integrity s → detached s → restorable (snapshot_of s) s.
Proof.
  intros Hint (N1 & N2 & N3 & N4 & N5 & N6 & N7 & N8 & N9 & N10 & N11
               & N12).
  split; [by apply snapshot_of_valid|]. split.
  - repeat split; intros _ k r _; simpl;
      by rewrite !unnamed_null.
  - unfold references_met. cbv zeta.
    repeat split; by apply refers_null.
Qed.

(** C9.  A ledger entry of an infinite amount (1e999 in the JSON text of
    the request) is exported as null, and the import of the export stores
    NULL in its place. *)
Lemma C9_counterexample :
  let w :=
    (post_ledger (Some "revenue") None (Some infinity) None opening_day).1
  in
  let exported := get_backup_export w in
  ∃ b,
    exported.2 = Ok (Response 200 (Snapshot b))
    ∧ let imported := post_backup_import b exported.1 in
      imported.2 = Ok (json Success)
      ∧ GeneralLedger.amount <$> general_ledger (db w) !! 1
        = Some (Some infinity)
      ∧ GeneralLedger.amount <$> general_ledger (db imported.1) !! 1
        = Some None
      ∧ general_ledger (db imported.1) ≠ general_ledger (db w).
Proof.
  eexists. split; [vm_compute; reflexivity|].
  split; [vm_compute; reflexivity|]. split; [vm_compute; reflexivity|].
  split; [vm_compute; reflexivity|].
  intros E.
  apply (f_equal (λ m, GeneralLedger.amount <$> m !! 1)) in E.
  vm_compute in E. discriminate E.
Qed.

(** C9, amended.  GET /api/backup/export always answers and writes
    nothing; on the fault-free engine its answer is the snapshot of the
    database, written as JSON.  When the snapshot it has answered is
    handed to POST /api/backup/import, the import always answers, and
    afterwards, if JSON writes every number of the database as it is
    (none is infinite, none is the negative zero), each of the fifteen
    tables holds the rows it held before the export, row for row and key
    for key, whatever the engine does during the import.  The import is
    answered 200 only if no stored row refers to a stored row of another
    table; on the fault-free engine it is answered 200 if the rows obey
    the CHECK and UNIQUE constraints of the schema, every reference is
    NULL and JSON writes every number as it is. *)
Theorem C9_export_then_import w :
  ∃ w1 r1,
    get_backup_export w = (w1, Ok r1)
    ∧ db w1 = db w
    ∧ (fault_free w →
       r1 = json (Snapshot (snapshot_of (db w))) ∧ fault_free w1)
    ∧ (∀ b, payload r1 = Snapshot b →
       ∃ w2 r2,
         post_backup_import b w1 = (w2, Ok r2)
         ∧ (finite_numbers (db w) → same_tables (db w) (db w2))
         ∧ (status r2 = 200 → no_reference (db w))
         ∧ (fault_free w1 → integrity (db w) → detached (db w) →
            finite_numbers (db w) → r2 = json Success)).
Proof.
  unfold get_backup_export, try_catch, bind.
  destruct (for_each_into TABLES Backup.empty export_table w)
    as [w1 [b|e]] eqn:E.
  - exists w1, (json (Snapshot b)). split; [done|].
    pose proof (export_reads _ _ _ E) as Hdb. split; [done|].
    pose proof E as E'. rewrite (world_eta w) in E'.
    apply stable_export in E' as (_ & _ & E'). rewrite export_ok in E'.
    injection E' as _ <-. split.
    + intros Hff. split; [done|]. unfold fault_free in *.
      rewrite (world_eta w), Hff, export_ok in E. by injection E as <-.
    + intros b' [= <-].
      destruct (post_backup_import_answer
                  (Backup.json (snapshot_of (db w))) w1)
        as (w2 & r2 & Hrun & Hok & Hfail & Hvalid).
      exists w2, r2. split; [done|]. split; [|split].
      * intros Hfin. rewrite (snapshot_json _ Hfin) in Hok.
        destruct (decide (status r2 = 200)) as [H200|Hno].
        -- apply snapshot_of_restored. rewrite <- Hdb at 2.
           by apply Hok.
        -- destruct (Hfail Hno) as [_ ->]. rewrite Hdb.
           by repeat split.
      * intros H200. destruct (Hok H200) as (_ & _ & _ & Hc & _).
        rewrite Hdb in Hc. by apply export_clearable in Hc.
      * intros Hff Hint Hdet Hfin.
        rewrite (snapshot_json _ Hfin) in Hok, Hvalid.
        assert (H200 : status r2 = 200).
        { apply Hvalid; [done|]. rewrite Hdb.
          by apply detached_restorable. }
        by destruct (Hok H200).
  - exists w1, (json_error 500 e). split; [done|].
    split; [by apply (export_reads _ _ _ E)|]. split; [|done].
    intros Hff. exfalso. unfold fault_free in Hff.
    rewrite (world_eta w), Hff, export_ok in E. done.
Qed.

(** In the shop, where no row refers to another yet: export, then import
    of what was exported, is answered 200 and the shop is as before, with
    the balance of 100 of customer 1 and the 5 phones in stock. *)
Lemma C9_export_then_import_witness :
  let exported := get_backup_export shop in
  let imported :=
    post_backup_import (Backup.json (snapshot_of (db shop))) exported.1 in
  exported.2
  = Ok (Response 200 (Snapshot (Backup.json (snapshot_of (db shop)))))
  ∧ imported.2 = Ok (json Success)
  ∧ same_tables (db shop) (db imported.1)
  ∧ Customer.balance <$> customers (db imported.1) !! 1 = Some (num 100)
  ∧ Product.stock_quantity <$> products (db imported.1) !! 1 = Some (num 5).
Proof.
  intros exported imported.
  destruct (C9_export_then_import shop)
    as (w1 & r1 & Hexp & Hdb & Hff & Himp).
  destruct (Hff eq_refl) as [-> Hff1].
  destruct (Himp _ eq_refl) as (w2 & r2 & Hrun & Hsame & _ & Hok).
  assert (Hint : integrity (db shop))
    by (apply (bool_decide_unpack _); vm_compute; reflexivity).
  assert (Hdet : detached (db shop))
    by (apply (bool_decide_unpack _); vm_compute; reflexivity).
  assert (Hfin : finite_numbers (db shop))
    by (apply (bool_decide_unpack _); vm_compute; reflexivity).
  rewrite (Hok Hff1 Hint Hdet Hfin) in Hrun.
  assert (Hw1 : w1 = exported.1) by (unfold exported; by rewrite Hexp).
  subst w1.
  assert (Hw2 : w2 = imported.1) by (unfold imported; by rewrite Hrun).
  subst w2.
  split; [unfold exported; by rewrite Hexp|].
  split; [unfold imported; by rewrite Hrun|].
  destruct (Hsame Hfin) as (S1 & S2 & S3 & S4 & S5 & S6 & S7 & S8).
  split; [by apply Hsame|].
  split; [rewrite S7|rewrite S3]; vm_compute; reflexivity.
Defined.

(** * The other handlers *)

Lemma NoDup_scan_rows {R} (m : gmap Z R) : NoDup (scan m).
Proof.
  unfold scan. rewrite merge_sort_Permutation. apply NoDup_map_to_list.
Qed.

Lemma NoDup_only {A} (l : list A) x :
  NoDup l → (∀ y, y ∈ l ↔ y = x) → l = [x].
Proof.
  intros Hnd Hx. destruct l as [|a l].
  - exfalso. by apply (not_elem_of_nil x), Hx.
  - assert (a = x) as -> by (apply Hx; by left).
    apply NoDup_cons in Hnd as [Hnot Hnd]. f_equal.
    destruct l as [|b l]; [done|]. exfalso. apply Hnot.
    assert (b = x) as -> by (apply Hx; right; by left). by left.
Qed.

(** ** Users *)

(** The rows that a login selects. *)
Lemma login_rows username password (m : gmap Z User.t) k r :
  (k, r) ∈ filter (credentials username password) (scan m)
  ↔ m !! k = Some r
    ∧ (is_Some username ∧ User.username r = username)
    ∧ (is_Some password ∧ User.password r = password).
Proof.
  rewrite list_elem_of_filter, elem_of_scan. unfold credentials. simpl.
  tauto.
Qed.

(** POST /api/login writes nothing.  An answer with an account stands for a
    stored user with the username and the password of the request, and
    carries the key, the username and the role of that user.  On the
    fault-free engine the answer is 401 exactly when no stored user has
    the username and the password of the request (a username or a
    password that is missing matches no user), and is an account
    otherwise. *)
Theorem login_answer username password w :
  ∃ w' a,
    post_login username password w = (w', Ok a)
    ∧ db w' = db w
    ∧ (∀ account, a = Sent account →
         ∃ user,
           users (db w) !! Account.id account = Some user
           ∧ is_Some username ∧ is_Some password
           ∧ User.username user = username
           ∧ User.password user = password
           ∧ Account.username account = username
           ∧ Account.role account = User.role user)
    ∧ (fault_free w →
       (a = Refused 401 "Invalid credentials"
        ↔ ¬ ∃ k user, users (db w) !! k = Some user
                      ∧ (is_Some username ∧ User.username user = username)
                      ∧ (is_Some password
                         ∧ User.password user = password))
       ∧ (a ≠ Refused 401 "Invalid credentials" → ∃ account, a = Sent account)).
Proof.
  unfold post_login, uncaught, try_catch, bind, sql_get, sql_select.
  match goal with
  | |- context [engine ?f w] =>
      destruct (engine_cases f w) as [[rest E]|E]; rewrite E; simpl
  end.
  - eexists _, _. split; [done|]. split; [done|]. split; [done|].
    intros Hff. unfold fault_free in Hff. unfold engine in E.
    rewrite Hff in E. done.
  - destruct (head _) as [account|] eqn:Hhead; simpl.
    + eexists _, _. split; [done|]. split; [done|]. split.
      * intros ? [= <-]. apply head_Some_elem_of in Hhead.
        apply list_elem_of_fmap in Hhead as ([k user] & -> & Hin).
        apply login_rows in Hin as (Hk & [? Hu] & [? Hp]). by exists user.
      * intros _. split; [|by eauto]. split; [done|]. intros Hno.
        exfalso. apply Hno. apply head_Some_elem_of in Hhead.
        apply list_elem_of_fmap in Hhead as ([k user] & -> & Hin).
        apply login_rows in Hin. by exists k, user.
    + eexists _, _. split; [done|]. split; [done|]. split; [done|].
      intros _. split; [|done]. split; [|done].
      intros _ (k & user & Hk & Hu & Hp).
      apply head_None in Hhead. apply fmap_nil_inv in Hhead.
      apply (not_elem_of_nil (k, user)). rewrite <- Hhead.
      by apply login_rows.
Qed.

(** In the shop: the administrator logs in. *)
Lemma login_answer_witness :
  ∃ user,
    post_login (Some "admin") (Some "admin123") shop
    = (shop,
       Ok (Sent (Account.Make 1 (Some "admin") (Some "admin"))))
    ∧ users (db shop) !! 1 = Some user
    ∧ User.username user = Some "admin"
    ∧ User.password user = Some "admin123"
    ∧ Some "admin" = User.role user.
Proof.
  destruct (login_answer (Some "admin") (Some "admin123") shop)
    as (w' & a & Hrun & _ & Hsent & _).
  assert (Hlogin : post_login (Some "admin") (Some "admin123") shop
                   = (shop,
                      Ok (Sent (Account.Make 1 (Some "admin")
                                  (Some "admin")))))
    by (vm_compute; reflexivity).
  rewrite Hlogin in Hrun. injection Hrun as <- <-.
  destruct (Hsent _ eq_refl) as (user & Hk & _ & _ & Hu & Hp & _ & Hr).
  by exists user.
Defined.

Lemma same_text_false x y :
  same_text x y = false ↔ (is_Some y → x ≠ y).
Proof.
  destruct x as [a|], y as [b|]; simpl.
  - rewrite String.eqb_neq. split; [intros Hne _ [= ->]; done|].
    intros Hne ->. by apply Hne.
  - split; [by intros _ [? [=]]|done].
  - split; [by intros _ _|done].
  - split; [by intros _ [? [=]]|done].
Qed.

Lemma admits_user username password role (m : gmap Z User.t) :
  admits t_users (User.Make username password role) m = true
  ↔ one_of ["admin"; "accountant"; "engineer"] role = true
    ∧ ∀ k user, m !! k = Some user → is_Some username →
        User.username user ≠ username.
Proof.
  rewrite admits_spec. simpl. split; intros [Hr Hu]; (split; [done|]).
  - intros k user Hk. apply same_text_false.
    rewrite same_text_sym. by apply (Hu k).
  - intros k user Hk. rewrite same_text_sym. apply same_text_false.
    by apply (Hu k).
Qed.

Lemma refusal_user username password role s :
  refusal t_users false (User.Make username password role) (users s) s
  = None
  ↔ can_register username role s.
Proof.
  rewrite refusal_None, admits_user. unfold can_register. simpl.
  intuition.
Qed.

(** What POST /api/register answers, and what a 200 stands for. *)
Lemma register_cases username password role w :
  ∃ w' resp,
    post_register username password role w = (w', Ok resp)
    ∧ (status resp = 200
       ∨ resp = Response 400 (Failure "Username already exists")
         ∧ db w' = db w)
    ∧ (status resp = 200 →
       can_register username role (db w)
       ∧ ∃ id,
           payload resp = Id id
           ∧ users (db w) !! id = None
           ∧ users (db w')
             = <[id := User.Make username password role]> (users (db w)))
    ∧ (fault_free w →
       (status resp = 200 ↔ can_register username role (db w))).
Proof.
  unfold post_register, try_catch, bind, sql_insert.
  match goal with
  | |- context [engine ?f w] =>
      destruct (engine_cases f w) as [[rest E]|E]; rewrite E; simpl
  end.
  - eexists _, _. split; [done|]. split; [by right|]. split; [done|].
    intros Hff. unfold fault_free in Hff. unfold engine in E.
    rewrite Hff in E. simpl in E.
    by destruct (refusal _ _ _ _ _).
  - destruct (refusal t_users _ _ _ _) eqn:Ha; simpl.
    + eexists _, _. split; [done|]. split; [by right|]. split; [done|].
      intros _. split; [done|]. intros Hcan.
      apply (proj2 (refusal_user username password role _)) in Hcan.
      simpl in *. congruence.
    + apply refusal_user in Ha.
      eexists _, _. split; [done|]. split; [by left|]. split; [|done].
      intros _. split; [done|]. eexists. split; [done|].
      split; [|done]. by apply (next_key_fresh t_users).
Qed.

(** POST /api/register always answers, with 200 or with 400 and the one
    message 'Username already exists', whatever went wrong; after a 400
    the database is what it was.  A 200 carries the key of the new user,
    stored with the username, password and role of the request.  On the
    fault-free engine the answer is 200 exactly when the role is one of
    the schema or missing, and the username is missing or that of no
    stored user. *)
Theorem register_answer username password role w :
  ∃ w' resp,
    post_register username password role w = (w', Ok resp)
    ∧ (status resp = 200
       ∨ resp = Response 400 (Failure "Username already exists")
         ∧ db w' = db w)
    ∧ (status resp = 200 →
       can_register username role (db w)
       ∧ ∃ id,
           payload resp = Id id
           ∧ users (db w) !! id = None
           ∧ users (db w')
             = <[id := User.Make username password role]> (users (db w)))
    ∧ (fault_free w →
       (status resp = 200 ↔ can_register username role (db w))).
Proof. apply register_cases. Qed.

(** In the shop: a new accountant is stored under the key 2; a user
    without a role and without a name is stored under the key 2 as well;
    an owner and a second admin are refused. *)
Lemma register_answer_witness :
  let answer :=
    post_register (Some "sara") (Some "pw") (Some "accountant") shop in
  let nobody := post_register None None None shop in
  answer.2 = Ok (json (Id 2))
  ∧ users (db answer.1) !! 2
    = Some (User.Make (Some "sara") (Some "pw") (Some "accountant"))
  ∧ nobody.2 = Ok (json (Id 2))
  ∧ users (db nobody.1) !! 2 = Some (User.Make None None None)
  ∧ (post_register (Some "omar") (Some "pw") (Some "owner") shop).2
    = Ok (Response 400 (Failure "Username already exists"))
  ∧ (post_register (Some "admin") (Some "pw") (Some "admin") shop).2
    = Ok (Response 400 (Failure "Username already exists")).
Proof.
  intros answer nobody.
  destruct (register_answer (Some "sara") (Some "pw") (Some "accountant")
              shop)
    as (w' & resp & Hrun & _ & H200 & Hff).
  assert (Hw : w' = answer.1) by (unfold answer; by rewrite Hrun).
  assert (Hr : Ok resp = answer.2) by (unfold answer; by rewrite Hrun).
  subst w'. vm_compute in Hr. injection Hr as ->.
  destruct (H200 eq_refl) as (Hcan & id & [= <-] & _ & Husers).
  split; [vm_compute; reflexivity|].
  split; [rewrite Husers; apply lookup_insert_eq|].
  repeat split; vm_compute; reflexivity.
Defined.

(** After POST /api/register has answered 200 with a key, for a request
    with a username and a password, POST /api/login with the same username
    and password is answered, on the fault-free engine, with the account
    of that key, username and role. *)
Theorem register_then_login username password role w w' resp id :
  is_Some username →
  is_Some password →
  post_register username password role w = (w', Ok resp) →
  payload resp = Id id →
  fault_free w' →
  post_login username password w'
  = (w', Ok (Sent (Account.Make id username role))).
Proof.
  intros Hu0 Hp0 Hrun Hid Hff.
  destruct (register_cases username password role w)
    as (w1 & resp1 & Hrun1 & Hcases & H200 & _).
  rewrite Hrun1 in Hrun. injection Hrun as -> ->.
  destruct Hcases as [Hok|[-> _]]; [|done].
  destruct (H200 Hok) as ([_ Hfree] & id' & Hid' & Hnew & Husers).
  rewrite Hid in Hid'. injection Hid' as <-.
  unfold fault_free in Hff. rewrite (world_eta w'), Hff.
  unfold post_login, uncaught, try_catch, bind, sql_get.
  rewrite sql_select_ok. simpl.
  rewrite (NoDup_only _ (id, User.Make username password role)).
  - done.
  - apply NoDup_filter, NoDup_scan_rows.
  - intros [k user]. rewrite login_rows, Husers. split.
    + intros ([[-> <-]|[Hne Hk]]%lookup_insert_Some & [_ Hu] & Hp);
        [done|].
      by destruct (Hfree k user Hk Hu0).
    + intros [= -> ->]. by rewrite lookup_insert_eq.
Qed.

(** In the shop: a new accountant logs in.  A user registered without a
    password cannot. *)
Lemma register_then_login_witness :
  let w' :=
    (post_register (Some "sara") (Some "pw") (Some "accountant") shop).1 in
  let w'' := (post_register (Some "nour") None (Some "engineer") shop).1 in
  post_login (Some "sara") (Some "pw") w'
  = (w', Ok (Sent (Account.Make 2 (Some "sara") (Some "accountant"))))
  ∧ (post_login (Some "nour") None w'').2
    = Ok (Refused 401 "Invalid credentials").
Proof.
  intros w' w''. split; [|vm_compute; reflexivity].
  apply (register_then_login (Some "sara") (Some "pw") (Some "accountant")
           shop w' (json (Id 2)) 2).
  - by eexists.
  - by eexists.
  - vm_compute. reflexivity.
  - reflexivity.
  - reflexivity.
Defined.

(** ** Settings *)








(** ** Products *)

Lemma admits_product (r : Product.t) (m : gmap Z Product.t) :
  admits t_products r m = true ↔ sku_free (Product.sku r) m.
Proof.
  rewrite admits_spec. simpl. unfold sku_free. split.
  - intros [_ Hu] k p Hk. apply same_text_false.
    rewrite same_text_sym. by apply (Hu k).
  - intros Hu. split; [done|]. intros k p Hk.
    rewrite same_text_sym. apply same_text_false. by apply (Hu k).
Qed.

Lemma refused_product (r : Product.t) (m : gmap Z Product.t) :
  admits t_products r m = false
  → ∃ k p, m !! k = Some p ∧ is_Some (Product.sku r)
           ∧ Product.sku p = Product.sku r.
Proof.
  unfold admits. simpl. intros Hno%bool_decide_eq_false.
  apply map_not_Forall in Hno as (k & p & Hk & Hc); [|apply _].
  exists k, p. split; [done|].
  destruct (Product.sku r) as [a|], (Product.sku p) as [b|]; simpl in Hc;
    try done.
  split; [by eexists|]. f_equal. symmetry. apply String.eqb_eq.
  by destruct (String.eqb _ _).
Qed.

Lemma refusal_product r s :
  refusal t_products false r (products s) s = None
  ↔ sku_free (Product.sku r) (products s).
Proof. rewrite refusal_None, admits_product. simpl. intuition. Qed.

(** POST /api/products always answers, with 200 or with 400; after a 400
    the database is what it was.  A 200 carries the key of the new
    product, a key no product had; the product is stored with the columns
    of the request, its opening stock being the opening stock of the
    request, or the stock quantity when the request has no opening stock
    or has 0; no other product had its SKU.  On the fault-free engine the
    answer is 200 exactly when no stored product has the SKU of the
    request. *)
Theorem new_product name category brand model sku price cost stock_quantity
    opening_stock min_stock_level unit notes warehouse_id location w :
  ∃ w' resp,
    post_products name category brand model sku price cost stock_quantity
      opening_stock min_stock_level unit notes warehouse_id location w
    = (w', Ok resp)
    ∧ (status resp = 200 ∨ status resp = 400 ∧ db w' = db w)
    ∧ (status resp = 200 →
       sku_free sku (products (db w))
       ∧ ∃ id,
           payload resp = Id id
           ∧ products (db w) !! id = None
           ∧ products (db w')
             = <[id := Product.Make name category brand model sku price cost
                         stock_quantity
                         (match opening_stock with
                          | Some n =>
                              if PrimFloat.is_zero n || PrimFloat.is_nan n
                              then stock_quantity else Some n
                          | None => stock_quantity
                          end)
                         min_stock_level unit notes warehouse_id location]>
                 (products (db w)))
    ∧ (fault_free w →
       (status resp = 200 ↔ sku_free sku (products (db w)))).
Proof.
  unfold post_products, try_catch, bind, sql_insert.
  match goal with
  | |- context [engine ?f w] =>
      destruct (engine_cases f w) as [[rest E]|E]; rewrite E; simpl
  end.
  - eexists _, _. split; [done|]. split; [by right|]. split; [done|].
    intros Hff. unfold fault_free in Hff. unfold engine in E.
    rewrite Hff in E. simpl in E.
    by destruct (refusal _ _ _ _ _).
  - destruct (refusal t_products _ _ _ _) eqn:Ha; simpl.
    + eexists _, _. split; [done|]. split; [by right|]. split; [done|].
      intros _. split; [done|]. intros Hfree. exfalso.
      match type of Ha with
      | refusal _ _ ?r _ _ = _ =>
          apply (proj2 (refusal_product r (db w))) in Hfree
      end.
      simpl in *. congruence.
    + apply refusal_product in Ha. simpl in Ha.
      eexists _, _. split; [done|]. split; [by left|]. split; [|done].
      intros _. split; [done|]. eexists. split; [done|].
      split; [by apply (next_key_fresh t_products)|].
      do 2 f_equal. unfold js_or, js_truthy.
      destruct opening_stock as [n|]; [|done].
      by destruct (PrimFloat.is_zero n || PrimFloat.is_nan n).
Qed.

(** In the shop: a second product, without opening stock: its opening
    stock is its stock of 40. *)
Lemma new_product_witness :
  let answer :=
    post_products (Some "Case") (Some "accessory") (Some "Acme") (Some "C")
      (Some "SKU-2") (num 3) (num 1) (num 40) None (num 5) (Some "pc") None
      None (Some "B2") shop in
  answer.2 = Ok (json (Id 2))
  ∧ sku_free (Some "SKU-2") (products (db shop))
  ∧ products (db answer.1)
    = <[2 := Product.Make (Some "Case") (Some "accessory") (Some "Acme")
               (Some "C") (Some "SKU-2") (num 3) (num 1) (num 40) (num 40)
               (num 5) (Some "pc") None None (Some "B2")]>
        (products (db shop)).
Proof.
  intros answer.
  destruct (new_product (Some "Case") (Some "accessory") (Some "Acme")
              (Some "C") (Some "SKU-2") (num 3) (num 1) (num 40) None
              (num 5) (Some "pc") None None (Some "B2") shop)
    as (w' & resp & Hrun & _ & H200 & _).
  assert (Hw : w' = answer.1) by (unfold answer; by rewrite Hrun).
  assert (Hr : Ok resp = answer.2) by (unfold answer; by rewrite Hrun).
  subst w'. vm_compute in Hr. injection Hr as ->.
  destruct (H200 eq_refl) as (Hfree & id & [= <-] & _ & Hproducts).
  split; [vm_compute; reflexivity|]. split; [exact Hfree|exact Hproducts].
Defined.

(** PUT /api/products/:id always answers, with 200 or, uncaught, with 500;
    after a 500 the database is what it was.  After a 200 for a key that
    no product has, the database is what it was; after a 200 for the key
    of a product, only that product differs: it has the columns of the
    request and the opening stock it had, and no other product has its
    SKU.  On the fault-free engine the answer is 500 exactly when the
    key is that of a product and another product has the SKU of the
    request. *)
Theorem edit_product id name category brand model sku price cost
    stock_quantity min_stock_level unit notes warehouse_id location w :
  ∃ w' resp,
    put_products id name category brand model sku price cost stock_quantity
      min_stock_level unit notes warehouse_id location w
    = (w', Ok resp)
    ∧ (status resp = 200 ∨ resp = Response 500 Unhandled ∧ db w' = db w)
    ∧ (status resp = 200 →
       match products (db w) !! id with
       | None => db w' = db w
       | Some p =>
           sku_free sku (delete id (products (db w)))
           ∧ db w'
             = set_products
                 (<[id := Product.Make name category brand model sku price
                             cost stock_quantity (Product.opening_stock p)
                             min_stock_level unit notes warehouse_id
                             location]> (products (db w))) (db w)
       end)
    ∧ (fault_free w →
       (status resp = 500
        ↔ ∃ k p, k ≠ id ∧ products (db w) !! k = Some p
                 ∧ is_Some sku ∧ Product.sku p = sku
                 ∧ is_Some (products (db w) !! id))).
Proof.
  unfold put_products, express, try_catch, bind, sql_update_row.
  match goal with
  | |- context [engine ?f w] =>
      destruct (engine_cases f w) as [[rest E]|E]; rewrite E; simpl
  end.
  - eexists _, _. split; [done|]. split; [by right|]. split; [done|].
    intros Hff. exfalso. unfold fault_free in Hff. unfold engine in E.
    rewrite Hff in E. simpl in E.
    destruct (products (db w) !! id); [destruct (admits _ _ _)|]; done.
  - destruct (products (db w) !! id) as [p|] eqn:Hid; simpl.
    + destruct (admits t_products _ _) eqn:Ha; simpl.
      * apply admits_product in Ha. simpl in Ha.
        eexists _, _. split; [done|]. split; [by left|]. split; [done|].
        intros _. split; [done|].
        intros (k & p' & Hne & Hk & Hsome & Hsku & _).
        exfalso. apply (Ha k p'); [|done|done].
        by rewrite lookup_delete_ne.
      * eexists _, _. split; [done|]. split; [by right|]. split; [done|].
        intros _. split; [intros _|done].
        apply refused_product in Ha as (k & p' & Hk & Hsome & Hsku).
        apply lookup_delete_Some in Hk as [Hne Hk]. by exists k, p'.
    + eexists _, _. split; [done|]. split; [by left|]. split; [done|].
      intros _. split; [done|]. by intros (k & p' & _ & _ & _ & _ & [? ?]).
Qed.

(** In the shop: the one product is renamed and repriced; its opening
    stock stays 5. *)
Lemma edit_product_witness :
  let answer :=
    put_products 1 (Some "Phone X2") (Some "phone") (Some "Acme")
      (Some "X2") (Some "SKU-1") (num 12) (num 8) (num 9) (num 1)
      (Some "pc") None None (Some "A1") shop in
  answer.2 = Ok (json Success)
  ∧ Product.opening_stock <$> products (db shop) !! 1 = Some (num 5)
  ∧ products (db answer.1)
    = <[1 := Product.Make (Some "Phone X2") (Some "phone") (Some "Acme")
               (Some "X2") (Some "SKU-1") (num 12) (num 8) (num 9) (num 5)
               (num 1) (Some "pc") None None (Some "A1")]>
        (products (db shop)).
Proof.
  intros answer.
  destruct (edit_product 1 (Some "Phone X2") (Some "phone") (Some "Acme")
              (Some "X2") (Some "SKU-1") (num 12) (num 8) (num 9) (num 1)
              (Some "pc") None None (Some "A1") shop)
    as (w' & resp & Hrun & _ & H200 & _).
  assert (Hw : w' = answer.1) by (unfold answer; by rewrite Hrun).
  assert (Hr : Ok resp = answer.2) by (unfold answer; by rewrite Hrun).
  subst w'. vm_compute in Hr. injection Hr as ->.
  specialize (H200 eq_refl).
  assert (Hone : products (db shop) !! 1
                 = Some (Product.Make (Some "Phone X") (Some "phone")
                           (Some "Acme") (Some "X") (Some "SKU-1") (num 10)
                           (num 7) (num 5) (num 5) (num 1) (Some "pc") None
                           None (Some "A1")))
    by (vm_compute; reflexivity).
  rewrite Hone in H200. destruct H200 as [_ Hdb].
  split; [vm_compute; reflexivity|]. split; [by rewrite Hone|].
  rewrite Hdb. by destruct (db shop).
Defined.

(** ** Startup *)

Lemma ignore_setting_ok k v s t Σ :
  sql_insert_or_ignore t_settings k v (World s [] t Σ)
  = (World (set_settings (settings s ∪ {[k := v]}) s) [] t Σ, Ok tt).
Proof.
  unfold sql_insert_or_ignore. rewrite engine_fault_free. simpl.
  unfold refusal. simpl.
  destruct (settings s !! k) as [v'|] eqn:Hk; simpl.
  - rewrite (union_singleton_r _ _ v' v Hk). by destruct s.
  - rewrite ?(admits_no_unique t_settings) by done. simpl.
    by rewrite insert_union_singleton_r.
Qed.

(** The rows that the startup looks for. *)
Lemma admin_rows (m : gmap Z User.t) k r :
  (k, r) ∈ filter (λ kr : Z * User.t, User.username kr.2 = Some "admin")
             (scan m)
  ↔ m !! k = Some r ∧ User.username r = Some "admin".
Proof. rewrite list_elem_of_filter, elem_of_scan. simpl. tauto. Qed.

(** A database with the three settings and an administrator is left alone. *)
Lemma startup_seeded s t Σ c y r k u :
  settings s !! "currency" = Some c →
  settings s !! "rate_yer" = Some y →
  settings s !! "rate_sar" = Some r →
  users s !! k = Some u → User.username u = Some "admin" →
  startup (World s [] t Σ) = (World s [] t Σ, Ok tt).
Proof.
  intros Hc Hy Hr Hk Hu. unfold startup, bind, sql_get.
  rewrite ignore_setting_ok, (union_singleton_r _ _ c) by done. simpl.
  assert (Hs : set_settings (settings s) s = s) by by destruct s.
  rewrite Hs, ignore_setting_ok, (union_singleton_r _ _ y), Hs by done.
  rewrite ignore_setting_ok, (union_singleton_r _ _ r), Hs by done.
  rewrite sql_select_ok.
  destruct (head _) as [row|] eqn:Hhead; [done|]. exfalso.
  apply head_None in Hhead. apply (not_elem_of_nil (k, u)).
  rewrite <- Hhead. by apply admin_rows.
Qed.

(** What the startup does on the fault-free engine. *)
Lemma startup_cases s t Σ :
  ∃ s',
    startup (World s [] t Σ) = (World s' [] t Σ, Ok tt)
    ∧ (∃ q, s' = set_sqlite_sequence q
                   (set_users (users s') (set_settings (settings s') s)))
    ∧ settings s'
      = settings s ∪ {["currency" := Some "USD"]}
          ∪ {["rate_yer" := Some "530"]} ∪ {["rate_sar" := Some "3.75"]}
    ∧ ((∃ k u, users s !! k = Some u ∧ User.username u = Some "admin") →
       users s' = users s)
    ∧ ((∀ k u, users s !! k = Some u → User.username u ≠ Some "admin") →
       ∃ id, users s !! id = None
             ∧ users s'
               = <[id := User.Make (Some "admin") (Some "admin123")
                           (Some "admin")]> (users s))
    ∧ ∀ t' Σ', startup (World s' [] t' Σ') = (World s' [] t' Σ', Ok tt).
Proof.
  assert (Hkeys : ∀ m : gmap string text,
            let m' := m ∪ {["currency" := Some "USD"]}
                        ∪ {["rate_yer" := Some "530"]}
                        ∪ {["rate_sar" := Some "3.75"]} in
            is_Some (m' !! "currency") ∧ is_Some (m' !! "rate_yer")
            ∧ is_Some (m' !! "rate_sar")).
  { intros m m'. unfold m'. repeat split; apply lookup_union_is_Some.
    - left. apply lookup_union_is_Some. left. apply lookup_union_is_Some.
      right. by rewrite lookup_singleton_eq.
    - left. apply lookup_union_is_Some. right.
      by rewrite lookup_singleton_eq.
    - right. by rewrite lookup_singleton_eq. }
  destruct (Hkeys (settings s)) as ([c Hc] & [y Hy] & [r Hr]).
  unfold startup, bind, sql_get.
  do 3 (rewrite ignore_setting_ok; cbv beta iota).
  rewrite sql_select_ok. cbv beta iota.
  destruct (head _) as [[k u]|] eqn:Hhead.
  - apply head_Some_elem_of, admin_rows in Hhead as [Hk Hu].
    eexists. split; [done|]. simpl. split.
    { exists (sqlite_sequence s). by destruct s. }
    split; [by destruct s|]. split; [by destruct s|]. split.
    + intros Hno. exfalso. apply (Hno k u); [|done]. by destruct s.
    + intros t' Σ'. apply (startup_seeded _ _ _ c y r k u); by destruct s.
  - apply head_None in Hhead.
    assert (Hno : ∀ k u, users s !! k = Some u →
                    User.username u ≠ Some "admin").
    { intros k u Hk Hu. apply (not_elem_of_nil (k, u)). rewrite <- Hhead.
      apply admin_rows. split; [by destruct s|done]. }
    rewrite sql_insert_ok.
    2:{ apply refusal_user. split; [done|]. intros k u Hk _.
        apply (Hno k u). by destruct s. }
    simpl. eexists. split; [done|]. split.
    { eexists. by destruct s. }
    split; [by destruct s|]. split.
    + intros (k & u & Hk & Hu). by destruct (Hno k u).
    + split.
      * intros _. exists (next_key t_users s).
        split; [by apply (next_key_fresh t_users)|by destruct s].
      * intros t' Σ'.
        apply (startup_seeded _ _ _ c y r (next_key t_users s)
                 (User.Make (Some "admin") (Some "admin123")
                    (Some "admin")));
          try by destruct s.
        destruct s. apply lookup_insert_eq.
Qed.

(** On the fault-free engine the startup ends normally, on any database.
    Only the settings and the users can differ afterwards: the three
    default settings are there, each with the value it had if it had one;
    the users are as before if one of them is named admin, and are joined
    by the administrator (admin, admin123) under a key that no user had
    if none is.  A second startup changes nothing. *)
Theorem startup_seeds s t Σ :
  ∃ s',
    startup (World s [] t Σ) = (World s' [] t Σ, Ok tt)
    ∧ (∃ q, s' = set_sqlite_sequence q
                   (set_users (users s') (set_settings (settings s') s)))
    ∧ settings s'
      = settings s ∪ {["currency" := Some "USD"]}
          ∪ {["rate_yer" := Some "530"]} ∪ {["rate_sar" := Some "3.75"]}
    ∧ ((∃ k u, users s !! k = Some u ∧ User.username u = Some "admin") →
       users s' = users s)
    ∧ ((∀ k u, users s !! k = Some u → User.username u ≠ Some "admin") →
       ∃ id, users s !! id = None
             ∧ users s'
               = <[id := User.Make (Some "admin") (Some "admin123")
                           (Some "admin")]> (users s))
    ∧ ∀ t' Σ', startup (World s' [] t' Σ') = (World s' [] t' Σ', Ok tt).
Proof. apply startup_cases. Qed.

(** From an empty file the startup makes the database of the first day,
    and a restart leaves it alone. *)
Lemma startup_seeds_witness :
  startup (World empty_store [] "2024-01-01 09:00:00" kbn_sum)
  = (opening_day, Ok tt)
  ∧ startup (World initial_store [] "2024-01-02 09:00:00" kbn_sum)
    = (World initial_store [] "2024-01-02 09:00:00" kbn_sum, Ok tt).
Proof.
  destruct (startup_seeds empty_store "2024-01-01 09:00:00" kbn_sum)
    as (s' & Hrun & _ & _ & _ & _ & Hagain).
  assert (Hfirst : startup (World empty_store [] "2024-01-01 09:00:00"
                              kbn_sum)
                   = (opening_day, Ok tt)) by (vm_compute; reflexivity).
  rewrite Hfirst in Hrun. injection Hrun as <-.
  split; [exact Hfirst|apply Hagain].
Defined.

(** The engine either raises before the statement, which it does only
    when told to, or runs it. *)
Lemma engine_oracle {A} (stmt : world → store * outcome A) w :
  (¬ fault_free w
   ∧ ∃ rest, engine stmt w
             = (World (db w) rest (now w) (summation w), Throw SqliteFault))
  ∨ engine stmt w
    = (World (stmt w).1 (tail (pending w)) (now w) (summation w),
       (stmt w).2).
Proof.
  unfold engine, fault_free. destruct (pending w) as [|[] rest]; simpl.
  - right. by destruct (stmt w).
  - left. split; [done|]. by exists rest.
  - right. by destruct (stmt w).
Qed.

(** ** The general ledger *)

Lemma refusal_ledger (r : GeneralLedger.t) s :
  refusal t_general_ledger false r (general_ledger s) s = None
  ↔ GeneralLedger.type r = None
    ∨ GeneralLedger.type r = Some "revenue"
    ∨ GeneralLedger.type r = Some "expense".
Proof.
  rewrite refusal_plain by done. simpl.
  destruct (GeneralLedger.type r) as [ty|]; simpl; [|by intuition].
  destruct (String.eqb_spec ty "revenue") as [->|Hr]; [by intuition|].
  destruct (String.eqb_spec ty "expense") as [->|He]; [by intuition|].
  simpl. split; [by intros [? _]|].
  intros [?|[[= ?]|[= ?]]]; done.
Qed.

(** POST /api/ledger always answers, with 200 or with 400; after a 400 the
    database is what it was.  A 200 carries the key of the new entry, a
    key no entry had; the entry is stored with the columns of the request
    and the time of the engine, its type is revenue, expense or missing,
    and no table but the ledger differs.  On the fault-free engine the
    answer is 200 exactly when the type is revenue, expense or missing. *)
Theorem ledger_entry type category amount description w :
  ∃ w' resp,
    post_ledger type category amount description w = (w', Ok resp)
    ∧ (status resp = 200 ∨ status resp = 400 ∧ db w' = db w)
    ∧ (status resp = 200 →
       (type = None ∨ type = Some "revenue" ∨ type = Some "expense")
       ∧ ∃ id,
           payload resp = Id id
           ∧ general_ledger (db w) !! id = None
           ∧ db w'
             = set_seq "general_ledger" id
                 (set_general_ledger
                    (<[id := GeneralLedger.Make type category amount
                                description (Some (now w))]>
                       (general_ledger (db w))) (db w)))
    ∧ (fault_free w →
       (status resp = 200
        ↔ type = None ∨ type = Some "revenue" ∨ type = Some "expense")).
Proof.
  unfold post_ledger, try_catch, bind, sql_insert.
  match goal with
  | |- context [engine ?f w] =>
      destruct (engine_oracle f w) as [[Hno [rest E]]|E]; rewrite E; simpl
  end.
  - eexists _, _. split; [done|]. split; [by right|]. split; [done|].
    intros Hff. by destruct Hno.
  - destruct (refusal t_general_ledger _ _ _ _) eqn:Ha; simpl.
    + eexists _, _. split; [done|]. split; [by right|]. split; [done|].
      intros _. split; [done|]. intros Hok.
      apply (proj2 (refusal_ledger
                      (GeneralLedger.Make type category amount description
                         (Some (now w))) (db w))) in Hok.
      simpl in *. congruence.
    + apply refusal_ledger in Ha. simpl in Ha.
      eexists _, _. split; [done|]. split; [by left|]. split.
      * intros _. split; [done|]. eexists. split; [done|].
        split; [|done]. by apply (next_key_fresh t_general_ledger).
      * intros _. split; [by intros _|done].
Qed.

(** In the shop: the rent is an expense; an entry without a type is
    stored too; a 'loan' is refused. *)
Lemma ledger_entry_witness :
  let answer := post_ledger (Some "expense") (Some "rent") (num 300)
                  (Some "March") shop in
  (answer.2 = Ok (json (Id 1))
   ∧ general_ledger (db answer.1)
     = {[1 := GeneralLedger.Make (Some "expense") (Some "rent") (num 300)
                (Some "March") (Some "2024-01-01 09:00:00")]})
  ∧ (post_ledger None None (num 300) None shop).2 = Ok (json (Id 1))
  ∧ ∃ w' resp,
      post_ledger (Some "loan") (Some "bank") (num 300) (Some "March") shop
      = (w', Ok resp)
      ∧ status resp = 400 ∧ db w' = db shop.
Proof.
  intros answer. split; [|split].
  - destruct (ledger_entry (Some "expense") (Some "rent") (num 300)
                (Some "March") shop)
      as (w' & resp & Hrun & _ & H200 & _).
    assert (Hw : w' = answer.1) by (unfold answer; by rewrite Hrun).
    assert (Hr : Ok resp = answer.2) by (unfold answer; by rewrite Hrun).
    subst w'. vm_compute in Hr. injection Hr as ->.
    destruct (H200 eq_refl) as (_ & id & [= <-] & _ & Hdb).
    split; [vm_compute; reflexivity|]. rewrite Hdb. reflexivity.
  - vm_compute. reflexivity.
  - destruct (ledger_entry (Some "loan") (Some "bank") (num 300)
                (Some "March") shop)
      as (w' & resp & Hrun & [H200|[H400 Hdb]] & Hok & Hff).
    + destruct (Hok H200) as [[Ht|[Ht|Ht]] _]; discriminate Ht.
    + by exists w', resp.
Defined.

(** ** Maintenance *)








(** The shop of the examples is reached by a startup and three requests. *)
Lemma reachable_integrity_witness : integrity (db shop).
Proof.
  apply reachable_integrity.
  apply (reach_route
           (post_products (Some "Phone X") (Some "phone") (Some "Acme")
              (Some "X") (Some "SKU-1") (num 10) (num 7) (num 5) None
              (num 1) (Some "pc") None None (Some "A1"))
           (post_suppliers (Some "Acme") (Some "Sam") (Some "555") None None
              first_customer).1
           shop
           (post_products (Some "Phone X") (Some "phone") (Some "Acme")
              (Some "X") (Some "SKU-1") (num 10) (num 7) (num 5) None
              (num 1) (Some "pc") None None (Some "A1")
              (post_suppliers (Some "Acme") (Some "Sam") (Some "555") None
                 None first_customer).1).2);
    [constructor| |apply surjective_pairing].
  apply (reach_route
           (post_suppliers (Some "Acme") (Some "Sam") (Some "555") None None)
           first_customer _
           (post_suppliers (Some "Acme") (Some "Sam") (Some "555") None None
              first_customer).2);
    [constructor| |apply surjective_pairing].
  apply (reach_route
           (post_customers (Some "Ali") (Some "777") None None (num 100)
              None)
           opening_day first_customer
           (post_customers (Some "Ali") (Some "777") None None (num 100)
              None opening_day).2);
    [constructor| |apply surjective_pairing].
  apply (reach_startup (World empty_store [] "2024-01-01 09:00:00" kbn_sum)
           opening_day (Ok tt)); [apply reach_new|].
  vm_compute. reflexivity.
Defined.

(** ** Startup, then the first login *)

(** After a startup on the fault-free engine of a database in which no
    user is named admin, POST /api/login with admin and admin123 is
    answered, on the fault-free engine, with the account of the
    administrator. *)
Theorem startup_then_login s t Σ w' t' Σ' :
  (∀ k u, users s !! k = Some u → User.username u ≠ Some "admin") →
  startup (World s [] t Σ) = (w', Ok tt) →
  ∃ id,
    users s !! id = None
    ∧ post_login (Some "admin") (Some "admin123") (World (db w') [] t' Σ')
      = (World (db w') [] t' Σ',
         Ok (Sent (Account.Make id (Some "admin") (Some "admin")))).
Proof.
  intros Hno Hrun.
  destruct (startup_cases s t Σ) as (s' & Hrun' & _ & _ & _ & Hnew & _).
  rewrite Hrun' in Hrun. injection Hrun as <-. simpl.
  destruct (Hnew Hno) as (id & Hid & Husers). exists id. split; [done|].
  unfold post_login, uncaught, try_catch, bind, sql_get.
  rewrite sql_select_ok. simpl.
  rewrite (NoDup_only _ (id, User.Make (Some "admin") (Some "admin123")
                               (Some "admin"))).
  - done.
  - apply NoDup_filter, NoDup_scan_rows.
  - intros [k user]. rewrite login_rows, Husers. split.
    + intros ([[-> <-]|[Hne Hk]]%lookup_insert_Some & [_ Hu] & _); [done|].
      by destruct (Hno k user Hk).
    + intros [= -> ->]. rewrite lookup_insert_eq. by repeat split.
Qed.

(** From an empty file. *)
Lemma startup_then_login_witness :
  post_login (Some "admin") (Some "admin123")
    (World initial_store [] "2024-01-01 09:05:00" kbn_sum)
  = (World initial_store [] "2024-01-01 09:05:00" kbn_sum,
     Ok (Sent (Account.Make 1 (Some "admin") (Some "admin")))).
Proof.
  destruct (startup_then_login empty_store "2024-01-01 09:00:00" kbn_sum
              opening_day "2024-01-01 09:05:00" kbn_sum)
    as (id & Hid & Hlogin).
  - intros k u Hk. unfold empty_store in Hk. simpl in Hk.
    by rewrite lookup_empty in Hk.
  - vm_compute. reflexivity.
  - simpl in Hlogin. rewrite Hlogin.
    assert (Hone : post_login (Some "admin") (Some "admin123")
                     (World initial_store [] "2024-01-01 09:05:00" kbn_sum)
                   = (World initial_store [] "2024-01-01 09:05:00" kbn_sum,
                      Ok (Sent (Account.Make 1 (Some "admin")
                                  (Some "admin")))))
      by (vm_compute; reflexivity).
    assert (Hlogin' := Hlogin). simpl in Hlogin'.
    rewrite Hone in Hlogin'. by injection Hlogin' as <-.
Defined.

(** ** What a restore accepts *)



(** ** Restoring twice *)




(** * The forms of the client *)

Lemma filter_index_sublist {A} (keep : nat → bool) i (xs : list A) :
  filter_index keep i xs `sublist_of` xs.
Proof.
  revert i. induction xs as [|x xs IH]; intros i; simpl; [done|].
  destruct (keep i); [by apply sublist_skip|by apply sublist_cons].
Qed.

Lemma sublist_Forall_2 {A} (P : A → Prop) (l1 l2 : list A) :
  l1 `sublist_of` l2 → Forall P l2 → Forall P l1.
Proof.
  induction 1 as [|x l1 l2 _ IH|x l1 l2 _ IH]; [done| |].
  - intros [Hx Hl]%Forall_cons. apply Forall_cons. auto.
  - intros [Hx Hl]%Forall_cons. auto.
Qed.

(** ** The sale form *)

Lemma sale_items_removed idx items :
  sale_items_ready items →
  sale_items_ready (filter_index (λ i, negb (i =? idx)%nat) 0 items).
Proof.
  intros [Hall Hnd]. split.
  - apply (sublist_Forall_2 _ _ items); [apply filter_index_sublist|done].
  - apply (sublist_NoDup _ (SaleCartItem.product_id <$> items));
      first [assumption | apply fmap_sublist, filter_index_sublist].
Qed.

Lemma sale_items_added product newSale :
  sale_items_ready (NewSale.items newSale) →
  sale_items_ready (NewSale.items (addToSale product newSale)).
Proof.
  intros [Hall Hnd]. unfold addToSale.
  destruct (find _ _) as [existing|] eqn:Hfind; simpl.
  - split.
    + apply Forall_fmap. eapply Forall_impl; [done|].
      intros item Hitem. simpl. case_bool_decide; simpl; [by left|done].
    + rewrite <- list_fmap_compose.
      rewrite (list_fmap_ext _ SaleCartItem.product_id); [done|].
      intros i item _. unfold compose. simpl. by case_bool_decide.
  - split.
    + apply Forall_app. split; [done|]. apply Forall_singleton. simpl.
      by right.
    + rewrite fmap_app. apply NoDup_app. split; [done|]. split.
      * intros p (item & -> & Hin)%list_elem_of_fmap
               Heq%list_elem_of_singleton.
        apply list_elem_of_In in Hin.
        apply (find_none _ _ Hfind) in Hin. by case_bool_decide.
      * apply NoDup_singleton.
Qed.

Lemma sale_form_step_ready newSale e :
  sale_items_ready (NewSale.items newSale) →
  sale_items_ready (NewSale.items (sale_form_step newSale e))
  ∧ NewSale.payment_status (sale_form_step newSale e)
    = NewSale.payment_status newSale.
Proof.
  intros Hready. destruct e as [product|idx|v|v|v|v]; simpl;
    try (split; [done|done]).
  - split; [by apply sale_items_added|].
    unfold addToSale. by destruct (find _ _).
  - split; [by apply sale_items_removed|done].
Qed.

Lemma sale_form_steps_ready events newSale :
  sale_items_ready (NewSale.items newSale) →
  sale_items_ready (NewSale.items (foldl sale_form_step newSale events))
  ∧ NewSale.payment_status (foldl sale_form_step newSale events)
    = NewSale.payment_status newSale.
Proof.
  revert newSale. induction events as [|e events IH]; intros newSale Hready;
    simpl; [done|].
  destruct (sale_form_step_ready newSale e Hready) as [Hready' Hst].
  destruct (IH _ Hready') as [? ->]. done.
Qed.

(** Whatever the user does to the sale form, its items are as the client
    keeps them and the payment status is 'paid': no input of the form
    sets it. *)
Lemma sale_form_ready events :
  sale_items_ready (NewSale.items (sale_form events))
  ∧ NewSale.payment_status (sale_form events) = "paid".
Proof.
  apply (sale_form_steps_ready events NewSale.initial).
  split; [apply Forall_nil_2|apply NoDup_nil_2].
Qed.

(** What the lines of such a form take of each product. *)
Lemma sold_absent p (items : list SaleCartItem.t) q :
  p ∉ SaleCartItem.product_id <$> items →
  stock_after_sale p (sale_line_of <$> items) q = q.
Proof.
  unfold stock_after_sale. revert q.
  induction items as [|item items IH]; intros q; simpl; [done|].
  intros [Hne Hnot]%not_elem_of_cons.
  rewrite decide_False by (intros [= ?]; done). auto.
Qed.

Lemma sold_item (items : list SaleCartItem.t) item q :
  NoDup (SaleCartItem.product_id <$> items) → item ∈ items →
  stock_after_sale (SaleCartItem.product_id item) (sale_line_of <$> items) q
  = sql_sub q (json_number (SaleCartItem.quantity item)).
Proof.
  revert q. induction items as [|item' items IH]; intros q; simpl.
  - by intros _ ?%elem_of_nil.
  - intros [Hnot Hnd]%NoDup_cons [->|Hin]%elem_of_cons.
    + unfold stock_after_sale. simpl. rewrite decide_True by done.
      by apply sold_absent.
    + unfold stock_after_sale. simpl. rewrite decide_False; [by apply IH|].
      intros [= Heq]. apply Hnot. rewrite Heq.
      apply list_elem_of_fmap. by exists item.
Qed.

(** What the engine asks of the request of a sale form. *)
Lemma sale_accepted_client customer_id (user : option Account.t) items s :
  sale_accepted (Some customer_id) (Account.id <$> user) (Some "paid")
    (sale_line_of <$> items) s
  ↔ is_Some (customers s !! customer_id)
    ∧ (∀ u, user = Some u → is_Some (users s !! Account.id u))
    ∧ (∀ item, item ∈ items →
         is_Some (products s !! SaleCartItem.product_id item)).
Proof.
  unfold sale_accepted. simpl. rewrite bool_decide_eq_true.
  rewrite Forall_fmap, Forall_forall.
  assert (Hu : has (users s) (Account.id <$> user) = true
               ↔ ∀ u, user = Some u → is_Some (users s !! Account.id u)).
  { destruct user as [u|]; simpl.
    - rewrite bool_decide_eq_true. split; [by intros ? ? [= <-]|auto].
    - split; [by intros _ ? [=]|done]. }
  rewrite Hu. unfold compose. simpl.
  setoid_rewrite bool_decide_eq_true. tauto.
Qed.

(** The sale form of the client.  Whatever the user does to it, its
    items name distinct products, each with a subtotal that is its
    quantity times its unit price in doubles (or, for an item added once,
    the price itself), and its payment status is 'paid'.  [submitSale]
    sends no request for a form without items.  The request of any other
    form is always answered, with 200 or with 400, and after a 400 the
    database is what it was.  On the fault-free engine the answer is 200
    exactly when the customer of the form is stored (the customer 0 of
    the form as it opens, the walk-in customer, is not, unless a customer
    has the key 0), the user who is logged in is stored and the product
    of each item is stored.  After a 200 the sale is stored as paid, with
    the sum of the subtotals less the discount as its total; the new
    SaleItem rows are those of the items, one each; the stock of the
    product of each item is less by the quantity of that item, and the
    other products are as they were. *)
Theorem client_sale events user w :
  let newSale := sale_form events in
  let items := NewSale.items newSale in
  sale_items_ready items
  ∧ NewSale.payment_status newSale = "paid"
  ∧ match submitSale user newSale with
    | None => items = []
    | Some request =>
        items ≠ []
        ∧ ∃ w' resp,
            request w = (w', Ok resp)
            ∧ (fault_free w →
               (status resp = 200
                ↔ is_Some (customers (db w) !! NewSale.customer_id newSale)
                  ∧ (∀ u, user = Some u →
                       is_Some (users (db w) !! Account.id u))
                  ∧ (∀ item, item ∈ items →
                       is_Some (products (db w)
                                  !! SaleCartItem.product_id item))))
            ∧ (status resp ≠ 200 → status resp = 400 ∧ db w' = db w)
            ∧ (status resp = 200 →
               ∃ id,
                 payload resp = Id id
                 ∧ sales (db w')
                   = <[id := Sale.Make (Some (NewSale.customer_id newSale))
                               (Account.id <$> user)
                               (json_number
                                  (sale_subtotals items
                                   - NewSale.discount newSale)%float)
                               (json_number (NewSale.discount newSale))
                               (Some "paid")
                               (Some (NewSale.payment_method newSale))
                               (Some (now w))]> (sales (db w))
                 ∧ (∀ k row,
                      sale_items (db w') !! k = Some row →
                      sale_items (db w) !! k = None →
                      ∃ item,
                        item ∈ items
                        ∧ row = SaleItem.Make (Some id)
                                  (Some (SaleCartItem.product_id item))
                                  (json_number (SaleCartItem.quantity item))
                                  (json_real (SaleCartItem.unit_price item))
                                  (json_real (SaleCartItem.subtotal item)))
                 ∧ (∀ item,
                      item ∈ items →
                      (∃ k,
                         sale_items (db w) !! k = None
                         ∧ sale_items (db w') !! k
                           = Some (SaleItem.Make (Some id)
                                     (Some (SaleCartItem.product_id item))
                                     (json_number
                                        (SaleCartItem.quantity item))
                                     (json_real
                                        (SaleCartItem.unit_price item))
                                     (json_real
                                        (SaleCartItem.subtotal item))))
                      ∧ products (db w') !! SaleCartItem.product_id item
                        = (λ r, product_with (Product.cost r)
                                  (sql_sub (Product.stock_quantity r)
                                     (json_number
                                        (SaleCartItem.quantity item))) r)
                          <$> products (db w)
                              !! SaleCartItem.product_id item)
                 ∧ (∀ p,
                      p ∉ SaleCartItem.product_id <$> items →
                      products (db w') !! p = products (db w) !! p))
    end.
Proof.
  intros newSale items.
  destruct (sale_form_ready events) as [Hready Hpaid].
  split; [done|]. split; [done|].
  unfold submitSale. fold newSale. fold items.
  destruct (length items =? 0)%nat eqn:Hlen.
  { apply Nat.eqb_eq in Hlen. by apply nil_length_inv. }
  split. { intros Hnil. by rewrite Hnil in Hlen. }
  fold newSale in Hpaid. rewrite Hpaid.
  match goal with
  | |- context [post_sales ?c ?u ?total ?d _ ?m (Some ?lines)] =>
      destruct (post_sales_answer c u total d (Some "paid") m lines w)
        as (w' & resp & Hrun & Hff & H200 & H400)
  end.
  exists w', resp. split; [done|]. split.
  { intros Hw. rewrite (Hff Hw). apply sale_accepted_client. }
  split; [done|].
  intros Hok. destruct (H200 Hok) as (id & Hid & Hrec).
  destruct Hrec as (_ & Hsale & (first & Hnew & Hrows & Hold) & Hstock & _).
  exists id. split; [done|]. split; [done|]. split; [|split].
  - intros k row Hk Hbefore.
    destruct (decide (first ≤ k
                      < first + Z.of_nat (length (sale_line_of <$> items))))
      as [Hin|Hout].
    + destruct (lookup_lt_is_Some_2 (sale_line_of <$> items)
                  (Z.to_nat (k - first))) as [line Hline]; [lia|].
      pose proof (Hrows _ _ Hline) as Hrow.
      replace (first + Z.of_nat (Z.to_nat (k - first))) with k in Hrow
        by lia.
      rewrite Hrow in Hk. injection Hk as <-.
      apply list_lookup_fmap_Some in Hline as (item & -> & Hitem).
      exists item. split; [by eapply list_elem_of_lookup_2|done].
    + rewrite (Hold k Hout), Hbefore in Hk. done.
  - intros item Hin. split.
    + apply list_elem_of_lookup_1 in Hin as [i Hi].
      exists (first + Z.of_nat i). split; [apply Hnew; lia|].
      rewrite (Hrows i (sale_line_of item)); [done|].
      by rewrite list_lookup_fmap, Hi.
    + rewrite Hstock.
      destruct (products (db w) !! SaleCartItem.product_id item) as [r|];
        [|done].
      simpl. rewrite sold_item; [done| |done]. by destruct Hready.
  - intros p Hp. rewrite Hstock.
    destruct (products (db w) !! p) as [r|]; [|done]. simpl.
    rewrite sold_absent by done. by rewrite product_with_id.
Qed.

(** In the shop: the administrator sells two phones to customer 1, with a
    discount of 2; and a phone to the walk-in customer of the form as it
    opens, which the engine refuses: no customer has the key 0. *)
Lemma client_sale_witness :
  let phone :=
    (1, Product.Make (Some "Phone X") (Some "phone") (Some "Acme")
          (Some "X") (Some "SKU-1") (num 10) (num 7) (num 5) (num 5)
          (num 1) (Some "pc") None None (Some "A1")) in
  let admin := Account.Make 1 (Some "admin") (Some "admin") in
  (∃ request w',
     submitSale (Some admin)
       (sale_form [SaleAdd phone; SaleCustomer 1; SaleAdd phone;
                   SaleDiscount 2])
     = Some request
     ∧ request shop = (w', Ok (json (Id 1)))
     ∧ Sale.total_amount <$> sales (db w') !! 1 = Some (num 18)
     ∧ Product.stock_quantity <$> products (db w') !! 1 = Some (num 3))
  ∧ ∃ request w',
      submitSale (Some admin) (sale_form [SaleAdd phone]) = Some request
      ∧ request shop
        = (w', Ok (json_error 400 (SqliteConstraint FOREIGN_KEY)))
      ∧ db w' = db shop.
Proof.
  intros phone admin. split.
  - pose proof (client_sale [SaleAdd phone; SaleCustomer 1; SaleAdd phone;
                             SaleDiscount 2] (Some admin) shop) as H.
    cbv zeta in H. destruct H as (_ & _ & H).
    destruct (submitSale _ _) as [request|] eqn:Hs; [|discriminate H].
    destruct H as (_ & w' & resp & Hrun & Hff & _ & H200).
    assert (Hr : Ok resp = (request shop).2) by by rewrite Hrun.
    injection Hs as <-. vm_compute in Hr. injection Hr as ->.
    destruct (H200 eq_refl) as (id & [= <-] & Hsales & _ & Hstock & _).
    eexists _, w'. split; [reflexivity|]. split; [exact Hrun|]. split.
    + rewrite Hsales, lookup_insert_eq. vm_compute. reflexivity.
    + destruct (Hstock (SaleCartItem.Make 1 (Some "Phone X") 2 (num 10)
                          (num 20))) as [_ Hone].
      { vm_compute. apply list_elem_of_here. }
      simpl in Hone. rewrite Hone. vm_compute. reflexivity.
  - pose proof (client_sale [SaleAdd phone] (Some admin) shop) as H.
    cbv zeta in H. destruct H as (_ & _ & H).
    destruct (submitSale _ _) as [request|] eqn:Hs; [|discriminate H].
    destruct H as (_ & w' & resp & Hrun & _ & H400 & _).
    assert (Hr : Ok resp = (request shop).2) by by rewrite Hrun.
    injection Hs as <-. vm_compute in Hr. injection Hr as ->.
    destruct (H400 ltac:(discriminate)) as [_ Hdb].
    eexists _, w'. split; [reflexivity|]. split; [exact Hrun|exact Hdb].
Defined.

(** ** The purchase form *)

Lemma purchase_items_removed idx items :
  purchase_items_ready items →
  purchase_items_ready (filter_index (λ i, negb (i =? idx)%nat) 0 items).
Proof.
  intros [Hall Hnd]. split.
  - apply (sublist_Forall_2 _ _ items); [apply filter_index_sublist|done].
  - apply (sublist_NoDup _ (PurchaseCartItem.product_id <$> items));
      first [assumption | apply fmap_sublist, filter_index_sublist].
Qed.

Lemma purchase_items_added product newPurchase :
  purchase_items_ready (NewPurchase.items newPurchase) →
  purchase_items_ready (NewPurchase.items (addToPurchase product newPurchase)).
Proof.
  intros [Hall Hnd]. unfold addToPurchase.
  destruct (find _ _) as [existing|] eqn:Hfind; simpl.
  - split.
    + apply Forall_fmap. eapply Forall_impl; [done|].
      intros item Hitem. simpl. case_bool_decide; simpl; [by left|done].
    + rewrite <- list_fmap_compose.
      rewrite (list_fmap_ext _ PurchaseCartItem.product_id); [done|].
      intros i item _. unfold compose. simpl. by case_bool_decide.
  - split.
    + apply Forall_app. split; [done|]. apply Forall_singleton. simpl.
      by right.
    + rewrite fmap_app. apply NoDup_app. split; [done|]. split.
      * intros p (item & -> & Hin)%list_elem_of_fmap
               Heq%list_elem_of_singleton.
        apply list_elem_of_In in Hin.
        apply (find_none _ _ Hfind) in Hin. by case_bool_decide.
      * apply NoDup_singleton.
Qed.

(** An input of one item that keeps its product and sets its subtotal to
    its quantity times its unit cost. *)
Lemma purchase_items_edited idx (edit : PurchaseCartItem.t → PurchaseCartItem.t)
    items :
  (∀ it, PurchaseCartItem.product_id (edit it)
         = PurchaseCartItem.product_id it
         ∧ PurchaseCartItem.subtotal (edit it)
           = Some (PurchaseCartItem.quantity (edit it)
                   * js_number (PurchaseCartItem.unit_cost (edit it)))
               %float) →
  purchase_items_ready items →
  purchase_items_ready (edit_at idx edit items).
Proof.
  intros Hedit [Hall Hnd]. unfold edit_at. split.
  - apply Forall_lookup. intros i it.
    rewrite list_lookup_imap.
    destruct (items !! i) as [it'|] eqn:Hi; [|done]. simpl.
    intros [= <-]. destruct (i =? idx)%nat; [left; apply Hedit|].
    rewrite Forall_lookup in Hall. by apply (Hall i).
  - rewrite fmap_imap.
    rewrite (imap_ext _ (const PurchaseCartItem.product_id)).
    + by rewrite imap_const.
    + intros i it _. unfold compose.
      destruct (i =? idx)%nat; [apply Hedit|done].
Qed.

Lemma purchase_form_step_ready newPurchase e :
  purchase_items_ready (NewPurchase.items newPurchase) →
  (NewPurchase.payment_status newPurchase = "paid"
   ∨ NewPurchase.payment_status newPurchase = "unpaid") →
  purchase_items_ready (NewPurchase.items (purchase_form_step newPurchase e))
  ∧ (NewPurchase.payment_status (purchase_form_step newPurchase e) = "paid"
     ∨ NewPurchase.payment_status (purchase_form_step newPurchase e)
       = "unpaid").
Proof.
  intros Hready Hst. destruct e as [product|idx|idx qty|idx cost|v|v|v|o];
    simpl; try (split; [done|done]).
  - split; [by apply purchase_items_added|].
    unfold addToPurchase. by destruct (find _ _).
  - split; [by apply purchase_items_removed|done].
  - split; [|done]. by apply purchase_items_edited.
  - split; [|done]. by apply purchase_items_edited.
  - split; [done|]. destruct o; [by left|by right].
Qed.

Lemma purchase_form_steps_ready events newPurchase :
  purchase_items_ready (NewPurchase.items newPurchase) →
  (NewPurchase.payment_status newPurchase = "paid"
   ∨ NewPurchase.payment_status newPurchase = "unpaid") →
  purchase_items_ready
    (NewPurchase.items (foldl purchase_form_step newPurchase events))
  ∧ (NewPurchase.payment_status (foldl purchase_form_step newPurchase events)
     = "paid"
     ∨ NewPurchase.payment_status
         (foldl purchase_form_step newPurchase events) = "unpaid").
Proof.
  revert newPurchase.
  induction events as [|e events IH]; intros newPurchase Hready Hst; simpl;
    [done|].
  destruct (purchase_form_step_ready newPurchase e Hready Hst)
    as [Hready' Hst'].
  by apply IH.
Qed.

(** Whatever the user does to the purchase form, its items are as the
    client keeps them and the payment status is 'paid' or 'unpaid'. *)
Lemma purchase_form_ready events :
  purchase_items_ready (NewPurchase.items (purchase_form events))
  ∧ (NewPurchase.payment_status (purchase_form events) = "paid"
     ∨ NewPurchase.payment_status (purchase_form events) = "unpaid").
Proof.
  apply (purchase_form_steps_ready events NewPurchase.initial).
  - split; [apply Forall_nil_2|apply NoDup_nil_2].
  - by left.
Qed.

(** What the lines of such a form bring of each product, and at what
    cost. *)
Lemma bought_absent p (items : list PurchaseCartItem.t) q c :
  p ∉ PurchaseCartItem.product_id <$> items →
  stock_after_purchase p (purchase_line_of <$> items) q = q
  ∧ cost_after_purchase p (purchase_line_of <$> items) c = c.
Proof.
  unfold stock_after_purchase, cost_after_purchase. revert q c.
  induction items as [|item items IH]; intros q c; simpl; [done|].
  intros [Hne Hnot]%not_elem_of_cons.
  rewrite !decide_False by (intros [= ?]; done). auto.
Qed.

Lemma bought_item (items : list PurchaseCartItem.t) item q c :
  NoDup (PurchaseCartItem.product_id <$> items) → item ∈ items →
  stock_after_purchase (PurchaseCartItem.product_id item)
    (purchase_line_of <$> items) q
  = sql_add q (json_number (PurchaseCartItem.quantity item))
  ∧ cost_after_purchase (PurchaseCartItem.product_id item)
      (purchase_line_of <$> items) c
    = json_real (PurchaseCartItem.unit_cost item).
Proof.
  revert q c. induction items as [|item' items IH]; intros q c; simpl.
  - by intros _ ?%elem_of_nil.
  - intros [Hnot Hnd]%NoDup_cons [->|Hin]%elem_of_cons.
    + unfold stock_after_purchase, cost_after_purchase. simpl.
      rewrite !decide_True by done. by apply bought_absent.
    + unfold stock_after_purchase, cost_after_purchase. simpl.
      rewrite !decide_False; [by apply IH| |].
      all: intros [= Heq]; apply Hnot; rewrite Heq;
        apply list_elem_of_fmap; by exists item.
Qed.

(** What the engine asks of the request of a purchase form. *)
Lemma purchase_accepted_client supplier_id (user : option Account.t) st
    items s :
  st = "paid" ∨ st = "unpaid" →
  purchase_accepted (Some supplier_id) (Account.id <$> user) (Some st)
    (purchase_line_of <$> items) s
  ↔ is_Some (suppliers s !! supplier_id)
    ∧ (∀ u, user = Some u → is_Some (users s !! Account.id u))
    ∧ (∀ item, item ∈ items →
         is_Some (products s !! PurchaseCartItem.product_id item)).
Proof.
  intros Hst. unfold purchase_accepted.
  assert (Hone : one_of ["paid"; "partial"; "unpaid"] (Some st) = true)
    by by destruct Hst as [-> | ->].
  rewrite Hone. clear Hone. simpl. rewrite bool_decide_eq_true.
  rewrite Forall_fmap, Forall_forall.
  assert (Hu : has (users s) (Account.id <$> user) = true
               ↔ ∀ u, user = Some u → is_Some (users s !! Account.id u)).
  { destruct user as [u|]; simpl.
    - rewrite bool_decide_eq_true. split; [by intros ? ? [= <-]|auto].
    - split; [by intros _ ? [=]|done]. }
  rewrite Hu. unfold compose. simpl.
  setoid_rewrite bool_decide_eq_true. tauto.
Qed.

(** The purchase form of the client.  Whatever the user does to it, its
    items name distinct products, each with a subtotal that is its
    quantity times its unit cost in doubles (or, for an item added once
    and not edited, the cost itself), and its payment status is 'paid'
    or 'unpaid'.  [submitPurchase] sends no request for a form without
    items or with the supplier 0.  The request of any other form is always
    answered, with 200 or with 400, and after a 400 the database is what
    it was.  On the fault-free engine the answer is 200 exactly when the
    supplier of the form, the user who is logged in and the product of
    each item are stored.  After a 200 the purchase is stored with the
    sum of the subtotals as its total; the new PurchaseItem rows are those
    of the items, one each; the product of each item has the unit cost
    of that item as its cost and a stock that is more by the quantity of
    that item, and the other products are as they were. *)
Theorem client_purchase events user w :
  let newPurchase := purchase_form events in
  let items := NewPurchase.items newPurchase in
  purchase_items_ready items
  ∧ (NewPurchase.payment_status newPurchase = "paid"
     ∨ NewPurchase.payment_status newPurchase = "unpaid")
  ∧ match submitPurchase user newPurchase with
    | None => items = [] ∨ NewPurchase.supplier_id newPurchase = 0
    | Some request =>
        items ≠ []
        ∧ NewPurchase.supplier_id newPurchase ≠ 0
        ∧ ∃ w' resp,
            request w = (w', Ok resp)
            ∧ (fault_free w →
               (status resp = 200
                ↔ is_Some (suppliers (db w)
                             !! NewPurchase.supplier_id newPurchase)
                  ∧ (∀ u, user = Some u →
                       is_Some (users (db w) !! Account.id u))
                  ∧ (∀ item, item ∈ items →
                       is_Some (products (db w)
                                  !! PurchaseCartItem.product_id item))))
            ∧ (status resp ≠ 200 → status resp = 400 ∧ db w' = db w)
            ∧ (status resp = 200 →
               ∃ id,
                 payload resp = Id id
                 ∧ purchases (db w')
                   = <[id := Purchase.Make
                               (Some (NewPurchase.supplier_id newPurchase))
                               (Account.id <$> user)
                               (json_number (purchase_subtotals items))
                               (Some (NewPurchase.payment_status
                                        newPurchase))
                               (Some (now w))]> (purchases (db w))
                 ∧ (∀ k row,
                      purchase_items (db w') !! k = Some row →
                      purchase_items (db w) !! k = None →
                      ∃ item,
                        item ∈ items
                        ∧ row = PurchaseItem.Make (Some id)
                                  (Some (PurchaseCartItem.product_id item))
                                  (json_number
                                     (PurchaseCartItem.quantity item))
                                  (json_real
                                     (PurchaseCartItem.unit_cost item))
                                  (json_real
                                     (PurchaseCartItem.subtotal item)))
                 ∧ (∀ item,
                      item ∈ items →
                      (∃ k,
                         purchase_items (db w) !! k = None
                         ∧ purchase_items (db w') !! k
                           = Some (PurchaseItem.Make (Some id)
                                     (Some (PurchaseCartItem.product_id
                                              item))
                                     (json_number
                                        (PurchaseCartItem.quantity item))
                                     (json_real
                                        (PurchaseCartItem.unit_cost item))
                                     (json_real
                                        (PurchaseCartItem.subtotal item))))
                      ∧ products (db w') !! PurchaseCartItem.product_id item
                        = (λ r, product_with
                                  (json_real
                                     (PurchaseCartItem.unit_cost item))
                                  (sql_add (Product.stock_quantity r)
                                     (json_number
                                        (PurchaseCartItem.quantity item)))
                                  r)
                          <$> products (db w)
                              !! PurchaseCartItem.product_id item)
                 ∧ (∀ p,
                      p ∉ PurchaseCartItem.product_id <$> items →
                      products (db w') !! p = products (db w) !! p))
    end.
Proof.
  intros newPurchase items.
  destruct (purchase_form_ready events) as [Hready Hst].
  split; [done|]. split; [done|].
  unfold submitPurchase. fold newPurchase. fold items.
  destruct (length items =? 0)%nat eqn:Hlen.
  { left. apply Nat.eqb_eq in Hlen. by apply nil_length_inv. }
  destruct (NewPurchase.supplier_id newPurchase =? 0) eqn:Hsup.
  { right. by apply Z.eqb_eq. }
  split. { intros Hnil. by rewrite Hnil in Hlen. }
  split. { by apply Z.eqb_neq. }
  match goal with
  | |- context [post_purchases ?c ?u ?total ?st (Some ?lines)] =>
      destruct (post_purchases_answer c u total st lines w)
        as (w' & resp & Hrun & Hff & H200 & H400)
  end.
  exists w', resp. split; [done|]. split.
  { intros Hw. rewrite (Hff Hw). by apply purchase_accepted_client. }
  split; [done|].
  intros Hok. destruct (H200 Hok) as (id & Hid & Hrec).
  destruct Hrec
    as (_ & Hpurchase & _ & (first & Hnew & Hrows & Hold) & Hstock & _).
  exists id. split; [done|]. split; [done|]. split; [|split].
  - intros k row Hk Hbefore.
    destruct (decide (first ≤ k
                      < first
                        + Z.of_nat (length (purchase_line_of <$> items))))
      as [Hin|Hout].
    + destruct (lookup_lt_is_Some_2 (purchase_line_of <$> items)
                  (Z.to_nat (k - first))) as [line Hline]; [lia|].
      pose proof (Hrows _ _ Hline) as Hrow.
      replace (first + Z.of_nat (Z.to_nat (k - first))) with k in Hrow
        by lia.
      rewrite Hrow in Hk. injection Hk as <-.
      apply list_lookup_fmap_Some in Hline as (item & -> & Hitem).
      exists item. split; [by eapply list_elem_of_lookup_2|done].
    + rewrite (Hold k Hout), Hbefore in Hk. done.
  - intros item Hin. split.
    + apply list_elem_of_lookup_1 in Hin as [i Hi].
      exists (first + Z.of_nat i). split; [apply Hnew; lia|].
      rewrite (Hrows i (purchase_line_of item)); [done|].
      by rewrite list_lookup_fmap, Hi.
    + rewrite Hstock.
      destruct (products (db w) !! PurchaseCartItem.product_id item)
        as [r|]; [|done].
      simpl.
      destruct (bought_item items item (Product.stock_quantity r)
                  (Product.cost r) (proj2 Hready) Hin) as [-> ->].
      done.
  - intros p Hp. rewrite Hstock.
    destruct (products (db w) !! p) as [r|]; [|done]. simpl.
    destruct (bought_absent p items (Product.stock_quantity r)
                (Product.cost r) Hp) as [-> ->].
    by rewrite product_with_id.
Qed.

(** In the shop: the administrator buys three phones from supplier 1 at a
    unit cost of 8, on credit; with the supplier 99, whom nobody stored,
    the engine refuses. *)
Lemma client_purchase_witness :
  let phone :=
    (1, Product.Make (Some "Phone X") (Some "phone") (Some "Acme")
          (Some "X") (Some "SKU-1") (num 10) (num 7) (num 5) (num 5)
          (num 1) (Some "pc") None None (Some "A1")) in
  let admin := Account.Make 1 (Some "admin") (Some "admin") in
  (∃ request w',
     submitPurchase (Some admin)
       (purchase_form [PurchaseSupplier 1; PurchaseAdd phone;
                       PurchaseQuantity 0 3; PurchaseCost 0 8;
                       PurchasePaymentStatus OptionUnpaid])
     = Some request
     ∧ request shop = (w', Ok (json (Id 1)))
     ∧ Purchase.total_amount <$> purchases (db w') !! 1 = Some (num 24)
     ∧ Product.stock_quantity <$> products (db w') !! 1 = Some (num 8)
     ∧ Product.cost <$> products (db w') !! 1 = Some (num 8))
  ∧ ∃ request w',
      submitPurchase (Some admin)
        (purchase_form [PurchaseSupplier 99; PurchaseAdd phone])
      = Some request
      ∧ request shop
        = (w', Ok (json_error 400 (SqliteConstraint FOREIGN_KEY)))
      ∧ db w' = db shop.
Proof.
  intros phone admin. split.
  - pose proof (client_purchase
                  [PurchaseSupplier 1; PurchaseAdd phone;
                   PurchaseQuantity 0 3; PurchaseCost 0 8;
                   PurchasePaymentStatus OptionUnpaid] (Some admin) shop)
      as H.
    cbv zeta in H. destruct H as (_ & _ & H).
    destruct (submitPurchase _ _) as [request|] eqn:Hs; [|by destruct H].
    destruct H as (_ & _ & w' & resp & Hrun & Hff & _ & H200).
    assert (Hr : Ok resp = (request shop).2) by by rewrite Hrun.
    injection Hs as <-. vm_compute in Hr. injection Hr as ->.
    destruct (H200 eq_refl) as (id & [= <-] & Hpurchases & _ & Hstock & _).
    eexists _, w'. split; [reflexivity|]. split; [exact Hrun|]. split.
    + rewrite Hpurchases, lookup_insert_eq. vm_compute. reflexivity.
    + destruct (Hstock (PurchaseCartItem.Make 1 (Some "Phone X") 3 (num 8)
                          (num 24))) as [_ Hone].
      { vm_compute. apply list_elem_of_here. }
      simpl in Hone. rewrite Hone. vm_compute. split; reflexivity.
  - pose proof (client_purchase [PurchaseSupplier 99; PurchaseAdd phone]
                  (Some admin) shop) as H.
    cbv zeta in H. destruct H as (_ & _ & H).
    destruct (submitPurchase _ _) as [request|] eqn:Hs; [|by destruct H].
    destruct H as (_ & _ & w' & resp & Hrun & _ & H400 & _).
    assert (Hr : Ok resp = (request shop).2) by by rewrite Hrun.
    injection Hs as <-. vm_compute in Hr. injection Hr as ->.
    destruct (H400 ltac:(discriminate)) as [_ Hdb].
    eexists _, w'. split; [reflexivity|]. split; [exact Hrun|exact Hdb].
Defined.
